(** * Chat room protocol and response cache of the crypto onboarding app

  A shallow embedding of
    - [api/socket/index.ts]: the handlers of the [/chat] namespace,
    - [api/middleware/auth.ts]: [getUserIdFromSub], [ensureUserExists] and,
      in its second part, the chat routes ([messageSchema], [POST /messages]),
    - [api/routes/user.ts], second part: the coin routes' cache
      ([getCachedData], [setCachedData]),
    - [supabase/migrations/001_initial_schema.sql]: [cleanup_old_messages],
  followed by the properties of the specification that concern them; and of
    - the coin routes [GET /market] and [GET /search] of [api/routes/user.ts],
    - the chat routes [GET /messages] and [DELETE /messages/:messageId] of
      [api/middleware/auth.ts],
    - what the clients emit ([src/pages/Chat.tsx], [src/pages/CoinDetails.tsx],
      [src/lib/socket.ts]) against the listeners of the [/chat] namespace,
    - the price rooms of the main namespace ([api/socket/index.ts]),
  with further properties read off the code.

  Modelling conventions.
    - A JavaScript string is a Rocq [string], one character per code unit;
      [length] is [String.length].
    - [Date.now()] and [created_at] are integers ([Z]); the cache's
      [ttlMinutes] is an integer number of minutes, as at every call site.
    - The hosted database is a record of tables (lists of rows).  What the
      network decides (a query answers, reports an error, or throws; the
      identifier and time stamp given to a new row) is an explicit argument
      of the handler that awaits it.
    - A select that embeds [users] in a message returns the user as one
      object, as PostgREST does for a to-one relationship; the handlers read
      it as an array.
    - A handler runs to completion: the interleaving of two handlers at an
      [await] is outside this model. *)

From Stdlib Require Import ZArith String Ascii List.
From stdpp Require Import base gmap strings list sorting fin_maps fin_sets pretty.

Local Open Scope string_scope.
Local Open Scope Z_scope.
Local Open Scope list_scope.

(* ===================================================================== *)
(** * JavaScript strings *)
(* ===================================================================== *)

Module Js.

(** White space and line terminators removed by [String.prototype.trim],
    among the code units below 256: TAB, LF, VT, FF, CR, SPACE, NBSP. *)
Definition is_white_space (a : ascii) : bool :=
  let n := nat_of_ascii a in
  ((9 <=? n)%nat && (n <=? 13)%nat) || (n =? 32)%nat || (n =? 160)%nat.

Fixpoint trimStart (s : string) : string :=
  match s with
  | EmptyString => EmptyString
  | String a rest => if is_white_space a then trimStart rest else s
  end.

Fixpoint trimEnd (s : string) : string :=
  match s with
  | EmptyString => EmptyString
  | String a rest =>
      match trimEnd rest with
      | EmptyString => if is_white_space a then EmptyString else String a EmptyString
      | kept => String a kept
      end
  end.

Definition trim (s : string) : string := trimEnd (trimStart s).

(** [s.split('@')[0]]: the part of [s] before its first ['@']. *)
Fixpoint before_at (s : string) : string :=
  match s with
  | EmptyString => EmptyString
  | String a rest => if Ascii.eqb a "@"%char then EmptyString else String a (before_at rest)
  end.

(** Truthiness of a string: only [""] is falsy. *)
Definition truthy (s : string) : bool := negb (String.eqb s "").

(** [n] copies of the character [a]. *)
Fixpoint repeat_char (a : ascii) (n : nat) : string :=
  match n with
  | O => EmptyString
  | S k => String a (repeat_char a k)
  end.

End Js.

(* ===================================================================== *)
(** * The response cache of the coin routes *)
(* ===================================================================== *)

Module Cache.
Section cache.

(** The cached payload is [any]; [null] is what a miss returns. *)
Context {V : Type} (null : V).

(** [{ data: any; timestamp: number; ttl: number }] *)
Record CacheEntry := mkEntry { data : V; timestamp : Z; ttl : Z }.

(** [function getCachedData(key)], with [Date.now()] as [now].  The result
    is the returned value and the map after the call. *)
Definition getCachedData (cache : gmap string CacheEntry) (now : Z) (key : string)
  : V * gmap string CacheEntry :=
  match cache !! key with
  | Some cached =>
      if bool_decide (now - timestamp cached < ttl cached)
      then (data cached, cache)
      else (null, delete key cache)
  | None => (null, delete key cache)
  end.

(** [function setCachedData(key, data, ttlMinutes = 5)] *)
Definition setCachedData (cache : gmap string CacheEntry) (now : Z)
    (key : string) (d : V) (ttlMinutes : Z) : gmap string CacheEntry :=
  <[key := {| data := d; timestamp := now; ttl := ttlMinutes * 60 * 1000 |}]> cache.

End cache.
Arguments CacheEntry : clear implicits.
Arguments mkEntry {V}.
Arguments data {V}.
Arguments timestamp {V}.
Arguments ttl {V}.
End Cache.

(* ===================================================================== *)
(** * The database: tables and the queries the program sends *)
(* ===================================================================== *)

Module Db.

(** Columns carry the names the handlers use ([content], [name]); the
    migration calls them [message] and [username].  Every row the handlers
    write has all its columns set, so the columns are not optional here. *)

(** The columns of [users] that the program reads. *)
Record UserRow := mkUser {
  usr_id : string;
  auth0_sub : string;
  usr_name : string;
  usr_email : string
}.

(** A row of [chat_messages]. *)
Record ChatMessageRow := mkMsg {
  msg_id : string;
  coin_id : string;
  user_id : string;
  content : string;
  created_at : Z;
  is_deleted : bool
}.

Record Database := mkDb {
  users : list UserRow;
  coins : list string;
  chat_messages : list ChatMessageRow
}.

Definition with_chat_messages (d : Database) (rows : list ChatMessageRow) : Database :=
  {| users := users d; coins := coins d; chat_messages := rows |}.

Definition with_users (d : Database) (rows : list UserRow) : Database :=
  {| users := rows; coins := coins d; chat_messages := chat_messages d |}.

(** What a call to the database client comes back with: [{data, error}]
    with [error] null, [{data, error}] with [error] set, or an exception. *)
Inductive Reply := Answered | Errored | Threw.

(** The reply to an insert: on success the database chose the new row's
    [id] ([gen_random_uuid()]) and [created_at] ([NOW()]). *)
Inductive InsertReply :=
| Inserted (new_id : string) (now : Z)
| InsertErrored
| InsertThrew.

(** [ORDER BY created_at DESC]: the newer row comes first.  Among rows
    created at the same time the database is free to choose; the sort below
    fixes one choice. *)
Definition created_desc (a b : ChatMessageRow) : Prop := created_at b <= created_at a.

Global Instance created_desc_dec : RelDecision created_desc.
Proof. intros a b. unfold created_desc. apply _. Defined.

Definition order_by_created_at_desc (rows : list ChatMessageRow) : list ChatMessageRow :=
  merge_sort created_desc rows.

(** The rows of [users] that the join of [users!inner(id, name, email)]
    matches with a message: those whose [id] is the message's [user_id]. *)
Definition joined_users (d : Database) (m : ChatMessageRow) : list UserRow :=
  filter (λ u, usr_id u = user_id m) (users d).

(** What a selected row holds under the key [users].  [chat_messages.user_id]
    references [users(id)], so from a message the relationship is to-one, and
    PostgREST embeds a to-one relationship as one object; an array is what a
    to-many relationship gives. *)
Inductive Embedded :=
| EmbeddedObject (u : UserRow)
| EmbeddedArray (us : list UserRow).

(** A selected message with what it holds under [users]. *)
Abbreviation Selected := (ChatMessageRow * Embedded)%type.

(** A message as a select with [users!inner(...)] returns it: with its user
    as an object, and not at all ([None]) when the join matches no user. *)
Definition embed (d : Database) (m : ChatMessageRow) : option Selected :=
  match joined_users d m with
  | u :: _ => Some (m, EmbeddedObject u)
  | [] => None
  end.

(** The history query of [join_room]:
    [.eq('coin_id', coinId).eq('is_deleted', false)
     .order('created_at', {ascending: false}).limit(50)],
    the inner join dropping the messages without an author. *)
Definition eligible (d : Database) (coinId : string) (m : ChatMessageRow) : Prop :=
  joined_users d m ≠ [] ∧ coin_id m = coinId ∧ is_deleted m = false.

Global Instance eligible_dec d coinId m : Decision (eligible d coinId m).
Proof. unfold eligible. apply _. Defined.

Definition recent_rows (d : Database) (coinId : string) : list ChatMessageRow :=
  take 50 (order_by_created_at_desc (filter (eligible d coinId) (chat_messages d))).

Definition select_recent_messages (d : Database) (coinId : string) : list Selected :=
  omap (embed d) (recent_rows d coinId).

(** [getUserIdFromSub]: [.eq('auth0_sub', sub).single()] fails unless
    exactly one row matches; every failure gives [null]. *)
Definition getUserIdFromSub (d : Database) (reply : Reply) (sub : string) : option string :=
  match reply with
  | Answered =>
      match filter (λ u, auth0_sub u = sub) (users d) with
      | [u] => Some (usr_id u)
      | _ => None
      end
  | Errored | Threw => None
  end.

(** [.from('chat_messages').insert({coin_id, user_id, content})]: the
    defaults fill [created_at] and [is_deleted]. *)
Definition new_row (new_id coinId userId body : string) (now : Z) : ChatMessageRow :=
  {| msg_id := new_id; coin_id := coinId; user_id := userId; content := body;
     created_at := now; is_deleted := false |}.

Definition insert_message (d : Database) (m : ChatMessageRow) : Database :=
  with_chat_messages d (chat_messages d ++ [m]).

(** ** [cleanup_old_messages()] *)

(** The rows of the inner [SELECT ... FROM chat_messages WHERE is_deleted = false]. *)
Definition not_deleted (rows : list ChatMessageRow) : list ChatMessageRow :=
  filter (λ m, is_deleted m = false) rows.

(** One [PARTITION BY coin_id] window, ordered by [created_at DESC]. *)
Definition partition_of (coinId : string) (rows : list ChatMessageRow) : list ChatMessageRow :=
  order_by_created_at_desc (filter (λ m, coin_id m = coinId) rows).

(** The first 50 rows of a message's own window. *)
Definition in_top_50 (rows : list ChatMessageRow) (m : ChatMessageRow) : Prop :=
  m ∈ take 50 (partition_of (coin_id m) (not_deleted rows)).

(** [ROW_NUMBER()] within a window: [(id, rn)], [rn] counted from 1. *)
Definition row_numbers (window : list ChatMessageRow) : list (string * nat) :=
  imap (λ i m, (msg_id m, S i)) window.

(** The subquery [ranked]: every window, numbered. *)
Definition ranked (rows : list ChatMessageRow) : list (string * nat) :=
  let live := not_deleted rows in
  remove_dups (coin_id <$> live) ≫= λ c, row_numbers (partition_of c live).

(** [SELECT id FROM ranked WHERE rn <= 50] *)
Definition kept_ids (rows : list ChatMessageRow) : list string :=
  fst <$> filter (λ p, (p.2 ≤ 50)%nat) (ranked rows).

(** [DELETE FROM chat_messages WHERE id NOT IN (...)]: the table after. *)
Definition cleanup_old_messages (rows : list ChatMessageRow) : list ChatMessageRow :=
  filter (λ m, msg_id m ∈ kept_ids rows) rows.

Definition run_cleanup (d : Database) : Database :=
  with_chat_messages d (cleanup_old_messages (chat_messages d)).

End Db.

(* ===================================================================== *)
(** * The [/chat] namespace ([api/socket/index.ts]) *)
(* ===================================================================== *)

Module Chat.
Import Db.

(** [interface SocketUser] *)
Record SocketUser := mkSocketUser {
  sub : string;
  email : option string;
  name : option string
}.

(** [a || b] for a string that may be [undefined]. *)
Definition or_else (a : option string) (b : string) : string :=
  match a with
  | Some s => if Js.truthy s then s else b
  | None => b
  end.

(** [user.name || user.email?.split('@')[0] || 'Anonymous'] *)
Definition username (u : SocketUser) : string :=
  or_else (name u) (or_else (Js.before_at <$> email u) "Anonymous").

(** The message as sent to clients. *)
Record FormattedUser := mkFUser { fu_id : string; fu_name : string; fu_email : string }.

Record FormattedMessage := mkFMsg {
  f_id : string;
  f_coinId : string;
  f_content : string;
  f_createdAt : Z;
  f_user : FormattedUser
}.

(** [msg.users[0]]: the first element of an array, if it has one; an
    object with the keys [id], [name] and [email] has no property [0].
    [None] is [undefined]. *)
Definition first_user (e : Embedded) : option UserRow :=
  match e with
  | EmbeddedArray us => us !! 0%nat
  | EmbeddedObject _ => None
  end.

(** [{ id: msg.id, ..., user: { id: msg.users[0].id, ... } }]; reading [id]
    of [undefined] throws ([None]). *)
Definition format_message (sel : Selected) : option FormattedMessage :=
  match first_user sel.2 with
  | Some u =>
      Some {| f_id := msg_id sel.1; f_coinId := coin_id sel.1; f_content := content sel.1;
              f_createdAt := created_at sel.1;
              f_user := {| fu_id := usr_id u; fu_name := usr_name u; fu_email := usr_email u |} |}
  | None => None
  end.

(** Events the server sends. *)
Inductive ServerEvent :=
| EvError (message : string)
| EvRoomJoined (coinId : string) (messages : list FormattedMessage)
| EvUserJoined (who : string)
| EvUserLeft (who : string)
| EvMessage (m : FormattedMessage).

(** The three ways the handlers emit:
    [socket.emit], [chatNamespace.to(room).emit], [socket.to(room).emit]. *)
Inductive Emit :=
| ToSocket (sid : string) (ev : ServerEvent)
| ToRoom (room : string) (ev : ServerEvent)
| ToRoomExcept (room : string) (sender : string) (ev : ServerEvent).

(** A connected socket: its verified user and [socket.rooms]. *)
Record Socket := mkSocket { user : SocketUser; rooms : gset string }.

(** The server: connected sockets of the namespace by [socket.id], and the
    database. *)
Record Server := mkServer { sockets : gmap string Socket; db : Database }.

Definition with_rooms (sk : Socket) (rs : gset string) : Socket :=
  {| user := user sk; rooms := rs |}.

Definition with_sockets (srv : Server) (m : gmap string Socket) : Server :=
  {| sockets := m; db := db srv |}.

Definition with_db (srv : Server) (d : Database) : Server :=
  {| sockets := sockets srv; db := d |}.

Definition initial (d : Database) : Server := {| sockets := ∅; db := d |}.

(** The sockets currently in [room]. *)
Definition members (srv : Server) (room : string) : gset string :=
  dom (filter (λ kv, room ∈ rooms kv.2) (sockets srv)).

(** Who receives an emit. *)
Definition deliver (srv : Server) (e : Emit) : list (string * ServerEvent) :=
  match e with
  | ToSocket sid ev => [(sid, ev)]
  | ToRoom room ev => (λ m, (m, ev)) <$> elements (members srv room)
  | ToRoomExcept room sender ev =>
      (λ m, (m, ev)) <$> elements (members srv room ∖ {[sender]})
  end.

Definition deliveries (srv : Server) (es : list Emit) : list (string * ServerEvent) :=
  es ≫= deliver srv.

(** What one socket receives, in order. *)
Definition received (srv : Server) (es : list Emit) (sid : string) : list ServerEvent :=
  snd <$> filter (λ d, d.1 = sid) (deliveries srv es).

Definition is_message (ev : ServerEvent) : bool :=
  match ev with EvMessage _ => true | _ => false end.

Definition is_user_left (ev : ServerEvent) : bool :=
  match ev with EvUserLeft _ => true | _ => false end.

Definition is_error (ev : ServerEvent) : bool :=
  match ev with EvError _ => true | _ => false end.

Definition is_room_joined (ev : ServerEvent) : bool :=
  match ev with EvRoomJoined _ _ => true | _ => false end.

Definition event_of (e : Emit) : ServerEvent :=
  match e with ToSocket _ ev | ToRoom _ ev | ToRoomExcept _ _ ev => ev end.

(** The reply to the insert of [ensureUserExists]: on success the database
    chose the new row's [id]. *)
Inductive UserInsertReply := UserInserted (new_id : string) | UserInsertErrored.

(** The row [ensureUserExists] inserts:
    [{ auth0_sub: user.sub, email: user.email || '',
       username: user.name || user.email?.split('@')[0] || 'User', ... }]. *)
Definition new_user (u : SocketUser) (new_id : string) : UserRow :=
  {| usr_id := new_id; auth0_sub := sub u;
     usr_name := or_else (name u) (or_else (Js.before_at <$> email u) "User");
     usr_email := or_else (email u) "" |}.

(** [ensureUserExists(user)] of [api/middleware/auth.ts]: the database after
    it, or [None] when it throws.  [found] is the reply to its
    [.eq('auth0_sub', user.sub).single()], which gives no row (and the error
    [PGRST116], which is let through) unless exactly one row matches;
    [created] is the reply to its insert. *)
Definition ensureUserExists (d : Database) (u : SocketUser)
    (found : Reply) (created : UserInsertReply) : option Database :=
  match found with
  | Threw | Errored => None
  | Answered =>
      match filter (λ r, auth0_sub r = sub u) (users d) with
      | [_] => Some d
      | _ =>
          match created with
          | UserInserted new_id => Some (with_users d (users d ++ [new_user u new_id]))
          | UserInsertErrored => None
          end
      end
  end.

(** A connection to the namespace that [socketAuthMiddleware] lets through:
    the token is verified, [u] is its payload, [ensureUserExists] returns,
    having found the user's row or inserted one under [new_id], and [next()]
    leads to the connection callback, where socket.io has put the new socket
    in the room named by its own id.  When [ensureUserExists] throws, [next]
    is never called: no socket connects and nothing has changed. *)
Definition connect (srv : Server) (sid : string) (u : SocketUser) (new_id : string)
  : Server :=
  match ensureUserExists (db srv) u Answered (UserInserted new_id) with
  | Some d =>
      {| sockets := <[sid := {| user := u; rooms := {[sid]} |}]> (sockets srv); db := d |}
  | None => srv
  end.

(** [rooms.forEach(room => { if (room !== socket.id) socket.leave(room) })] *)
Definition leave_previous (sid : string) (rs : gset string) : gset string :=
  foldr (λ room acc, if decide (room ≠ sid) then acc ∖ {[room]} else acc) rs (elements rs).

(** [socket.on('join_room', async ({coinId}) => ...)].  [fetch] is the reply
    to the history query. *)
Definition join_room (srv : Server) (sid coinId : string) (fetch : Reply)
  : Server * list Emit :=
  match sockets srv !! sid with
  | None => (srv, [])
  | Some sk =>
      if negb (Js.truthy coinId)
      then (srv, [ToSocket sid (EvError "Coin ID is required")])
      else
        let joined := with_rooms sk ({[coinId]} ∪ leave_previous sid (rooms sk)) in
        let srv' := with_sockets srv (<[sid := joined]> (sockets srv)) in
        match fetch with
        | Threw => (srv', [ToSocket sid (EvError "Failed to join room")])
        | Errored => (srv', [ToSocket sid (EvError "Failed to load messages")])
        | Answered =>
            match mapM format_message (reverse (select_recent_messages (db srv) coinId)) with
            | None => (srv', [ToSocket sid (EvError "Failed to join room")])
            | Some formattedMessages =>
                (srv', [ToSocket sid (EvRoomJoined coinId formattedMessages);
                        ToRoomExcept coinId sid (EvUserJoined (username (user sk)))])
            end
        end
  end.

(** [socket.on('send_message', async ({coinId, message}) => ...)].  [lookup]
    is the reply to the query of [getUserIdFromSub], [ins] the reply to the
    insert. *)
Definition send_message (srv : Server) (sid coinId message : string)
    (lookup : Reply) (ins : InsertReply) : Server * list Emit :=
  match sockets srv !! sid with
  | None => (srv, [])
  | Some sk =>
      if negb (Js.truthy coinId) || negb (Js.truthy (Js.trim message))
      then (srv, [ToSocket sid (EvError "Coin ID and message are required")])
      else if (500 <? String.length message)%nat
      then (srv, [ToSocket sid (EvError "Message too long (max 500 characters)")])
      else
        match getUserIdFromSub (db srv) lookup (sub (user sk)) with
        | None => (srv, [ToSocket sid (EvError "User not found")])
        | Some userId =>
            match ins with
            | InsertThrew | InsertErrored =>
                (srv, [ToSocket sid (EvError "Failed to send message")])
            | Inserted new_id now =>
                let row := new_row new_id coinId userId (Js.trim message) now in
                let srv' := with_db srv (insert_message (db srv) row) in
                match embed (db srv') row with
                | None => (srv', [ToSocket sid (EvError "Failed to send message")])
                | Some newMessage =>
                    match format_message newMessage with
                    | None => (srv', [ToSocket sid (EvError "Failed to send message")])
                    | Some formattedMessage =>
                        (srv', [ToRoom coinId (EvMessage formattedMessage)])
                    end
                end
            end
        end
  end.

(** [socket.on('leave_room', ({coinId}) => ...)] *)
Definition leave_room (srv : Server) (sid coinId : string) : Server * list Emit :=
  match sockets srv !! sid with
  | None => (srv, [])
  | Some sk =>
      if Js.truthy coinId
      then
        let srv' := with_sockets srv (<[sid := with_rooms sk (rooms sk ∖ {[coinId]})]> (sockets srv)) in
        (srv', [ToRoomExcept coinId sid (EvUserLeft (username (user sk)))])
      else (srv, [])
  end.

(** [socket.on('disconnect', ...)] only logs; socket.io has taken the socket
    out of its rooms and of the namespace. *)
Definition disconnect (srv : Server) (sid : string) : Server * list Emit :=
  (with_sockets srv (delete sid (sockets srv)), []).

(** What clients and the transport do to the server.  [Connect] is a
    connection that the middleware let through, see [connect]. *)
Inductive ClientEvent :=
| Connect (sid : string) (u : SocketUser) (new_id : string)
| JoinRoom (sid coinId : string) (fetch : Reply)
| SendMessage (sid coinId message : string) (lookup : Reply) (ins : InsertReply)
| LeaveRoom (sid coinId : string)
| Disconnect (sid : string).

Definition step (srv : Server) (ev : ClientEvent) : Server * list Emit :=
  match ev with
  | Connect sid u new_id => (connect srv sid u new_id, [])
  | JoinRoom sid coinId fetch => join_room srv sid coinId fetch
  | SendMessage sid coinId message lookup ins => send_message srv sid coinId message lookup ins
  | LeaveRoom sid coinId => leave_room srv sid coinId
  | Disconnect sid => disconnect srv sid
  end.

Definition run (srv : Server) (evs : list ClientEvent) : Server :=
  foldl (λ s ev, (step s ev).1) srv evs.

(** ** The session state machine of the specification *)

(** The specification's session: [NoRoom | InRoom(id)] once connected. *)
Inductive SessionState := NoRoom | InRoom (roomId : string).

(** The transitions the specification lists: a join of a non-empty room
    switches to it, a leave of the occupied room gives [NoRoom], a disconnect
    ends the session; everything else leaves the session as it is. *)
Definition spec_step (st : gmap string SessionState) (ev : ClientEvent)
  : gmap string SessionState :=
  match ev with
  | Connect sid _ _ => <[sid := NoRoom]> st
  | JoinRoom sid roomId _ =>
      match st !! sid with
      | Some _ => if Js.truthy roomId then <[sid := InRoom roomId]> st else st
      | None => st
      end
  | LeaveRoom sid roomId =>
      match st !! sid with
      | Some (InRoom r) => if decide (r = roomId) then <[sid := NoRoom]> st else st
      | _ => st
      end
  | Disconnect sid => delete sid st
  | SendMessage _ _ _ _ _ => st
  end.

Definition spec_run (evs : list ClientEvent) : gmap string SessionState :=
  foldl spec_step ∅ evs.

Definition rooms_of_state (s : SessionState) : gset string :=
  match s with
  | NoRoom => ∅
  | InRoom r => {[r]}
  end.

(** The server agrees with the specification's sessions: the same sessions
    are connected, and apart from its own socket.io room a socket is in the
    room of its session state and in no other; no session is in a room with
    the empty name. *)
Definition agrees (srv : Server) (st : gmap string SessionState) : Prop :=
  ∀ sid,
    match sockets srv !! sid, st !! sid with
    | Some sk, Some s =>
        rooms sk ∖ {[sid]} = rooms_of_state s ∖ {[sid]} ∧ s ≠ InRoom ""
    | None, None => True
    | _, _ => False
    end.

(** ** The same, in words over the sequence of events *)

(** Whether [sid] is connected after [evs]: the last of its connects and
    disconnects is a connect. *)
Definition online (evs : list ClientEvent) (sid : string) : bool :=
  foldl (λ b ev,
           match ev with
           | Connect s _ _ => if decide (s = sid) then true else b
           | Disconnect s => if decide (s = sid) then false else b
           | _ => b
           end) false evs.

(** [ev] ends a stay of [sid] in [room]: it leaves that room, disconnects,
    connects afresh, or joins another room. *)
Definition ends_stay (sid room : string) (ev : ClientEvent) : Prop :=
  match ev with
  | Connect s _ _ | Disconnect s => s = sid
  | LeaveRoom s r => s = sid ∧ r = room
  | JoinRoom s r _ => s = sid ∧ r ≠ "" ∧ r ≠ room
  | SendMessage _ _ _ _ _ => False
  end.

(** The connected [sid] joined [room], and nothing it did since ends the
    stay. *)
Definition last_joined (evs : list ClientEvent) (sid room : string) : Prop :=
  ∃ before fetch after,
    evs = before ++ JoinRoom sid room fetch :: after ∧
    room ≠ "" ∧ online before sid = true ∧
    Forall (λ ev, ¬ ends_stay sid room ev) after.

End Chat.

(* ===================================================================== *)
(** * [POST /api/chat/messages] *)
(* ===================================================================== *)

Module Rest.
Import Db.

(** The JSON body: each key is absent or holds a string. *)
Record MessageBody := mkBody { coinId : option string; content : option string }.

(** The request: [req.user?.sub] and the body. *)
Record Request := mkRequest { user_sub : option string; body : MessageBody }.

(** The errors of Joi that the two keys of [messageSchema] can raise. *)
Inductive JoiError :=
| AnyRequired (key : string)
| StringEmpty (key : string)
| StringMin (key : string) (limit : nat)
| StringMax (key : string) (limit : nat).

(** The rule [.min(n)], when present and broken. *)
Definition below_min (min : option nat) (s : string) : option nat :=
  match min with
  | Some n => if (String.length s <? n)%nat then Some n else None
  | None => None
  end.

(** The rule [.max(n)], when present and broken. *)
Definition above_max (max : option nat) (s : string) : option nat :=
  match max with
  | Some n => if (n <? String.length s)%nat then Some n else None
  | None => None
  end.

(** [Joi.string()...required()] with optional [.min(n)] and [.max(n)]: the
    key must be present, [""] is not allowed, then the length rules in
    order.  Joi does not trim unless asked to. *)
Definition joi_string (key : string) (min max : option nat) (v : option string)
  : JoiError + string :=
  match v with
  | None => inl (AnyRequired key)
  | Some s =>
      if String.eqb s "" then inl (StringEmpty key)
      else
        match below_min min s with
        | Some n => inl (StringMin key n)
        | None =>
            match above_max max s with
            | Some n => inl (StringMax key n)
            | None => inr s
            end
        end
  end.

(** [messageSchema.validate(req.body)]: the first error, or the value. *)
Definition messageSchema_validate (b : MessageBody) : JoiError + (string * string) :=
  match joi_string "coinId" None None (coinId b) with
  | inl e => inl e
  | inr c =>
      match joi_string "content" (Some 1%nat) (Some 1000%nat) (content b) with
      | inl e => inl e
      | inr t => inr (c, t)
      end
  end.

Inductive Payload :=
| ErrorText (message : string)
| ErrorJoi (e : JoiError)
| Created (m : Chat.FormattedMessage).

Record Response := mkResponse { status : nat; payload : Payload }.

(** [router.post('/messages', ...)]: the response and the database after.
    [lookup], [coin] and [ins] are the replies to the three database calls;
    [d] is the database as the handler finds it, [authMiddleware] having
    run. *)
Definition post_messages (d : Database) (req : Request)
    (lookup coin : Reply) (ins : InsertReply) : Response * Database :=
  match user_sub req with
  | None => ({| status := 401; payload := ErrorText "User not authenticated" |}, d)
  | Some auth0Sub =>
      if negb (Js.truthy auth0Sub)
      then ({| status := 401; payload := ErrorText "User not authenticated" |}, d)
      else
        match messageSchema_validate (body req) with
        | inl e => ({| status := 400; payload := ErrorJoi e |}, d)
        | inr (coinId, content) =>
            match getUserIdFromSub d lookup auth0Sub with
            | None => ({| status := 404; payload := ErrorText "User not found" |}, d)
            | Some userId =>
                match coin with
                | Threw => ({| status := 500; payload := ErrorText "Internal server error" |}, d)
                | Errored => ({| status := 500; payload := ErrorText "Failed to verify coin" |}, d)
                | Answered =>
                    if bool_decide (coinId ∈ coins d)
                    then
                      match ins with
                      | InsertThrew =>
                          ({| status := 500; payload := ErrorText "Internal server error" |}, d)
                      | InsertErrored =>
                          ({| status := 500; payload := ErrorText "Failed to send message" |}, d)
                      | Inserted new_id now =>
                          let row := new_row new_id coinId userId (Js.trim content) now in
                          let d' := insert_message d row in
                          match embed d' row with
                          | None => ({| status := 500; payload := ErrorText "Failed to send message" |}, d')
                          | Some newMessage =>
                              match Chat.format_message newMessage with
                              | None =>
                                  ({| status := 500; payload := ErrorText "Internal server error" |}, d')
                              | Some formattedMessage =>
                                  ({| status := 201; payload := Created formattedMessage |}, d')
                              end
                          end
                      end
                    else ({| status := 404; payload := ErrorText "Coin not found" |}, d)
                end
            end
        end
  end.

End Rest.

(* ===================================================================== *)
(** * Concrete tables and servers used as instances *)
(* ===================================================================== *)

Module Sample.
Import Db.

Definition alice : UserRow := mkUser "u-alice" "auth0|alice" "Alice" "alice@example.org".
Definition bob : UserRow := mkUser "u-bob" "auth0|bob" "Bob" "bob@example.org".

(** [n] messages of Alice in [room], the [k]-th created at time [k] with
    identifier [room-k], oldest first. *)
Fixpoint room_history (room : string) (n : nat) : list ChatMessageRow :=
  match n with
  | O => []
  | S k => room_history room k ++
           [mkMsg (room +:+ "-" +:+ pretty (S k)) room "u-alice" "gm" (Z.of_nat (S k)) false]
  end.

(** Sixty live messages in [bitcoin], three in [ethereum], and two
    soft-deleted ones, one of them the newest row of the table. *)
Definition sixty : Database :=
  mkDb [alice; bob] ["bitcoin"; "ethereum"]
       (mkMsg "old-deleted" "bitcoin" "u-bob" "oops" 0 true
        :: room_history "bitcoin" 60
        ++ room_history "ethereum" 3
        ++ [mkMsg "new-deleted" "ethereum" "u-bob" "oops" 100 true]).

Definition alice_socket : Chat.SocketUser :=
  Chat.mkSocketUser "auth0|alice" (Some "alice@example.org") (Some "Alice").
Definition bob_socket : Chat.SocketUser :=
  Chat.mkSocketUser "auth0|bob" (Some "bob@example.org") None.

(** Alice ([s1]) and Bob ([s2]) connected and both in [bitcoin]. *)
Definition two_in_bitcoin : Chat.Server :=
  Chat.run (Chat.initial sixty)
    [Chat.Connect "s1" alice_socket "u-1"; Chat.Connect "s2" bob_socket "u-2";
     Chat.JoinRoom "s1" "bitcoin" Answered; Chat.JoinRoom "s2" "bitcoin" Answered].

End Sample.

(* ===================================================================== *)
(** * The cached coin routes ([api/routes/user.ts], second part) *)
(* ===================================================================== *)

Module Market.

(** [String.prototype.toLowerCase] on the code units below 256: the letters
    A-Z, and the accented capitals 192-222 but the sign 215, move up by 32. *)
Definition lower_char (a : ascii) : ascii :=
  let n := nat_of_ascii a in
  if ((65 <=? n)%nat && (n <=? 90)%nat)
     || ((192 <=? n)%nat && (n <=? 222)%nat && negb (n =? 215)%nat)
  then ascii_of_nat (n + 32) else a.

Fixpoint toLowerCase (s : string) : string :=
  match s with
  | EmptyString => EmptyString
  | String a rest => String (lower_char a) (toLowerCase rest)
  end.

Section routes.

(** [Raw] is a coin as the upstream service sends it, [Shaped] the object a
    route builds from it field by field, [Payload] whatever the cache holds
    (the routes share one cache and store their result objects in it). *)
Context {Raw Shaped Payload : Type}.
Context (market_fields search_fields : Raw → Shaped).
Context (result_json : list Shaped → Z → Z → Payload).

(** The cache: a hit is an object, a miss is [null]. *)
Abbreviation cache_t := (gmap string (Cache.CacheEntry (option Payload))).

(** What the upstream call comes back with: [response.data], or an exception
    with its message. *)
Inductive Upstream := Returned (data : list Raw) | Failed (message : string).

Inductive Response :=
| Json (body : Payload)
| Rejected (status : nat) (error : string)
| ServerError (error : string) (message : string).

(** What a request did: the response, the cache after it, and the upstream
    request it issued, if any. *)
Record Outcome {Call : Type} := mkOutcome {
  response : Response;
  cache_after : cache_t;
  upstream_call : option Call
}.
Arguments Outcome : clear implicits.

(** ** [GET /market] *)

(** [req.query]: each parameter is absent or a string. *)
Record MarketQuery := mkMarketQuery {
  ids : option string;
  vs_currency : option string;
  order : option string;
  per_page : option string;
  page : option string;
  sparkline : option string;
  price_change_percentage : option string
}.

(** The parameters after the defaults of the destructuring. *)
Record MarketParams := mkMarketParams {
  p_ids : string;
  p_vs_currency : string;
  p_order : string;
  p_per_page : string;
  p_page : string;
  p_sparkline : string;
  p_price_change_percentage : string
}.

Definition market_params (q : MarketQuery) : MarketParams :=
  {| p_ids := default "bitcoin,ethereum,cardano,polkadot,chainlink" (ids q);
     p_vs_currency := default "usd" (vs_currency q);
     p_order := default "market_cap_desc" (order q);
     p_per_page := default "10" (per_page q);
     p_page := default "1" (page q);
     p_sparkline := default "true" (sparkline q);
     p_price_change_percentage := default "24h" (price_change_percentage q) |}.

(** [`market_${ids}_${vs_currency}_${page}_${per_page}`] *)
Definition market_key (p : MarketParams) : string :=
  "market_" +:+ p_ids p +:+ "_" +:+ p_vs_currency p +:+ "_" +:+ p_page p +:+ "_" +:+ p_per_page p.

(** [router.get('/market', ...)].  [t_lookup], [t_result] and [t_store] are
    the clock at the cache lookup, at [new Date()] and at the cache store. *)
Definition get_market (cache : cache_t) (q : MarketQuery)
    (t_lookup t_result t_store : Z) (reply : Upstream) : Outcome MarketParams :=
  let p := market_params q in
  let cacheKey := market_key p in
  match Cache.getCachedData None cache t_lookup cacheKey with
  | (Some cached, cache1) =>
      {| response := Json cached; cache_after := cache1; upstream_call := None |}
  | (None, cache1) =>
      match reply with
      | Failed message =>
          {| response := ServerError "Failed to fetch market data" message;
             cache_after := cache1; upstream_call := Some p |}
      | Returned data =>
          let result := result_json (market_fields <$> data) t_result 60 in
          {| response := Json result;
             cache_after := Cache.setCachedData cache1 t_store cacheKey (Some result) 1;
             upstream_call := Some p |}
      end
  end.

(** ** [GET /search] *)

(** [`search_${query.toLowerCase()}`] *)
Definition search_key (query : string) : string := "search_" +:+ toLowerCase query.

(** [router.get('/search', ...)].  [query] is [None] when the parameter is
    absent or not a string. *)
Definition get_search (cache : cache_t) (query : option string)
    (t_lookup t_result t_store : Z) (reply : Upstream) : Outcome string :=
  match query with
  | None =>
      {| response := Rejected 400 "Search query is required";
         cache_after := cache; upstream_call := None |}
  | Some query =>
      if negb (Js.truthy query)
      then {| response := Rejected 400 "Search query is required";
              cache_after := cache; upstream_call := None |}
      else
        let cacheKey := search_key query in
        match Cache.getCachedData None cache t_lookup cacheKey with
        | (Some cached, cache1) =>
            {| response := Json cached; cache_after := cache1; upstream_call := None |}
        | (None, cache1) =>
            match reply with
            | Failed message =>
                {| response := ServerError "Failed to search coins" message;
                   cache_after := cache1; upstream_call := Some query |}
            | Returned data =>
                let result := result_json (search_fields <$> take 10 data) t_result 600 in
                {| response := Json result;
                   cache_after := Cache.setCachedData cache1 t_store cacheKey (Some result) 10;
                   upstream_call := Some query |}
            end
        end
  end.

End routes.
Arguments Outcome : clear implicits.
End Market.

(* ===================================================================== *)
(** * The other chat routes: [GET /messages], [DELETE /messages/:messageId] *)
(* ===================================================================== *)

Module ChatRoutes.
Import Db.

(** [req.query] of [GET /messages]: each parameter is absent or holds a
    value of its type: a string, an integer, an ISO date (as its time). *)
Record MessagesQuery := mkMessagesQuery {
  coinId : option string;
  limit : option Z;
  offset : option Z;
  before : option Z
}.

(** The errors of Joi that [messagesQuerySchema] can raise here. *)
Inductive QueryError :=
| OfString (e : Rest.JoiError)
| NumberUnsafe (key : string)
| NumberMin (key : string) (bound : Z)
| NumberMax (key : string) (bound : Z).

(** [Number.MAX_SAFE_INTEGER]: Joi turns down numbers beyond it. *)
Definition max_safe_integer : Z := 9007199254740991.

(** The rule [.min(lo)], when present and broken. *)
Definition below (min : option Z) (n : Z) : option Z :=
  match min with
  | Some lo => if bool_decide (n < lo) then Some lo else None
  | None => None
  end.

(** The rule [.max(hi)], when present and broken. *)
Definition above (max : option Z) (n : Z) : option Z :=
  match max with
  | Some hi => if bool_decide (hi < n) then Some hi else None
  | None => None
  end.

(** [Joi.number().integer()] with optional [.min] and [.max], and
    [.default(d)] for an absent key. *)
Definition joi_integer (key : string) (min max : option Z) (d : Z) (v : option Z)
  : QueryError + Z :=
  match v with
  | None => inr d
  | Some n =>
      if bool_decide (max_safe_integer < Z.abs n) then inl (NumberUnsafe key)
      else
        match below min n with
        | Some lo => inl (NumberMin key lo)
        | None =>
            match above max n with
            | Some hi => inl (NumberMax key hi)
            | None => inr n
            end
        end
  end.

(** The validated query. *)
Record Validated := mkValidated {
  v_coinId : string;
  v_limit : Z;
  v_offset : Z;
  v_before : option Z
}.

(** [messagesQuerySchema.validate(req.query)]: the first error, in the order
    of the schema's keys, or the value with its defaults. *)
Definition messagesQuerySchema_validate (q : MessagesQuery) : QueryError + Validated :=
  match Rest.joi_string "coinId" None None (coinId q) with
  | inl e => inl (OfString e)
  | inr c =>
      match joi_integer "limit" (Some 1) (Some 100) 50 (limit q) with
      | inl e => inl e
      | inr l =>
          match joi_integer "offset" (Some 0) None 0 (offset q) with
          | inl e => inl e
          | inr o => inr {| v_coinId := c; v_limit := l; v_offset := o; v_before := before q |}
          end
      end
  end.

(** The rows the query of [GET /messages] asks for:
    [.eq('coin_id', coinId)], [.lt('created_at', before)] when [before] is
    given, and the inner join with [users].  There is no condition on
    [is_deleted]. *)
Definition listed (d : Database) (coinId : string) (before : option Z)
    (m : ChatMessageRow) : Prop :=
  joined_users d m ≠ [] ∧ coin_id m = coinId ∧
  match before with
  | Some t => created_at m < t
  | None => True
  end.

Global Instance listed_dec d coinId before m : Decision (listed d coinId before m).
Proof. unfold listed. destruct before; apply _. Defined.

(** The double nearest to an integer, ties to even: what a JavaScript
    number holds of it.  Integers of at most 53 bits are exact. *)
Definition to_double (x : Z) : Z :=
  let bits := Z.log2 (Z.abs x) + 1 in
  if bits <=? 53 then x
  else
    let unit := 2 ^ (bits - 53) in
    let q := Z.abs x / unit in
    let r := Z.abs x mod unit in
    let up := bool_decide (unit < 2 * r) || (bool_decide (2 * r = unit) && Z.odd q) in
    Z.sgn x * (if up then q + 1 else q) * unit.

(** [a + b] and [a - b] on numbers that hold integers. *)
Definition js_add (a b : Z) : Z := to_double (a + b).
Definition js_sub (a b : Z) : Z := to_double (a - b).

(** [offset + limit - 1], the last index asked for. *)
Definition range_to (v : Validated) : Z := js_sub (js_add (v_offset v) (v_limit v)) 1.

(** [.order('created_at', {ascending: false})
     .range(offset, offset + limit - 1)]: the rows of the ordered result from
    index [offset] to index [offset + limit - 1], both included. *)
Definition page_rows (d : Database) (v : Validated) : list ChatMessageRow :=
  take (Z.to_nat (range_to v - v_offset v + 1))
    (drop (Z.to_nat (v_offset v))
       (order_by_created_at_desc
          (filter (listed d (v_coinId v) (v_before v)) (chat_messages d)))).

Inductive MessagesResponse :=
| Page (messages : list Chat.FormattedMessage) (hasMore : bool) (nextOffset : Z)
| BadQuery (e : QueryError)
| Failure (error : string).

Definition messages_status (r : MessagesResponse) : nat :=
  match r with
  | Page _ _ _ => 200
  | BadQuery _ => 400
  | Failure _ => 500
  end.

(** [router.get('/messages', ...)] *)
Definition get_messages (d : Database) (q : MessagesQuery) (reply : Reply)
  : MessagesResponse :=
  match messagesQuerySchema_validate q with
  | inl e => BadQuery e
  | inr v =>
      match reply with
      | Threw => Failure "Internal server error"
      | Errored => Failure "Failed to fetch messages"
      | Answered =>
          let messages := omap (embed d) (page_rows d v) in
          match mapM Chat.format_message messages with
          | None => Failure "Internal server error"
          | Some formatted =>
              Page (reverse formatted)
                   (bool_decide (Z.of_nat (length messages) = v_limit v))
                   (js_add (v_offset v) (v_limit v))
          end
      end
  end.

(** The response of [DELETE /messages/:messageId]. *)
Record DeleteResponse := mkDeleteResponse { status : nat; text : string }.

(** [router.delete('/messages/:messageId', ...)]: the response and the
    database after.  [lookup], [fetch] and [del] are the replies to the
    three database calls; [d] is the database as the handler finds it,
    [authMiddleware] having run. *)
Definition delete_message (d : Database) (user_sub : option string) (messageId : string)
    (lookup fetch del : Reply) : DeleteResponse * Database :=
  match user_sub with
  | None => ({| status := 401; text := "User not authenticated" |}, d)
  | Some auth0Sub =>
      if negb (Js.truthy auth0Sub)
      then ({| status := 401; text := "User not authenticated" |}, d)
      else
        match getUserIdFromSub d lookup auth0Sub with
        | None => ({| status := 404; text := "User not found" |}, d)
        | Some userId =>
            match fetch with
            | Threw => ({| status := 500; text := "Internal server error" |}, d)
            | Errored => ({| status := 500; text := "Failed to fetch message" |}, d)
            | Answered =>
                match filter (λ m, msg_id m = messageId) (chat_messages d) with
                | [message] =>
                    if bool_decide (user_id message ≠ userId)
                    then ({| status := 403; text := "You can only delete your own messages" |}, d)
                    else
                      match del with
                      | Threw => ({| status := 500; text := "Internal server error" |}, d)
                      | Errored => ({| status := 500; text := "Failed to delete message" |}, d)
                      | Answered =>
                          ({| status := 200; text := "Message deleted successfully" |},
                           with_chat_messages d
                             (filter (λ m, msg_id m ≠ messageId) (chat_messages d)))
                      end
                | _ => ({| status := 404; text := "Message not found" |}, d)
                end
            end
        end
  end.

End ChatRoutes.

(* ===================================================================== *)
(** * Events on the wire: the server's listeners and the clients' emits *)
(* ===================================================================== *)

Module Wire.
Import Db Chat.

(** A field of a payload object. *)
Inductive Atom := AString (s : string) | ABool (b : bool).

(** The payload of an event: a bare string or an object. *)
Inductive Data := Bare (s : string) | Object (fields : gmap string Atom).

(** [const { key } = data]: the string under [key], [None] for [undefined]
    (a bare string has no such property).  The handlers declare [coinId] and
    [message] as strings and the clients put strings there; a boolean under
    such a key is not a payload of this model and reads as [undefined]. *)
Definition field (data : Data) (key : string) : option string :=
  match data with
  | Object fields =>
      match fields !! key with
      | Some (AString s) => Some s
      | _ => None
      end
  | Bare _ => None
  end.

(** The listeners of a socket of the [/chat] namespace: [join_room],
    [send_message] and [leave_room]; an event of another name has none.  The
    handlers test [coinId] and [message] for falsiness before any other use,
    so [undefined] does what [""] does. *)
Definition on_event (srv : Server) (sid event : string) (data : Data)
    (fetch lookup : Reply) (ins : InsertReply) : Server * list Emit :=
  if decide (event = "join_room")
  then join_room srv sid (default "" (field data "coinId")) fetch
  else if decide (event = "send_message")
  then send_message srv sid (default "" (field data "coinId"))
         (default "" (field data "message")) lookup ins
  else if decide (event = "leave_room")
  then leave_room srv sid (default "" (field data "coinId"))
  else (srv, []).

(** The events of one socket handled in turn, each delivered to the sockets
    that are in the rooms at that moment: the server after, and everything
    delivered, in order. *)
Fixpoint play (srv : Server) (sid : string) (events : list (string * Data))
    (fetch lookup : Reply) (ins : InsertReply) : Server * list (string * ServerEvent) :=
  match events with
  | [] => (srv, [])
  | (event, data) :: rest =>
      let handled := on_event srv sid event data fetch lookup ins in
      let later := play (fst handled) sid rest fetch lookup ins in
      (fst later, deliveries (fst handled) (snd handled) ++ snd later)
  end.

(** What one socket finds among the deliveries. *)
Definition inbox (delivered : list (string * ServerEvent)) (sid : string) : list ServerEvent :=
  snd <$> filter (λ d, d.1 = sid) delivered.

Definition coin_payload (coinId : string) : Data :=
  Object {[ "coinId" := AString coinId ]}.

(** ** [pages/Chat.tsx]

    The pages and [SocketManager] emit only when their chat socket is set;
    what follows is what they emit then. *)

(** [joinRoom(coinId)], with the page's [selectedRoom]: what it emits. *)
Definition Chat_joinRoom (selectedRoom : option string) (coinId : string)
  : list (string * Data) :=
  if decide (selectedRoom = Some coinId) then []
  else
    match selectedRoom with
    | Some room => if Js.truthy room then [("leave_room", coin_payload room)] else []
    | None => []
    end ++ [("join_room", coin_payload coinId)].

(** [sendMessage()], with the page's [selectedRoom] and [newMessage]. *)
Definition Chat_sendMessage (selectedRoom : option string) (newMessage : string)
  : list (string * Data) :=
  match selectedRoom with
  | Some room =>
      if negb (Js.truthy (Js.trim newMessage)) || negb (Js.truthy room) then []
      else [("send_message",
             Object {[ "coinId" := AString room; "message" := AString (Js.trim newMessage) ]});
            ("user_typing",
             Object {[ "coinId" := AString room; "isTyping" := ABool false ]})]
  | None => []
  end.

(** ** [pages/CoinDetails.tsx] *)

Definition CoinDetails_joinChatRoom (coinId : option string) : list (string * Data) :=
  match coinId with
  | Some c => if Js.truthy c then [("joinRoom", Bare c)] else []
  | None => []
  end.

Definition CoinDetails_sendMessage (coinId : option string) (newMessage : string)
  : list (string * Data) :=
  match coinId with
  | Some c =>
      if negb (Js.truthy (Js.trim newMessage)) || negb (Js.truthy c) then []
      else [("sendMessage",
             Object {[ "coinId" := AString c; "content" := AString (Js.trim newMessage) ]})]
  | None => []
  end.

(** ** [lib/socket.ts], class [SocketManager] *)

Definition joinCoinChat (coinId : string) : list (string * Data) :=
  [("join_coin", Bare coinId)].

Definition leaveCoinChat (coinId : string) : list (string * Data) :=
  [("leave_coin", Bare coinId)].

Definition sendMessage (coinId content : string) : list (string * Data) :=
  [("send_message", Object {[ "coinId" := AString coinId; "content" := AString content ]})].

Definition setTyping (coinId : string) (isTyping : bool) : list (string * Data) :=
  [("typing", Object {[ "coinId" := AString coinId; "isTyping" := ABool isTyping ]})].

End Wire.

(* ===================================================================== *)
(** * Price rooms of the main namespace ([api/socket/index.ts]) *)
(* ===================================================================== *)

Module Prices.

(** [`price_${coinId}`] *)
Definition price_room (coinId : string) : string := "price_" +:+ coinId.

(** The main namespace: the rooms of each connected socket. *)
Abbreviation namespace := (gmap string (gset string)).

(** [socket.on('subscribe_price_updates', coinIds => ...)]; [coinIds] is
    [None] when the payload is not an array. *)
Definition subscribe_price_updates (ns : namespace) (sid : string)
    (coinIds : option (list string)) : namespace :=
  match ns !! sid, coinIds with
  | Some rs, Some l => <[sid := foldl (λ acc coinId, {[price_room coinId]} ∪ acc) rs l]> ns
  | _, _ => ns
  end.

(** [socket.on('unsubscribe_price_updates', coinIds => ...)] *)
Definition unsubscribe_price_updates (ns : namespace) (sid : string)
    (coinIds : option (list string)) : namespace :=
  match ns !! sid, coinIds with
  | Some rs, Some l => <[sid := foldl (λ acc coinId, acc ∖ {[price_room coinId]}) rs l]> ns
  | _, _ => ns
  end.

(** [broadcastPriceUpdate(io, coinId, priceData)]: the sockets the
    [price_update] event goes to. *)
Definition broadcastPriceUpdate (ns : namespace) (coinId : string) : gset string :=
  dom (filter (λ kv, price_room coinId ∈ kv.2) ns).

End Prices.

(* ===================================================================== *)
(** * More concrete tables and servers *)
(* ===================================================================== *)

Module Fixtures.
Import Db.

Global Instance ChatMessageRow_eq_dec : EqDecision ChatMessageRow.
Proof. solve_decision. Defined.

(** Three live messages of Alice in [bitcoin] and one of Bob's, nothing
    soft-deleted. *)
Definition tidy : Database :=
  mkDb [Sample.alice; Sample.bob] ["bitcoin"; "ethereum"]
       (Sample.room_history "bitcoin" 3 ++ [mkMsg "bob-1" "bitcoin" "u-bob" "hi" 4 false]).

(** The main namespace with two sockets, [n1] already following [bitcoin]. *)
Definition main_namespace : gmap string (gset string) :=
  {[ "n1" := {[ "n1"; Prices.price_room "bitcoin" ]}; "n2" := {[ "n2" ]} ]}.

End Fixtures.

(* ===================================================================== *)
(** * Properties of the response cache *)
(* ===================================================================== *)

Section cache_properties.
Context {V : Type} (null : V).
Implicit Types (cache : gmap string (Cache.CacheEntry V)) (k : string) (v : V).

Lemma getCachedData_fresh cache now k e :
  cache !! k = Some e → now - Cache.timestamp e < Cache.ttl e →
  Cache.getCachedData null cache now k = (Cache.data e, cache).
Proof.
  intros Hk Hfresh. unfold Cache.getCachedData. rewrite Hk.
  by rewrite bool_decide_eq_true_2.
Qed.

Lemma getCachedData_stale cache now k e :
  cache !! k = Some e → Cache.ttl e <= now - Cache.timestamp e →
  Cache.getCachedData null cache now k = (null, delete k cache).
Proof.
  intros Hk Hstale. unfold Cache.getCachedData. rewrite Hk.
  rewrite bool_decide_eq_false_2; [done | lia].
Qed.

(** A value is handed out only from an entry that is still within its ttl. *)
Lemma getCachedData_served cache now k :
  (Cache.getCachedData null cache now k).2 !! k = None ∨
  ∃ e, cache !! k = Some e ∧ now - Cache.timestamp e < Cache.ttl e ∧
       Cache.getCachedData null cache now k = (Cache.data e, cache).
Proof.
  unfold Cache.getCachedData. destruct (cache !! k) as [e|] eqn:Hk.
  - case_bool_decide.
    + right. by exists e.
    + left. apply lookup_delete_eq.
  - left. apply lookup_delete_eq.
Qed.

(** C7. Cache round trip: after [setCachedData k v ttlMinutes] at time [t0],
    a [getCachedData k] at a time [t1] less than the ttl (in milliseconds)
    after [t0] returns [v] and keeps the entry; a [getCachedData k] once the
    ttl has elapsed returns [null] (absent) and leaves no entry for [k]. *)
Theorem cache_round_trip cache k v (ttlMinutes t0 t1 : Z) :
  let stored := Cache.setCachedData cache t0 k v ttlMinutes in
  (t1 - t0 < ttlMinutes * 60 * 1000 →
     Cache.getCachedData null stored t1 k = (v, stored)) ∧
  (ttlMinutes * 60 * 1000 <= t1 - t0 →
     (Cache.getCachedData null stored t1 k).1 = null ∧
     (Cache.getCachedData null stored t1 k).2 !! k = None).
Proof.
  intros stored.
  assert (Hk : stored !! k =
    Some (Cache.mkEntry v t0 (ttlMinutes * 60 * 1000))) by apply lookup_insert_eq.
  split; intros Ht.
  - by rewrite (getCachedData_fresh _ _ _ _ Hk).
  - rewrite (getCachedData_stale _ _ _ _ Hk); [|done]. simpl.
    split; [done | apply lookup_delete_eq].
Qed.

End cache_properties.

(** The round trip on the market key of the specification's scenario: one
    minute of ttl, read 59.999 s and 60 s after the write. *)
Lemma cache_round_trip_witness :
  let k := "market_bitcoin,ethereum_usd_1_10" in
  let stored := Cache.setCachedData (∅ : gmap string (Cache.CacheEntry (option string)))
                  1000 k (Some "payload") 1 in
  Cache.getCachedData None stored 60999 k = (Some "payload", stored) ∧
  (Cache.getCachedData None stored 61000 k).1 = None ∧
  (Cache.getCachedData None stored 61000 k).2 !! k = None.
Proof.
  intros k stored.
  destruct (cache_round_trip None ∅ k (Some "payload") 1 1000 60999) as [Hfresh _].
  destruct (cache_round_trip None ∅ k (Some "payload") 1 1000 61000) as [_ Hstale].
  split; [apply Hfresh; lia | apply Hstale; lia].
Defined.

(* ===================================================================== *)
(** * Properties of the queries *)
(* ===================================================================== *)

Section query_properties.
Import Db.
Implicit Types (rows window : list ChatMessageRow) (m : ChatMessageRow).

Global Instance created_desc_transitive : Transitive created_desc.
Proof. intros a b c. unfold created_desc. lia. Qed.

Global Instance created_desc_total : Total created_desc.
Proof. intros a b. unfold created_desc. lia. Qed.

Lemma order_by_perm rows : order_by_created_at_desc rows ≡ₚ rows.
Proof. apply merge_sort_Permutation. Qed.

Lemma order_by_sorted rows : StronglySorted created_desc (order_by_created_at_desc rows).
Proof. apply (StronglySorted_merge_sort created_desc). Qed.

Lemma elem_of_order_by rows m : m ∈ order_by_created_at_desc rows ↔ m ∈ rows.
Proof. by rewrite order_by_perm. Qed.

(** In a sorted list, whatever [take n] keeps comes before whatever it cuts. *)
Lemma sorted_take_drop {A} (R : relation A) (l : list A) (n : nat) (x y : A) :
  StronglySorted R l → x ∈ take n l → y ∈ drop n l → R x y.
Proof.
  intros Hs. revert n. induction Hs as [|a l Hs IH Hall]; intros n Hx Hy.
  - rewrite take_nil in Hx. by apply elem_of_nil in Hx.
  - destruct n as [|n]; simpl in *.
    + by apply elem_of_nil in Hx.
    + apply elem_of_cons in Hx as [->|Hx].
      * rewrite Forall_forall in Hall. apply Hall.
        apply (subseteq_drop n l), Hy.
      * by apply (IH n).
Qed.

Lemma elem_of_take_or_drop {A} (l : list A) (n : nat) (x : A) :
  x ∈ l → x ∈ take n l ∨ x ∈ drop n l.
Proof. intros Hx. rewrite <-(take_drop n l) in Hx. by apply elem_of_app in Hx. Qed.

Lemma sorted_take {A} (R : relation A) (l : list A) (n : nat) :
  StronglySorted R l → StronglySorted R (take n l).
Proof.
  intros Hs. revert n. induction Hs as [|a l Hs IH Hall]; intros [|n]; simpl;
    try constructor; [apply IH|].
  rewrite Forall_forall in Hall |- *. intros x Hx. apply Hall.
  by apply (subseteq_take n l).
Qed.

(** ** The window function *)

Lemma row_numbers_upto_aux window (k n : nat) :
  fst <$> filter (λ p, (p.2 ≤ n)%nat) (imap (λ i m, (msg_id m, S (k + i))) window)
  = msg_id <$> take (n - k) window.
Proof.
  revert k. induction window as [|m w IH]; intros k; [by rewrite take_nil|].
  simpl. rewrite filter_cons. simpl.
  assert (Hshift : imap ((λ i m0, (msg_id m0, S (k + i))) ∘ S) w
                   = imap (λ i m0, (msg_id m0, S (S k + i))) w).
  { apply imap_ext. intros i x _. simpl. do 2 f_equal. lia. }
  rewrite Hshift.
  destruct (decide (S (k + 0) ≤ n)%nat) as [Hle|Hgt].
  - replace (n - k)%nat with (S (n - S k)) by lia.
    rewrite fmap_cons, (IH (S k)). reflexivity.
  - rewrite (IH (S k)). replace (n - k)%nat with 0%nat by lia.
    replace (n - S k)%nat with 0%nat by lia. by rewrite !take_0.
Qed.

(** [WHERE rn <= 50] keeps the first 50 rows of a window. *)
Lemma row_numbers_upto window :
  fst <$> filter (λ p, (p.2 ≤ 50)%nat) (row_numbers window) = msg_id <$> take 50 window.
Proof. apply (row_numbers_upto_aux window 0 50). Qed.

Lemma kept_ids_unfold rows :
  kept_ids rows =
  remove_dups (coin_id <$> not_deleted rows) ≫=
    λ c, msg_id <$> take 50 (partition_of c (not_deleted rows)).
Proof.
  unfold kept_ids, ranked.
  induction (remove_dups (coin_id <$> not_deleted rows)) as [|c cs IH]; [done|].
  rewrite !bind_cons, filter_app, fmap_app, IH.
  by rewrite row_numbers_upto.
Qed.

Lemma elem_of_partition_of c rows m :
  m ∈ partition_of c rows ↔ m ∈ rows ∧ coin_id m = c.
Proof.
  unfold partition_of. rewrite elem_of_order_by, list_elem_of_filter. tauto.
Qed.

Lemma elem_of_not_deleted rows m :
  m ∈ not_deleted rows ↔ m ∈ rows ∧ is_deleted m = false.
Proof. unfold not_deleted. rewrite list_elem_of_filter. tauto. Qed.

Lemma in_top_50_inv rows m :
  in_top_50 rows m → m ∈ rows ∧ is_deleted m = false.
Proof.
  intros Hm. apply (subseteq_take 50) in Hm.
  apply elem_of_partition_of in Hm as [Hm _]. by apply elem_of_not_deleted.
Qed.

Lemma elem_of_kept_ids rows i :
  i ∈ kept_ids rows ↔ ∃ m, in_top_50 rows m ∧ msg_id m = i.
Proof.
  rewrite kept_ids_unfold, list_elem_of_bind. split.
  - intros (c & Hi & Hc).
    apply list_elem_of_fmap in Hi as (m & -> & Hm). exists m. split; [|done].
    pose proof (subseteq_take 50 _ _ Hm) as Hin.
    apply elem_of_partition_of in Hin as [_ <-]. exact Hm.
  - intros (m & Hm & <-). exists (coin_id m). split.
    + apply list_elem_of_fmap. by exists m.
    + apply elem_of_remove_dups, list_elem_of_fmap. exists m. split; [done|].
      apply elem_of_not_deleted. by apply in_top_50_inv.
Qed.

(** With [id] a primary key, the sweep keeps a row exactly when the row is
    among the first 50 of its window. *)
Lemma elem_of_cleanup rows m :
  NoDup (msg_id <$> rows) →
  m ∈ cleanup_old_messages rows ↔ m ∈ rows ∧ in_top_50 rows m.
Proof.
  intros Hpk. unfold cleanup_old_messages. rewrite list_elem_of_filter, elem_of_kept_ids.
  split.
  - intros [(m' & Htop & Hid) Hm]. split; [done|].
    destruct (in_top_50_inv _ _ Htop) as [Hm' _].
    assert (m' = m) as <-; [|done].
    apply (NoDup_fmap_1 msg_id) in Hpk as Hnd.
    apply list_elem_of_lookup in Hm as [i Hi], Hm' as [j Hj].
    assert (i = j) as ->.
    { apply (NoDup_lookup (msg_id <$> rows) i j (msg_id m)); [done| |].
      - by rewrite list_lookup_fmap, Hi.
      - by rewrite list_lookup_fmap, Hj, <-Hid. }
    congruence.
  - intros [Hm Htop]. split; [|done]. by exists m.
Qed.

End query_properties.

Section retention.
Import Db.
Implicit Types (rows : list ChatMessageRow) (m : ChatMessageRow) (d : Database).

Lemma cleanup_room_perm rows c :
  NoDup (msg_id <$> rows) →
  filter (λ m, coin_id m = c) (cleanup_old_messages rows)
  ≡ₚ take 50 (partition_of c (not_deleted rows)).
Proof.
  intros Hpk. pose proof (NoDup_fmap_1 msg_id _ Hpk) as Hnd.
  apply NoDup_Permutation.
  - by apply NoDup_filter, NoDup_filter.
  - eapply sublist_NoDup; [|apply sublist_take].
    unfold partition_of. rewrite order_by_perm. by do 2 apply NoDup_filter.
  - intros m. rewrite list_elem_of_filter, (elem_of_cleanup _ _ Hpk). split.
    + intros [<- [_ Htop]]. exact Htop.
    + intros Hm. pose proof (subseteq_take 50 _ _ Hm) as Hin.
      apply elem_of_partition_of in Hin as [Hin <-].
      apply elem_of_not_deleted in Hin as [Hin _]. done.
Qed.

Lemma filter_ext_elem {A} (P Q : A → Prop) `{!∀ x, Decision (P x), !∀ x, Decision (Q x)}
    (l : list A) :
  (∀ x, x ∈ l → P x ↔ Q x) → filter P l = filter Q l.
Proof.
  induction l as [|a l IH]; intros Hext; [done|].
  rewrite !filter_cons, IH.
  - destruct (decide (P a)) as [Hp|Hp], (decide (Q a)) as [Hq|Hq]; try done;
      exfalso; apply (Hext a) in Hp || apply (Hext a) in Hq; try done; apply list_elem_of_here.
  - intros x Hx. apply Hext. by apply list_elem_of_further.
Qed.

Lemma cleanup_live rows m :
  NoDup (msg_id <$> rows) → m ∈ cleanup_old_messages rows → is_deleted m = false.
Proof.
  intros Hpk Hm. apply (elem_of_cleanup _ _ Hpk) in Hm as [_ Htop].
  by destruct (in_top_50_inv _ _ Htop).
Qed.

Lemma filter_room_not_deleted rows c :
  filter (λ m, coin_id m = c) (not_deleted rows)
  = filter (λ m, coin_id m = c ∧ is_deleted m = false) rows.
Proof. unfold not_deleted. apply list_filter_filter. Qed.

(** C8. Retention: with [id] the primary key of [chat_messages], one run of
    [cleanup_old_messages] leaves in every room [c] exactly the first 50 of
    the room's non-deleted messages in descending creation time: as many as
    there were, up to 50; every message kept is at least as recent as every
    non-deleted message of the room that was removed; and the history query
    after the sweep returns all of them that have an author. *)
Theorem retention_keeps_newest_50 d c :
  NoDup (msg_id <$> chat_messages d) →
  let live := filter (λ m, coin_id m = c) (not_deleted (chat_messages d)) in
  let after := filter (λ m, coin_id m = c) (chat_messages (run_cleanup d)) in
  after ≡ₚ take 50 (order_by_created_at_desc live) ∧
  length after = Nat.min 50 (length live) ∧
  (∀ kept gone, kept ∈ after → gone ∈ live → gone ∉ after →
     created_at gone <= created_at kept) ∧
  recent_rows (run_cleanup d) c ≡ₚ filter (λ m, joined_users d m ≠ []) after.
Proof.
  intros Hpk live after.
  assert (Hperm : after ≡ₚ take 50 (order_by_created_at_desc live))
    by apply (cleanup_room_perm _ c Hpk).
  assert (Hlen : length after = Nat.min 50 (length live)).
  { rewrite Hperm, length_take. f_equal. by rewrite order_by_perm. }
  split; [done|]. split; [done|]. split.
  - intros kept gone Hkept Hgone Hnot.
    rewrite Hperm in Hkept, Hnot.
    assert (Hin : gone ∈ order_by_created_at_desc live) by by apply elem_of_order_by.
    destruct (elem_of_take_or_drop _ 50 _ Hin) as [?|Hdrop]; [done|].
    apply (sorted_take_drop created_desc _ 50 kept gone (order_by_sorted live) Hkept Hdrop).
  - unfold recent_rows. rewrite take_ge.
    + rewrite order_by_perm. unfold after. rewrite list_filter_filter.
      rewrite (filter_ext_elem (eligible (run_cleanup d) c)
                 (λ m, joined_users d m ≠ [] ∧ coin_id m = c)); [done|].
      intros m Hm. apply (cleanup_live _ _ Hpk) in Hm. unfold eligible. simpl. tauto.
    + rewrite order_by_perm.
      etrans; [|apply Nat.le_min_l]. rewrite <-Hlen. unfold after.
      rewrite <-(list_filter_filter_l (eligible (run_cleanup d) c) (λ m, coin_id m = c)).
      * apply length_filter.
      * by intros m (_ & ? & _).
Qed.

(** C10. With [id] the primary key, one run of [cleanup_old_messages]
    removes every row whose [is_deleted] flag is set, whatever its age and
    its room: no such row is in the table after the sweep, and every row
    that remains has the flag clear. *)
Theorem retention_purges_soft_deleted rows :
  NoDup (msg_id <$> rows) →
  (∀ m, m ∈ rows → is_deleted m = true → m ∉ cleanup_old_messages rows) ∧
  (∀ m, m ∈ cleanup_old_messages rows → is_deleted m = false).
Proof.
  intros Hpk.
  split.
  - intros m _ Hdel Hm. apply (cleanup_live _ _ Hpk) in Hm. congruence.
  - intros m. apply (cleanup_live _ _ Hpk).
Qed.

End retention.

(** The table of sixty [bitcoin] messages: fifty are left after the sweep. *)
Lemma retention_keeps_newest_50_witness :
  NoDup (Db.msg_id <$> Db.chat_messages Sample.sixty) ∧
  length (filter (λ m, Db.coin_id m = "bitcoin")
            (Db.chat_messages (Db.run_cleanup Sample.sixty))) = 50%nat.
Proof.
  assert (Hpk : NoDup (Db.msg_id <$> Db.chat_messages Sample.sixty)).
  { apply (bool_decide_unpack _). vm_compute. exact I. }
  split; [exact Hpk|].
  destruct (retention_keeps_newest_50 Sample.sixty "bitcoin" Hpk) as (_ & Hlen & _).
  rewrite Hlen. vm_compute. reflexivity.
Defined.

(** After the sweep the history query of [bitcoin] returns [bitcoin-60] down
    to [bitcoin-11]; the ten oldest and the soft-deleted rows are gone. *)
Example sixty_after_sweep :
  Db.msg_id <$> Db.recent_rows (Db.run_cleanup Sample.sixty) "bitcoin"
  = (λ k, "bitcoin-" +:+ pretty k) <$> reverse (seq 11 50) ∧
  Db.msg_id <$> Db.chat_messages (Db.run_cleanup Sample.sixty)
  = (((λ k, "bitcoin-" +:+ pretty k) <$> seq 11 50)
     ++ ["ethereum-1"; "ethereum-2"; "ethereum-3"])%list.
Proof. split; vm_compute; reflexivity. Qed.

(** Both soft-deleted rows of the sample table are removed by the sweep, the
    old one of the full room and the newest row of the short room. *)
Lemma retention_purges_soft_deleted_witness :
  NoDup (Db.msg_id <$> Db.chat_messages Sample.sixty) ∧
  Db.mkMsg "new-deleted" "ethereum" "u-bob" "oops" 100 true
    ∉ Db.cleanup_old_messages (Db.chat_messages Sample.sixty).
Proof.
  assert (Hpk : NoDup (Db.msg_id <$> Db.chat_messages Sample.sixty)).
  { apply (bool_decide_unpack _). vm_compute. exact I. }
  split; [exact Hpk|].
  destruct (retention_purges_soft_deleted _ Hpk) as [Hgone _].
  apply Hgone; [|reflexivity].
  apply list_elem_of_In. vm_compute. tauto.
Defined.

(* ===================================================================== *)
(** * Properties of the chat handlers *)
(* ===================================================================== *)

Section adapter.
Import Db Chat.
Implicit Types (srv : Server) (sid room : string) (sk : Socket) (ev : ServerEvent).

Lemma elem_of_members srv room sid :
  sid ∈ members srv room ↔ ∃ sk, sockets srv !! sid = Some sk ∧ room ∈ rooms sk.
Proof.
  unfold members. rewrite elem_of_dom. unfold is_Some. split.
  - intros [sk Hsk]. apply map_lookup_filter_Some in Hsk as [Hsk Hin]. by exists sk.
  - intros (sk & Hsk & Hin). exists sk. by apply map_lookup_filter_Some.
Qed.

(** The database plays no part in who is in a room. *)
Lemma members_with_db srv d room : members (with_db srv d) room = members srv room.
Proof. reflexivity. Qed.

Lemma leave_previous_fold sid (l : list string) (acc : gset string) x :
  x ∈ foldr (λ room a, if decide (room ≠ sid) then a ∖ {[room]} else a) acc l
  ↔ x ∈ acc ∧ (x ∈ l → x = sid).
Proof.
  induction l as [|y l IH]; simpl.
  - split; [intros ?; split; [done|by intros ?%elem_of_nil] | by intros [? _]].
  - destruct (decide (y ≠ sid)) as [Hne|Heq].
    + rewrite elem_of_difference, IH, elem_of_singleton, elem_of_cons. split.
      * intros [[Hx Hl] Hxy]. split; [done|]. intros [?|?]; [done|auto].
      * intros [Hx Hl]. split; [split; [done|auto]|]. intros ->. apply Hne, Hl. by left.
    + apply dec_stable in Heq as ->. rewrite IH, elem_of_cons. split.
      * intros [Hx Hl]. split; [done|]. intros [?|?]; [done|auto].
      * intros [Hx Hl]. split; [done|auto].
Qed.

(** Leaving every room but the socket's own leaves at most that one. *)
Lemma elem_of_leave_previous sid (rs : gset string) x :
  x ∈ leave_previous sid rs ↔ x ∈ rs ∧ x = sid.
Proof.
  unfold leave_previous. rewrite leave_previous_fold, elem_of_elements.
  split; [intros [Hx Hsid]; auto | intros [Hx ->]; auto].
Qed.

Lemma leave_previous_eq sid (rs : gset string) : leave_previous sid rs = rs ∩ {[sid]}.
Proof. apply set_eq. intros x. rewrite elem_of_leave_previous. set_solver. Qed.

(** Among the deliveries of one event to a duplicate-free list of sockets,
    a socket finds the event once if it is listed and not at all otherwise. *)
Lemma filter_fanout (l : list string) ev sid :
  NoDup l →
  filter (λ d : string * ServerEvent, d.1 = sid) ((λ m, (m, ev)) <$> l)
  = if decide (sid ∈ l) then [(sid, ev)] else [].
Proof.
  induction 1 as [|y l Hy Hnd IH]; [done|].
  rewrite fmap_cons, filter_cons, IH. simpl.
  destruct (decide (y = sid)) as [->|Hne].
  - rewrite decide_False by done. rewrite decide_True by apply list_elem_of_here. done.
  - destruct (decide (sid ∈ l)) as [Hin|Hin].
    + rewrite decide_True by by apply list_elem_of_further. done.
    + rewrite decide_False; [done|]. intros [?|?]%elem_of_cons; congruence.
Qed.

Lemma received_nil srv sid : received srv [] sid = [].
Proof. reflexivity. Qed.

Lemma received_cons srv e es sid :
  received srv (e :: es) sid = received srv [e] sid ++ received srv es sid.
Proof.
  unfold received, deliveries. rewrite !bind_cons. simpl.
  by rewrite app_nil_r, filter_app, fmap_app.
Qed.

Lemma received_to_socket srv sid' ev sid :
  received srv [ToSocket sid' ev] sid = if decide (sid' = sid) then [ev] else [].
Proof.
  unfold received, deliveries. simpl. rewrite filter_cons. simpl.
  by destruct (decide (sid' = sid)).
Qed.

Lemma received_to_room srv room ev sid :
  received srv [ToRoom room ev] sid
  = if decide (sid ∈ members srv room) then [ev] else [].
Proof.
  unfold received, deliveries. rewrite bind_singleton. simpl.
  rewrite filter_fanout by apply NoDup_elements.
  destruct (decide (sid ∈ elements (members srv room))) as [Hin|Hin];
    rewrite elem_of_elements in Hin.
  - by rewrite decide_True.
  - by rewrite decide_False.
Qed.

Lemma received_to_room_except srv room sender ev sid :
  received srv [ToRoomExcept room sender ev] sid
  = if decide (sid ∈ members srv room ∧ sid ≠ sender) then [ev] else [].
Proof.
  unfold received, deliveries. rewrite bind_singleton. simpl.
  rewrite filter_fanout by apply NoDup_elements.
  destruct (decide (sid ∈ elements (members srv room ∖ {[sender]}))) as [Hin|Hin];
    rewrite elem_of_elements, elem_of_difference, elem_of_singleton in Hin.
  - by rewrite decide_True.
  - by rewrite decide_False.
Qed.

End adapter.

Section send_message_properties.
Import Db Chat.
Implicit Types (srv : Server) (sid coinId message : string) (sk : Socket).

Lemma truthy_true (s : string) : s ≠ "" → Js.truthy s = true.
Proof. intros Hs. unfold Js.truthy. by apply negb_true_iff, String.eqb_neq. Qed.

Lemma truthy_false (s : string) : Js.truthy s = false → s = "".
Proof. unfold Js.truthy. intros Hs. by apply negb_false_iff, String.eqb_eq in Hs. Qed.

(** The identifier [getUserIdFromSub] returns is that of a row of [users]. *)
Lemma getUserIdFromSub_Some d lookup auth0Sub userId :
  getUserIdFromSub d lookup auth0Sub = Some userId →
  ∃ u, u ∈ users d ∧ usr_id u = userId ∧ auth0_sub u = auth0Sub.
Proof.
  unfold getUserIdFromSub. destruct lookup; [|done..].
  destruct (filter _ (users d)) as [|u [|]] eqn:Hf; [done| |done].
  intros [= <-]. exists u.
  assert (Hu : u ∈ filter (λ u, auth0_sub u = auth0Sub) (users d))
    by (rewrite Hf; apply list_elem_of_here).
  apply list_elem_of_filter in Hu as [? ?]. done.
Qed.

(** The inner join of a row written for a known user finds that user. *)
Lemma joined_users_known d lookup auth0Sub userId new_id coinId body now :
  getUserIdFromSub d lookup auth0Sub = Some userId →
  joined_users (insert_message d (new_row new_id coinId userId body now))
               (new_row new_id coinId userId body now) ≠ [].
Proof.
  intros (u & Hu & Hid & _)%getUserIdFromSub_Some Hnil.
  assert (Hin : u ∈ joined_users (insert_message d (new_row new_id coinId userId body now))
                     (new_row new_id coinId userId body now)).
  { unfold joined_users. apply list_elem_of_filter. by split. }
  rewrite Hnil in Hin. by apply elem_of_nil in Hin.
Qed.

(** A selected row arrives with its user as an object. *)
Lemma embed_Some d m sel :
  embed d m = Some sel → ∃ u, u ∈ joined_users d m ∧ sel = (m, EmbeddedObject u).
Proof.
  unfold embed. destruct (joined_users d m) as [|u us]; [done|].
  intros [= <-]. exists u. split; [apply list_elem_of_here|done].
Qed.

Lemma embed_joined d m :
  joined_users d m ≠ [] → ∃ u, embed d m = Some (m, EmbeddedObject u).
Proof. unfold embed. destruct (joined_users d m) as [|u us]; [done|]. eauto. Qed.

(** A selected row cannot be formatted: [users[0]] of the object it holds
    is [undefined]. *)
Lemma embed_format d m sel : embed d m = Some sel → format_message sel = None.
Proof. by intros (u & _ & ->)%embed_Some. Qed.

(** Past the checks and the user lookup, the insert decides whether the row
    is written; the sender is told [Failed to send message] in either case. *)
Lemma send_message_validated srv sid sk coinId message lookup ins userId :
  sockets srv !! sid = Some sk →
  coinId ≠ "" → Js.trim message ≠ "" → (String.length message ≤ 500)%nat →
  getUserIdFromSub (db srv) lookup (sub (user sk)) = Some userId →
  send_message srv sid coinId message lookup ins =
  (match ins with
   | Inserted new_id now =>
       with_db srv (insert_message (db srv)
                      (new_row new_id coinId userId (Js.trim message) now))
   | _ => srv
   end, [ToSocket sid (EvError "Failed to send message")]).
Proof.
  intros Hsk Hcoin Hbody Hlen Huser. unfold send_message.
  rewrite Hsk, (truthy_true _ Hcoin), (truthy_true _ Hbody). simpl.
  assert ((500 <? String.length message)%nat = false) as -> by by apply Nat.ltb_ge.
  rewrite Huser. destruct ins as [new_id now| |]; [|done..]. cbv zeta.
  destruct (embed _ _) as [newMessage|] eqn:Hembed; [|done].
  by rewrite (embed_format _ _ _ Hembed).
Qed.

(** No [message] event is ever emitted: every emit of [send_message] is an
    [error] event to the sender. *)
Lemma send_message_emits srv sid coinId message lookup ins e :
  e ∈ (send_message srv sid coinId message lookup ins).2 →
  ∃ msg, e = ToSocket sid (EvError msg).
Proof.
  unfold send_message. intros He.
  destruct (sockets srv !! sid) as [sk|]; [|by apply elem_of_nil in He].
  destruct (negb _ || negb _); [apply list_elem_of_singleton in He; eauto|].
  destruct (500 <? _)%nat; [apply list_elem_of_singleton in He; eauto|].
  destruct (getUserIdFromSub _ _ _) as [userId|];
    [|apply list_elem_of_singleton in He; eauto].
  destruct ins as [new_id now| |]; [|apply list_elem_of_singleton in He; eauto..].
  cbv zeta in He.
  destruct (embed _ _) as [newMessage|] eqn:Hembed;
    [|apply list_elem_of_singleton in He; eauto].
  rewrite (embed_format _ _ _ Hembed) in He. apply list_elem_of_singleton in He. eauto.
Qed.

(** C1, where the code departs from it.  A [send_message] whose room id and
    body pass the checks, whose sender is a known user and whose insert
    succeeds, stores the row, and the insert's select returns it with its
    user as an object; the handler reads [newMessage.users[0].id], which
    throws, so that the one event emitted is the [error] event
    [Failed to send message] to the sender: no socket receives a [message]
    event, the sockets of the room other than the sender receive nothing, and
    the sender is told that the message that was stored has failed. *)
Theorem send_message_stored_not_broadcast srv sid sk coinId message lookup new_id now userId :
  sockets srv !! sid = Some sk →
  coinId ≠ "" → Js.trim message ≠ "" → (String.length message ≤ 500)%nat →
  getUserIdFromSub (db srv) lookup (sub (user sk)) = Some userId →
  let row := new_row new_id coinId userId (Js.trim message) now in
  let srv' := with_db srv (insert_message (db srv) row) in
  let emits := [ToSocket sid (EvError "Failed to send message")] in
  send_message srv sid coinId message lookup (Inserted new_id now) = (srv', emits) ∧
  chat_messages (db srv') = chat_messages (db srv) ++ [row] ∧
  (∃ u, embed (db srv') row = Some (row, EmbeddedObject u) ∧
        format_message (row, EmbeddedObject u) = None) ∧
  (∀ m, Forall (λ ev, is_message ev = false) (received srv' emits m)) ∧
  (∀ m, m ≠ sid → received srv' emits m = []) ∧
  received srv' emits sid = [EvError "Failed to send message"].
Proof.
  intros Hsk Hcoin Hbody Hlen Huser row srv' emits.
  pose proof (joined_users_known _ _ _ _ new_id coinId (Js.trim message) now Huser) as Hjoin.
  fold row in Hjoin.
  rewrite (send_message_validated _ _ _ _ _ _ _ _ Hsk Hcoin Hbody Hlen Huser).
  split; [done|]. split; [done|]. split.
  { destruct (embed_joined _ _ Hjoin) as [u Hu]. by exists u. }
  assert (Hrecv : ∀ m, received srv' emits m
                       = if decide (sid = m) then [EvError "Failed to send message"] else []).
  { intros m. apply received_to_socket. }
  split; [|split].
  - intros m. rewrite Hrecv. case_decide; repeat constructor.
  - intros m Hm. by rewrite Hrecv, decide_False.
  - by rewrite Hrecv, decide_True.
Qed.

(** C3. When the insert of a [send_message] fails (the database answers with
    an error, or the call throws), the table is unchanged, everything the
    handler emits is an [error] event to the sender alone, so no socket
    receives a [message] event and no socket but the sender receives
    anything; when the checks and the user lookup had passed, the sender
    receives the storage error [Failed to send message]. *)
Theorem failed_persist_no_broadcast srv sid coinId message lookup ins :
  ins = InsertErrored ∨ ins = InsertThrew →
  let result := send_message srv sid coinId message lookup ins in
  (fst result) = srv ∧
  (∀ e, e ∈ (snd result) → ∃ msg, e = ToSocket sid (EvError msg)) ∧
  (∀ m, Forall (λ ev, is_message ev = false) (received (fst result) (snd result) m)) ∧
  (∀ m, m ≠ sid → received (fst result) (snd result) m = []) ∧
  (∀ sk userId,
     sockets srv !! sid = Some sk →
     coinId ≠ "" → Js.trim message ≠ "" → (String.length message ≤ 500)%nat →
     getUserIdFromSub (db srv) lookup (sub (user sk)) = Some userId →
     (snd result) = [ToSocket sid (EvError "Failed to send message")] ∧
     received (fst result) (snd result) sid = [EvError "Failed to send message"]).
Proof.
  intros Hins result.
  assert (Hshape : (fst result) = srv ∧
            ((snd result) = [] ∨ ∃ msg, (snd result) = [ToSocket sid (EvError msg)])).
  { unfold result, send_message.
    destruct Hins as [-> | ->]; repeat case_match; simpl; eauto. }
  destruct Hshape as [Hsrv Hemits].
  assert (Hrecv : ∀ m, received (fst result) (snd result) m = [] ∨
                       (m = sid ∧ ∃ msg, received (fst result) (snd result) m = [EvError msg])).
  { intros m. destruct Hemits as [-> | [msg ->]]; [by left|].
    rewrite received_to_socket. destruct (decide (sid = m)) as [->|]; eauto. }
  split; [done|]. split; [|split; [|split]].
  - intros e He. destruct Hemits as [Hnil | [msg Hone]].
    + rewrite Hnil in He. by apply elem_of_nil in He.
    + rewrite Hone in He. apply list_elem_of_singleton in He as ->. eauto.
  - intros m. destruct (Hrecv m) as [-> | [_ [msg ->]]]; repeat constructor.
  - intros m Hm. by destruct (Hrecv m) as [-> | [? _]].
  - intros sk userId Hsk Hcoin Hbody Hlen Huser.
    assert (Hres : result = (srv, [ToSocket sid (EvError "Failed to send message")])).
    { unfold result.
      rewrite (send_message_validated _ _ _ _ _ _ _ _ Hsk Hcoin Hbody Hlen Huser).
      by destruct Hins as [-> | ->]. }
    rewrite Hres. simpl. split; [done|].
    by rewrite received_to_socket, decide_True.
Qed.

End send_message_properties.

(** Alice, in [bitcoin] with Bob, sends [" hello "], and the insert gives
    the row the identifier [m-new]: the row is in the table, Bob receives
    nothing and Alice an error. *)
Lemma send_message_stored_not_broadcast_witness :
  let result := Chat.send_message Sample.two_in_bitcoin "s1" "bitcoin" " hello " Db.Answered
                  (Db.Inserted "m-new" 1000) in
  Db.chat_messages (Chat.db (fst result))
    = Db.chat_messages (Chat.db Sample.two_in_bitcoin)
      ++ [Db.new_row "m-new" "bitcoin" "u-alice" "hello" 1000] ∧
  Chat.received (fst result) (snd result) "s2" = [] ∧
  Chat.received (fst result) (snd result) "s1" = [Chat.EvError "Failed to send message"].
Proof.
  intros result.
  destruct (send_message_stored_not_broadcast Sample.two_in_bitcoin "s1"
              (Chat.mkSocket Sample.alice_socket {["s1"; "bitcoin"]}) "bitcoin" " hello "
              Db.Answered "m-new" 1000 "u-alice")
    as (Hsend & Hrows & _ & _ & Hothers & Hself).
  - vm_compute. reflexivity.
  - discriminate.
  - vm_compute. discriminate.
  - vm_compute. lia.
  - vm_compute. reflexivity.
  - unfold result. rewrite Hsend. cbn [fst snd]. split; [exact Hrows|].
    split; [apply Hothers; discriminate|exact Hself].
Defined.

(** Alice's insert fails: she alone is told, Bob receives nothing. *)
Lemma failed_persist_no_broadcast_witness :
  (Chat.send_message Sample.two_in_bitcoin "s1" "bitcoin" "hello" Db.Answered
     Db.InsertErrored).2
    = [Chat.ToSocket "s1" (Chat.EvError "Failed to send message")] ∧
  Chat.received
    (Chat.send_message Sample.two_in_bitcoin "s1" "bitcoin" "hello" Db.Answered
       Db.InsertErrored).1
    (Chat.send_message Sample.two_in_bitcoin "s1" "bitcoin" "hello" Db.Answered
       Db.InsertErrored).2 "s2" = [].
Proof.
  destruct (failed_persist_no_broadcast Sample.two_in_bitcoin "s1" "bitcoin" "hello"
              Db.Answered Db.InsertErrored (or_introl eq_refl))
    as (_ & _ & _ & Hothers & Hsender).
  split.
  - apply (Hsender (Chat.mkSocket Sample.alice_socket {["s1"; "bitcoin"]}) "u-alice").
    + vm_compute. reflexivity.
    + discriminate.
    + vm_compute. discriminate.
    + vm_compute. lia.
    + vm_compute. reflexivity.
  - apply Hothers. discriminate.
Defined.

Section join_room_properties.
Import Db Chat.
Implicit Types (srv : Server) (sid coinId : string) (sk : Socket).

(** The server after [join_room]: the switch is made before the history is
    fetched, whatever the fetch then gives. *)
Lemma join_room_server srv sid coinId fetch :
  (join_room srv sid coinId fetch).1 =
  match sockets srv !! sid with
  | None => srv
  | Some sk =>
      if Js.truthy coinId
      then with_sockets srv
             (<[sid := with_rooms sk ({[coinId]} ∪ (rooms sk ∩ {[sid]}))]> (sockets srv))
      else srv
  end.
Proof.
  unfold join_room. destruct (sockets srv !! sid) as [sk|]; [|done].
  destruct (Js.truthy coinId); simpl; [|done].
  rewrite leave_previous_eq. destruct fetch; try done. by case_match.
Qed.

(** Rows that the inner join gives an author all arrive, each with its user
    as an object. *)
Lemma omap_embed d (l : list ChatMessageRow) :
  Forall (λ m, joined_users d m ≠ []) l →
  fst <$> omap (embed d) l = l ∧
  Forall (λ sel, format_message sel = None) (omap (embed d) l).
Proof.
  induction 1 as [|m l Hm _ [IHrows IHfmt]]; [done|].
  destruct (embed_joined d m Hm) as [u Hu].
  change (omap (embed d) (m :: l))
    with (match embed d m with
          | Some sel => sel :: omap (embed d) l
          | None => omap (embed d) l
          end).
  rewrite Hu. split; [by rewrite fmap_cons, IHrows|]. by constructor.
Qed.

(** Formatting stops at the first message it cannot format. *)
Lemma mapM_format_None (sels : list Selected) :
  Forall (λ sel, format_message sel = None) sels → sels ≠ [] →
  mapM format_message sels = None.
Proof.
  intros Hall Hne. destruct (mapM format_message sels) as [msgs|] eqn:Hfmt; [|done].
  apply mapM_Some in Hfmt. destruct Hfmt as [|sel fm ? ? Hsel _]; [done|].
  apply Forall_cons in Hall as [Hnone _]. congruence.
Qed.

Lemma elem_of_recent_rows d coinId m :
  m ∈ recent_rows d coinId → m ∈ chat_messages d ∧ eligible d coinId m.
Proof.
  unfold recent_rows. intros Hm%(subseteq_take 50).
  rewrite elem_of_order_by, list_elem_of_filter in Hm. tauto.
Qed.

(** What the history query returns. *)
Lemma select_recent_rows d coinId :
  fst <$> select_recent_messages d coinId = recent_rows d coinId ∧
  Forall (λ sel, format_message sel = None) (select_recent_messages d coinId).
Proof.
  apply omap_embed, Forall_forall. intros m Hm.
  by apply elem_of_recent_rows in Hm as [_ [? _]].
Qed.

(** With the history query answered, the handler sends the snapshot and
    announces the socket when the query returned no row, and lands in its
    [catch] when it returned one. *)
Lemma join_room_answered srv sid sk coinId :
  sockets srv !! sid = Some sk → coinId ≠ "" →
  snd (join_room srv sid coinId Answered)
  = if decide (recent_rows (db srv) coinId = [])
    then [ToSocket sid (EvRoomJoined coinId []);
          ToRoomExcept coinId sid (EvUserJoined (username (user sk)))]
    else [ToSocket sid (EvError "Failed to join room")].
Proof.
  intros Hsk Hcoin. unfold join_room. rewrite Hsk, (truthy_true _ Hcoin). simpl.
  destruct (select_recent_rows (db srv) coinId) as [Hrows Hnone].
  destruct (decide (recent_rows (db srv) coinId = [])) as [Hnil|Hsome].
  - rewrite Hnil in Hrows. apply fmap_nil_inv in Hrows. by rewrite Hrows.
  - rewrite mapM_format_None; [done| |].
    + apply Forall_reverse. exact Hnone.
    + intros Hnil. apply Hsome. rewrite <-Hrows.
      apply (f_equal reverse) in Hnil. rewrite reverse_involutive in Hnil.
      by rewrite Hnil.
Qed.

(** What the two emits of an answered [join_room] deliver: the snapshot to
    the socket alone, the announcement to the others in the room. *)
Lemma received_join_room srv sid coinId msgs who other :
  received srv [ToSocket sid (EvRoomJoined coinId msgs);
                ToRoomExcept coinId sid (EvUserJoined who)] other
  = if decide (other = sid) then [EvRoomJoined coinId msgs]
    else if decide (other ∈ members srv coinId) then [EvUserJoined who] else [].
Proof.
  rewrite received_cons, received_to_socket, received_to_room_except.
  destruct (decide (other = sid)) as [->|Hne].
  - rewrite decide_True by done. rewrite decide_False by tauto. done.
  - rewrite decide_False by done. simpl.
    destruct (decide (other ∈ members srv coinId)).
    + by rewrite decide_True.
    + rewrite decide_False; [done|tauto].
Qed.

(** C2, where the code departs from it.  The history query of [join_room]
    returns the 50 newest live messages of the room that have an author (all
    of them when there are fewer), newest first: as many as that, in
    descending creation time, each a row of the room whose [is_deleted] flag
    is clear, and each at least as recent as any such row that is left out.
    But they are delivered only when there are none: with no row the socket,
    and nobody else, receives [room_joined] with an empty snapshot; with one
    row or more the handler throws at [msg.users[0].id] and the socket
    receives [Failed to join room], nobody a snapshot. *)
Theorem join_room_history srv sid sk coinId :
  sockets srv !! sid = Some sk → coinId ≠ "" →
  let result := join_room srv sid coinId Answered in
  let candidates := filter (eligible (db srv) coinId) (chat_messages (db srv)) in
  let rows := recent_rows (db srv) coinId in
  fst <$> select_recent_messages (db srv) coinId = rows ∧
  length rows = Nat.min 50 (length candidates) ∧
  StronglySorted created_desc rows ∧
  Forall (λ m, m ∈ chat_messages (db srv) ∧ coin_id m = coinId ∧ is_deleted m = false) rows ∧
  (∀ m older, m ∈ rows → older ∈ candidates → older ∉ rows →
     created_at older <= created_at m) ∧
  (rows = [] →
     snd result = [ToSocket sid (EvRoomJoined coinId []);
                   ToRoomExcept coinId sid (EvUserJoined (username (user sk)))] ∧
     received (fst result) (snd result) sid = [EvRoomJoined coinId []] ∧
     ∀ other, other ≠ sid →
       Forall (λ ev, is_room_joined ev = false) (received (fst result) (snd result) other)) ∧
  (rows ≠ [] →
     snd result = [ToSocket sid (EvError "Failed to join room")] ∧
     received (fst result) (snd result) sid = [EvError "Failed to join room"] ∧
     ∀ other, Forall (λ ev, is_room_joined ev = false)
                (received (fst result) (snd result) other)).
Proof.
  intros Hsk Hcoin result candidates rows.
  pose proof (join_room_answered srv sid sk coinId Hsk Hcoin) as Hres.
  fold result in Hres. fold rows in Hres.
  pose proof (order_by_sorted candidates) as Hsorted.
  split; [apply select_recent_rows|].
  split; [|split; [|split; [|split; [|split]]]].
  - unfold rows, recent_rows. fold candidates. by rewrite length_take, order_by_perm.
  - by apply sorted_take.
  - apply Forall_forall. intros m Hm.
    apply elem_of_recent_rows in Hm as [? (_ & ? & ?)]. done.
  - intros m older Hm Hin Hnot. unfold rows, recent_rows in Hm, Hnot.
    assert (Hsel : older ∈ order_by_created_at_desc candidates)
      by by rewrite elem_of_order_by.
    destruct (elem_of_take_or_drop _ 50 _ Hsel) as [?|Hdrop]; [done|].
    apply (sorted_take_drop created_desc _ 50 m older Hsorted Hm Hdrop).
  - intros Hnil. rewrite decide_True in Hres by done. rewrite Hres.
    split; [done|]. split.
    + by rewrite received_join_room, decide_True.
    + intros other Hother. rewrite received_join_room, decide_False by done.
      case_decide; repeat constructor.
  - intros Hsome. rewrite decide_False in Hres by done. rewrite Hres.
    split; [done|]. split.
    + by rewrite received_to_socket, decide_True.
    + intros other. rewrite received_to_socket. case_decide; repeat constructor.
Qed.

Lemma members_after_insert srv sid sk' room other :
  other ∈ members (with_sockets srv (<[sid := sk']> (sockets srv))) room ↔
  (other = sid ∧ room ∈ rooms sk') ∨ (other ≠ sid ∧ other ∈ members srv room).
Proof.
  rewrite !elem_of_members. simpl. destruct (decide (other = sid)) as [->|Hne].
  - rewrite lookup_insert_eq. split.
    + intros (sk & [= <-] & Hin). by left.
    + intros [[_ Hin] | [? _]]; [|done]. by exists sk'.
  - rewrite lookup_insert_ne by done. split.
    + intros Hm. by right.
    + intros [[? _] | [_ Hm]]; done.
Qed.

(** C4, as the code has it.  A socket in room [a] (not its own socket.io
    room) that asks to join a non-empty room [b] other than [a] is taken out
    of [a] and put in [b], the other sockets staying where they are, and no
    [user_left] event is emitted or received.  What is sent goes where the
    claim says: the socket itself receives [room_joined] or [error] events
    only, another socket receives nothing unless it is in [b], and then at
    most the one [user_joined] of the socket; when the history query fails
    the socket receives an [error] event and nothing else is sent. *)
Theorem join_room_switch srv sid sk a b fetch :
  sockets srv !! sid = Some sk → a ∈ rooms sk → a ≠ sid → b ≠ a → b ≠ "" →
  let result := join_room srv sid b fetch in
  (sid ∉ members (fst result) a) ∧ (sid ∈ members (fst result) b) ∧
  (∀ other room, other ≠ sid →
     other ∈ members (fst result) room ↔ other ∈ members srv room) ∧
  (∀ e, e ∈ (snd result) → is_user_left (event_of e) = false) ∧
  (∀ ev, ev ∈ received (fst result) (snd result) sid →
     is_room_joined ev = true ∨ is_error ev = true) ∧
  (∀ other, other ≠ sid →
     received (fst result) (snd result) other = [] ∨
     (other ∈ members srv b ∧
      received (fst result) (snd result) other = [EvUserJoined (username (user sk))])) ∧
  (fetch ≠ Answered → ∃ msg, (snd result) = [ToSocket sid (EvError msg)]).
Proof.
  intros Hsk Ha Hown Hab Hb result.
  assert (Hsrv : (fst result) = with_sockets srv
            (<[sid := with_rooms sk ({[b]} ∪ (rooms sk ∩ {[sid]}))]> (sockets srv))).
  { unfold result. by rewrite join_room_server, Hsk, (truthy_true _ Hb). }
  assert (Hothers : ∀ other room, other ≠ sid →
            other ∈ members (fst result) room ↔ other ∈ members srv room).
  { intros other room Hne. rewrite Hsrv, members_after_insert.
    split; [intros [[? _]|[_ ?]]; done | intros ?; by right]. }
  assert (Hemits : snd result
                   = [ToSocket sid (EvRoomJoined b []);
                      ToRoomExcept b sid (EvUserJoined (username (user sk)))] ∨
                   ∃ msg, snd result = [ToSocket sid (EvError msg)]).
  { destruct fetch.
    - unfold result. rewrite (join_room_answered srv sid sk b Hsk Hb).
      case_decide; eauto.
    - right. unfold result, join_room. rewrite Hsk, (truthy_true _ Hb). simpl. eauto.
    - right. unfold result, join_room. rewrite Hsk, (truthy_true _ Hb). simpl. eauto. }
  split; [|split; [|split; [done|split; [|split; [|split]]]]].
  - rewrite Hsrv, members_after_insert. simpl. intros [[_ Hin]|[? _]]; [|done].
    rewrite elem_of_union, elem_of_intersection, !elem_of_singleton in Hin.
    destruct Hin as [?|[_ ?]]; congruence.
  - rewrite Hsrv, members_after_insert. simpl. left. split; [done|].
    apply elem_of_union_l. by apply elem_of_singleton.
  - intros e He. destruct Hemits as [Hres|[msg Hres]]; rewrite Hres in He;
      repeat (apply elem_of_cons in He as [->|He]; [done|]); by apply elem_of_nil in He.
  - intros ev. destruct Hemits as [Hres|[msg Hres]]; rewrite Hres.
    + rewrite received_join_room, decide_True by done.
      intros ->%list_elem_of_singleton. by left.
    + rewrite received_to_socket, decide_True by done.
      intros ->%list_elem_of_singleton. by right.
  - intros other Hne. destruct Hemits as [Hres|[msg Hres]]; rewrite Hres.
    + rewrite received_join_room, decide_False by done.
      destruct (decide (other ∈ members (fst result) b)) as [Hin|Hin]; [|by left].
      right. split; [by apply Hothers|done].
    + left. by rewrite received_to_socket, decide_False.
  - intros Hfetch. unfold result, join_room. rewrite Hsk, (truthy_true _ Hb). simpl.
    destruct fetch; [done|eauto..].
Qed.

End join_room_properties.

(** Alice joins [bitcoin], the room of sixty messages: the query returns
    fifty rows and she receives [Failed to join room]. *)
Lemma join_room_history_witness :
  length (Db.recent_rows Sample.sixty "bitcoin") = 50%nat ∧
  Chat.received
    (fst (Chat.join_room Sample.two_in_bitcoin "s1" "bitcoin" Db.Answered))
    (snd (Chat.join_room Sample.two_in_bitcoin "s1" "bitcoin" Db.Answered)) "s1"
    = [Chat.EvError "Failed to join room"].
Proof.
  destruct (join_room_history Sample.two_in_bitcoin "s1"
              (Chat.mkSocket Sample.alice_socket {["s1"; "bitcoin"]}) "bitcoin")
    as (_ & _ & _ & _ & _ & _ & Hthrown).
  - vm_compute. reflexivity.
  - discriminate.
  - split; [vm_compute; reflexivity|].
    apply Hthrown. vm_compute. discriminate.
Defined.

(** The rows of that query, computed: [bitcoin-60] down to [bitcoin-11],
    without the soft-deleted row; and what the handler emits. *)
Example sixty_snapshot :
  Db.msg_id <$> reverse (Db.recent_rows Sample.sixty "bitcoin")
    = (λ k, "bitcoin-" +:+ pretty k) <$> seq 11 50 ∧
  snd (Chat.join_room Sample.two_in_bitcoin "s1" "bitcoin" Db.Answered)
    = [Chat.ToSocket "s1" (Chat.EvError "Failed to join room")].
Proof. vm_compute. split; reflexivity. Qed.

(** Alice moves from [bitcoin] to [ethereum]; Bob stays in [bitcoin]. *)
Lemma join_room_switch_witness :
  ("s1" ∉ Chat.members
            (fst (Chat.join_room Sample.two_in_bitcoin "s1" "ethereum" Db.Answered)) "bitcoin") ∧
  "s1" ∈ Chat.members
           (fst (Chat.join_room Sample.two_in_bitcoin "s1" "ethereum" Db.Answered)) "ethereum".
Proof.
  destruct (join_room_switch Sample.two_in_bitcoin "s1"
              (Chat.mkSocket Sample.alice_socket {["s1"; "bitcoin"]})
              "bitcoin" "ethereum" Db.Answered)
    as (Hout & Hin & _).
  - vm_compute. reflexivity.
  - apply (bool_decide_unpack _). vm_compute. exact I.
  - discriminate.
  - discriminate.
  - discriminate.
  - split; [exact Hout | exact Hin].
Defined.

(** C4 as stated fails: when Alice switches from [bitcoin] to [ethereum],
    Bob, who remains in [bitcoin], receives nothing, and no [user_left] event
    is among the emits.  When the history query fails she is moved all the
    same and receives an [error] event instead of the snapshot; and an empty
    room id moves nobody. *)
Lemma switch_without_user_left :
  "s1" ∈ Chat.members Sample.two_in_bitcoin "bitcoin" ∧
  "s2" ∈ Chat.members
           (fst (Chat.join_room Sample.two_in_bitcoin "s1" "ethereum" Db.Answered)) "bitcoin" ∧
  Chat.received
    (fst (Chat.join_room Sample.two_in_bitcoin "s1" "ethereum" Db.Answered))
    (snd (Chat.join_room Sample.two_in_bitcoin "s1" "ethereum" Db.Answered)) "s2" = [] ∧
  Forall (λ e, Chat.is_user_left (Chat.event_of e) = false)
    (snd (Chat.join_room Sample.two_in_bitcoin "s1" "ethereum" Db.Answered)) ∧
  snd (Chat.join_room Sample.two_in_bitcoin "s1" "ethereum" Db.Errored)
    = [Chat.ToSocket "s1" (Chat.EvError "Failed to load messages")] ∧
  "s1" ∈ Chat.members
           (fst (Chat.join_room Sample.two_in_bitcoin "s1" "ethereum" Db.Errored)) "ethereum" ∧
  Chat.join_room Sample.two_in_bitcoin "s1" "" Db.Answered
    = (Sample.two_in_bitcoin, [Chat.ToSocket "s1" (Chat.EvError "Coin ID is required")]).
Proof.
  split; [|split; [|split; [|split; [|split; [|split]]]]].
  - apply (bool_decide_unpack _). vm_compute. exact I.
  - apply (bool_decide_unpack _). vm_compute. exact I.
  - vm_compute. reflexivity.
  - vm_compute. repeat constructor.
  - vm_compute. reflexivity.
  - apply (bool_decide_unpack _). vm_compute. exact I.
  - reflexivity.
Qed.

Section leave_room_properties.
Import Db Chat.
Implicit Types (srv : Server) (sid coinId : string) (sk : Socket).

Lemma leave_room_connected srv sid sk coinId :
  sockets srv !! sid = Some sk → coinId ≠ "" →
  leave_room srv sid coinId =
  (with_sockets srv (<[sid := with_rooms sk (rooms sk ∖ {[coinId]})]> (sockets srv)),
   [ToRoomExcept coinId sid (EvUserLeft (username (user sk)))]).
Proof. intros Hsk Hcoin. unfold leave_room. by rewrite Hsk, (truthy_true _ Hcoin). Qed.

(** C5, as the code has it.  Two [leave_room] calls in a row for a non-empty
    room id: the first takes the socket out of the room, the second leaves
    the server as the first left it, neither sends an [error] event, and each
    of the two emits one [user_left] to the room, so every other member
    receives two notices. *)
Theorem leave_room_twice srv sid sk coinId :
  sockets srv !! sid = Some sk → coinId ≠ "" →
  let first := leave_room srv sid coinId in
  let second := leave_room (fst first) sid coinId in
  fst second = fst first ∧
  (sid ∉ members (fst first) coinId) ∧
  snd first = [ToRoomExcept coinId sid (EvUserLeft (username (user sk)))] ∧
  snd second = snd first ∧
  (∀ other, other ∈ members srv coinId → other ≠ sid →
     received (fst first) (snd first) other ++ received (fst second) (snd second) other
     = [EvUserLeft (username (user sk)); EvUserLeft (username (user sk))]) ∧
  (∀ other,
     Forall (λ ev, is_error ev = false)
       (received (fst first) (snd first) other ++ received (fst second) (snd second) other)).
Proof.
  intros Hsk Hcoin first second.
  set (sk1 := with_rooms sk (rooms sk ∖ {[coinId]})).
  assert (Hfirst : first = (with_sockets srv (<[sid := sk1]> (sockets srv)),
                            [ToRoomExcept coinId sid (EvUserLeft (username (user sk)))]))
    by apply (leave_room_connected _ _ _ _ Hsk Hcoin).
  assert (Hsecond : second = first).
  { unfold second. rewrite Hfirst. simpl.
    rewrite (leave_room_connected _ sid sk1 coinId); [|apply lookup_insert_eq|done].
    simpl. rewrite insert_insert_eq. do 3 f_equal. unfold with_rooms, sk1. simpl.
    f_equal. apply set_eq. intros x. rewrite !elem_of_difference. tauto. }
  rewrite Hsecond.
  assert (Hrecv : ∀ other, received (fst first) (snd first) other
            = if decide (other ∈ members srv coinId ∧ other ≠ sid)
              then [EvUserLeft (username (user sk))] else []).
  { intros other. rewrite Hfirst. simpl. rewrite received_to_room_except.
    destruct (decide (other ∈ members srv coinId ∧ other ≠ sid)) as [[Hin Hne]|Hno].
    - rewrite decide_True; [done|]. split; [|done].
      apply members_after_insert. by right.
    - rewrite decide_False; [done|]. intros [Hin Hne]. apply Hno. split; [|done].
      apply members_after_insert in Hin as [[? _]|[_ ?]]; done. }
  split; [done|]. split; [|split; [by rewrite Hfirst|split; [done|split]]].
  - rewrite Hfirst. simpl. rewrite members_after_insert. simpl.
    intros [[_ Hin]|[? _]]; [|done].
    apply elem_of_difference in Hin as [_ Hin]. by apply Hin, elem_of_singleton.
  - intros other Hin Hne. by rewrite Hrecv, decide_True.
  - intros other. rewrite Hrecv. case_decide; repeat constructor.
Qed.

End leave_room_properties.

(** Alice leaves [bitcoin] twice: the second call changes nothing. *)
Lemma leave_room_twice_witness :
  fst (Chat.leave_room (fst (Chat.leave_room Sample.two_in_bitcoin "s1" "bitcoin")) "s1" "bitcoin")
  = fst (Chat.leave_room Sample.two_in_bitcoin "s1" "bitcoin") ∧
  "s1" ∉ Chat.members (fst (Chat.leave_room Sample.two_in_bitcoin "s1" "bitcoin")) "bitcoin".
Proof.
  destruct (leave_room_twice Sample.two_in_bitcoin "s1"
              (Chat.mkSocket Sample.alice_socket {["s1"; "bitcoin"]}) "bitcoin")
    as (Hsame & Hout & _).
  - vm_compute. reflexivity.
  - discriminate.
  - split; [exact Hsame | exact Hout].
Defined.

(** C5 as stated fails: Alice leaves [bitcoin] twice in a row and Bob, still
    in the room, receives two [user_left] notices, the second one for a
    socket that was no longer in the room. *)
Lemma second_leave_notifies_again :
  let first := Chat.leave_room Sample.two_in_bitcoin "s1" "bitcoin" in
  let second := Chat.leave_room (fst first) "s1" "bitcoin" in
  ("s1" ∉ Chat.members (fst first) "bitcoin") ∧
  Chat.received (fst first) (snd first) "s2" = [Chat.EvUserLeft "Alice"] ∧
  Chat.received (fst second) (snd second) "s2" = [Chat.EvUserLeft "Alice"].
Proof.
  intros first second. split; [|split].
  - apply (bool_decide_unpack _). vm_compute. exact I.
  - vm_compute. reflexivity.
  - vm_compute. reflexivity.
Qed.

Section membership.
Import Db Chat.
Implicit Types (srv : Server) (st : gmap string SessionState) (ev : ClientEvent).

Lemma send_message_sockets srv sid coinId message lookup ins :
  sockets (fst (send_message srv sid coinId message lookup ins)) = sockets srv.
Proof. unfold send_message. by repeat case_match. Qed.

Lemma leave_room_server srv sid coinId :
  fst (leave_room srv sid coinId) =
  match sockets srv !! sid with
  | None => srv
  | Some sk =>
      if Js.truthy coinId
      then with_sockets srv (<[sid := with_rooms sk (rooms sk ∖ {[coinId]})]> (sockets srv))
      else srv
  end.
Proof. unfold leave_room. by repeat case_match. Qed.

(** Two sets of rooms that differ at most in the socket's own room. *)
Lemma same_chat_rooms (rs1 rs2 : gset string) (sid : string) :
  rs1 ∖ {[sid]} = rs2 ∖ {[sid]} ↔ ∀ x, x ≠ sid → (x ∈ rs1 ↔ x ∈ rs2).
Proof.
  split.
  - intros Heq x Hx.
    assert (Hd : ∀ rs : gset string, x ∈ rs ∖ {[sid]} ↔ x ∈ rs).
    { intros rs. rewrite elem_of_difference, elem_of_singleton. tauto. }
    by rewrite <-(Hd rs1), <-(Hd rs2), Heq.
  - intros Hext. apply set_eq. intros x.
    rewrite !elem_of_difference, elem_of_singleton.
    split; intros [Hx Hne]; (split; [by apply (Hext x Hne)|done]).
Qed.

(** A connection adds the socket, in its own room. *)
Lemma connect_sockets srv sid u new_id :
  sockets (connect srv sid u new_id)
  = <[sid := {| user := u; rooms := {[sid]} |}]> (sockets srv).
Proof. unfold connect, ensureUserExists. by repeat case_match. Qed.

Lemma agrees_initial d : agrees (initial d) ∅.
Proof. intros sid. simpl. by rewrite !lookup_empty. Qed.

(** Each handler moves the server as the specification moves the session. *)
Lemma agrees_step srv st ev :
  agrees srv st → agrees (fst (step srv ev)) (spec_step st ev).
Proof.
  intros Hag. destruct ev as [sid u new_id|sid c fetch|sid c msg lookup ins|sid c|sid]; simpl.
  - (* connect *)
    intros sid'. rewrite connect_sockets. simpl. destruct (decide (sid' = sid)) as [->|Hne].
    + rewrite !lookup_insert_eq. simpl. split; [|done].
      apply same_chat_rooms. intros x Hx. rewrite elem_of_singleton, elem_of_empty. tauto.
    + rewrite !lookup_insert_ne by done. apply Hag.
  - (* join_room *)
    rewrite join_room_server. pose proof (Hag sid) as Hsid.
    destruct (sockets srv !! sid) as [sk|] eqn:Hsk, (st !! sid) as [s|] eqn:Hst;
      try done.
    destruct (Js.truthy c) eqn:Hc; [|done].
    intros sid'. simpl. destruct (decide (sid' = sid)) as [->|Hne].
    + rewrite !lookup_insert_eq. simpl. split.
      * apply same_chat_rooms. intros x Hx.
        rewrite elem_of_union, elem_of_intersection, !elem_of_singleton. tauto.
      * intros [= ->]. done.
    + rewrite !lookup_insert_ne by done. apply Hag.
  - (* send_message *)
    intros sid'. rewrite send_message_sockets. apply Hag.
  - (* leave_room *)
    rewrite leave_room_server. pose proof (Hag sid) as Hsid.
    destruct (sockets srv !! sid) as [sk|] eqn:Hsk, (st !! sid) as [s|] eqn:Hst;
      try done.
    destruct Hsid as [Hrooms Hname].
    pose proof (proj1 (same_chat_rooms _ _ _) Hrooms) as Hmem.
    destruct (Js.truthy c) eqn:Hc.
    + (* a named room *)
      destruct s as [|r]; [|destruct (decide (r = c)) as [->|Hrc]];
        intros sid'; simpl; (destruct (decide (sid' = sid)) as [->|Hne];
          [rewrite ?lookup_insert_eq, ?Hst; simpl; split; [|done]
          |rewrite ?lookup_insert_ne by done; apply Hag]);
        apply same_chat_rooms; intros x Hx; specialize (Hmem x Hx); simpl in Hmem;
        rewrite elem_of_difference, Hmem, ?elem_of_singleton, ?elem_of_empty.
      * tauto.
      * tauto.
      * split; [tauto|]. intros ->. done.
    + (* the empty name: nothing happens on either side *)
      apply truthy_false in Hc as ->.
      destruct s as [|r]; [done|]. destruct (decide (r = "")) as [->|]; done.
  - (* disconnect *)
    intros sid'. simpl. destruct (decide (sid' = sid)) as [->|Hne].
    + by rewrite !lookup_delete_eq.
    + rewrite !lookup_delete_ne by done. apply Hag.
Qed.

Lemma agrees_run srv st evs :
  agrees srv st → agrees (run srv evs) (foldl spec_step st evs).
Proof.
  revert srv st. induction evs as [|ev evs IH]; intros srv st Hag; [done|].
  simpl. apply IH. by apply agrees_step.
Qed.

(** ** The state machine, read off the sequence of events *)

Lemma spec_run_snoc evs ev : spec_run (evs ++ [ev]) = spec_step (spec_run evs) ev.
Proof. unfold spec_run. by rewrite foldl_snoc. Qed.

Lemma spec_step_connected st ev sid :
  is_Some (spec_step st ev !! sid) ↔
  match ev with
  | Connect s _ _ => s = sid ∨ is_Some (st !! sid)
  | Disconnect s => s ≠ sid ∧ is_Some (st !! sid)
  | _ => is_Some (st !! sid)
  end.
Proof.
  destruct ev as [s u new_id|s r fetch|s r msg lookup ins|s r|s]; simpl.
  - rewrite lookup_insert. destruct (decide (s = sid)); [|tauto].
    split; [by left|by eexists].
  - destruct (st !! s) eqn:Hs; [|done]. destruct (Js.truthy r); [|done].
    rewrite lookup_insert. destruct (decide (s = sid)) as [->|]; [|done].
    rewrite Hs. split; by eexists.
  - done.
  - destruct (st !! s) as [[|r0]|] eqn:Hs; try done.
    destruct (decide (r0 = r)); [|done].
    rewrite lookup_insert. destruct (decide (s = sid)) as [->|]; [|done].
    rewrite Hs. split; by eexists.
  - rewrite lookup_delete. destruct (decide (s = sid)); [|tauto].
    split; [by intros [? ?]|tauto].
Qed.

Lemma spec_run_online evs sid : is_Some (spec_run evs !! sid) ↔ online evs sid = true.
Proof.
  induction evs as [|ev evs IH] using rev_ind.
  - unfold spec_run. simpl. rewrite lookup_empty. split; [by intros [? ?]|done].
  - rewrite spec_run_snoc, spec_step_connected. unfold online. rewrite foldl_snoc.
    fold (online evs sid). destruct ev as [s u new_id|s r fetch|s r msg lookup ins|s r|s];
      try done; destruct (decide (s = sid)); rewrite IH; intuition congruence.
Qed.

Lemma spec_step_in_room st ev sid room :
  spec_step st ev !! sid = Some (InRoom room) ↔
  (∃ fetch, ev = JoinRoom sid room fetch ∧ room ≠ "" ∧ is_Some (st !! sid)) ∨
  (st !! sid = Some (InRoom room) ∧ ¬ ends_stay sid room ev).
Proof.
  destruct ev as [s u new_id|s r fetch|s r msg lookup ins|s r|s]; simpl.
  - rewrite lookup_insert. destruct (decide (s = sid)) as [->|Hne].
    + split; [done|]. intros [(? & ? & _)|[_ Hstay]]; [done|]. by destruct Hstay.
    + split; [intros ?; right; tauto|]. intros [(? & ? & _)|[? _]]; done.
  - destruct (decide (s = sid)) as [->|Hne].
    + destruct (st !! sid) as [s0|] eqn:Hs.
      * destruct (Js.truthy r) eqn:Hr.
        -- rewrite lookup_insert_eq. split.
           ++ intros [= ->]. left. exists fetch. split; [done|]. split; [|by eexists].
              intros ->. done.
           ++ intros [(f & [= -> _] & _)|[_ Hstay]]; [done|].
              destruct (decide (r = room)) as [->|Hrr]; [done|]. exfalso. apply Hstay.
              split; [done|]. split; [|done]. intros ->. done.
        -- apply truthy_false in Hr as ->. rewrite Hs. split.
           ++ intros [= ->]. right. split; [done|]. by intros (_ & ? & _).
           ++ intros [(f & [= <-] & ? & _)|[? _]]; done.
      * rewrite Hs. split; [done|]. intros [(_ & _ & _ & [? ?])|[? _]]; done.
    + assert (Hsame : match st !! s with
                      | Some _ => if Js.truthy r then <[s:=InRoom r]> st else st
                      | None => st
                      end !! sid = st !! sid).
      { destruct (st !! s); [|done]. destruct (Js.truthy r); [|done].
        by rewrite lookup_insert_ne. }
      rewrite Hsame. split; [intros ?; right; split; [done|]; by intros [? _]|].
      intros [(f & [= ? _] & _)|[? _]]; done.
  - split; [intros ?; right; tauto|]. intros [(? & ? & _)|[? _]]; done.
  - destruct (decide (s = sid)) as [->|Hne].
    + destruct (st !! sid) as [[|r0]|] eqn:Hs.
      * rewrite Hs. split; [done|]. intros [(? & ? & _)|[? _]]; done.
      * destruct (decide (r0 = r)) as [->|Hrr].
        -- rewrite lookup_insert_eq. split; [done|].
           intros [(? & ? & _)|[[= ->] Hstay]]; [done|]. by destruct Hstay.
        -- rewrite Hs. split.
           ++ intros [= ->]. right. split; [done|]. intros [_ ->]. done.
           ++ intros [(? & ? & _)|[? _]]; done.
      * rewrite Hs. split; [done|]. intros [(? & ? & _)|[? _]]; done.
    + assert (Hsame : match st !! s with
                      | Some (InRoom r0) => if decide (r0 = r) then <[s:=NoRoom]> st else st
                      | _ => st
                      end !! sid = st !! sid).
      { destruct (st !! s) as [[|r0]|]; try done. destruct (decide (r0 = r)); [|done].
        by rewrite lookup_insert_ne. }
      rewrite Hsame. split; [intros ?; right; split; [done|]; by intros [? _]|].
      intros [(? & ? & _)|[? _]]; done.
  - rewrite lookup_delete. destruct (decide (s = sid)) as [->|Hne].
    + split; [done|]. intros [(? & ? & _)|[_ Hstay]]; [done|]. by destruct Hstay.
    + split; [intros ?; right; tauto|]. intros [(? & ? & _)|[? _]]; done.
Qed.

(** The session is [InRoom room] exactly when its last room-affecting
    operation was a join of [room]. *)
Lemma spec_run_in_room evs sid room :
  spec_run evs !! sid = Some (InRoom room) ↔ last_joined evs sid room.
Proof.
  induction evs as [|ev evs IH] using rev_ind.
  - split; [done|]. intros (before & fetch & after & Hevs & _).
    by destruct before.
  - rewrite spec_run_snoc, spec_step_in_room, IH. setoid_rewrite spec_run_online. split.
    + intros [(fetch & -> & Hroom & Hon)|[(before & fetch & after & -> & Hroom & Hon & Hafter) Hstay]].
      * exists evs, fetch, []. done.
      * exists before, fetch, (after ++ [ev]). split; [by rewrite <-app_assoc|].
        split; [done|]. split; [done|]. apply Forall_app. split; [done|]. by constructor.
    + intros (before & fetch & after & Hevs & Hroom & Hon & Hafter).
      destruct after as [|e after _] using rev_ind.
      * apply app_inj_tail in Hevs as [-> ->]. left. by exists fetch.
      * change (before ++ JoinRoom sid room fetch :: after ++ [e])
          with (before ++ (JoinRoom sid room fetch :: after) ++ [e]) in Hevs.
        rewrite app_assoc in Hevs. apply app_inj_tail in Hevs as [-> ->].
        rewrite Forall_app, Forall_singleton in Hafter. destruct Hafter as [Hafter Hlast].
        right. split; [|done]. by exists before, fetch, after.
Qed.

(** C6. After any sequence of connects, joins, sends, leaves and disconnects
    from the empty server, a socket is in a room (other than its own
    socket.io room) exactly when the last room-affecting operation of its
    session was a join of that room: it joined the room while connected and
    has since neither left it, nor joined another, nor disconnected.  That
    is the [InRoom] state of the specification's state machine, and a socket
    is never in two such rooms at once. *)
Theorem membership_invariant d evs sid room :
  room ≠ sid →
  (sid ∈ members (run (initial d) evs) room ↔ last_joined evs sid room) ∧
  (sid ∈ members (run (initial d) evs) room ↔ spec_run evs !! sid = Some (InRoom room)) ∧
  (∀ room', room' ≠ sid →
     sid ∈ members (run (initial d) evs) room →
     sid ∈ members (run (initial d) evs) room' → room = room').
Proof.
  intros Hroom.
  pose proof (agrees_run _ _ evs (agrees_initial d) sid) as Hag. fold (spec_run evs) in Hag.
  assert (Hiff : ∀ r, r ≠ sid →
            sid ∈ members (run (initial d) evs) r ↔ spec_run evs !! sid = Some (InRoom r)).
  { intros r Hr. rewrite elem_of_members.
    destruct (sockets (run (initial d) evs) !! sid) as [sk|],
             (spec_run evs !! sid) as [s|]; try done.
    - destruct Hag as [Hrooms _].
      pose proof (proj1 (same_chat_rooms _ _ _) Hrooms r Hr) as Hmem. split.
      + intros (sk' & [= <-] & Hin). apply Hmem in Hin.
        destruct s as [|r']; simpl in Hin; [by apply elem_of_empty in Hin|].
        by apply elem_of_singleton in Hin as ->.
      + intros [= ->]. exists sk. split; [done|].
        apply Hmem. simpl. by apply elem_of_singleton.
    - split; [by intros (? & ? & _)|done]. }
  split; [by rewrite <-spec_run_in_room; apply Hiff|]. split; [by apply Hiff|].
  intros room' Hroom' Hin Hin'. apply Hiff in Hin, Hin'; [|done..]. congruence.
Qed.

End membership.

(** From its connection on a socket is in the room named by its own id,
    which no join put it in: the rooms of C6 are the others. *)
Example own_room_from_connect :
  "s1" ∈ Chat.members
           (Chat.run (Chat.initial Sample.sixty) [Chat.Connect "s1" Sample.alice_socket "u-1"]) "s1".
Proof. apply (bool_decide_unpack _). vm_compute. exact I. Qed.

(** Alice joins [bitcoin], switches to [ethereum] (the history query
    failing), leaves [bitcoin] again, which she is not in; Bob joins
    [bitcoin] and disconnects.  Alice is in [ethereum], and only there. *)
Lemma membership_invariant_witness :
  let evs := [Chat.Connect "s1" Sample.alice_socket "u-1";
              Chat.Connect "s2" Sample.bob_socket "u-2";
              Chat.JoinRoom "s1" "bitcoin" Db.Answered;
              Chat.JoinRoom "s1" "ethereum" Db.Errored;
              Chat.LeaveRoom "s1" "bitcoin";
              Chat.JoinRoom "s2" "bitcoin" Db.Answered;
              Chat.Disconnect "s2"] in
  "ethereum" ≠ "s1" ∧
  "s1" ∈ Chat.members (Chat.run (Chat.initial Sample.sixty) evs) "ethereum" ∧
  ("s1" ∉ Chat.members (Chat.run (Chat.initial Sample.sixty) evs) "bitcoin").
Proof.
  intros evs.
  assert (Hne : "ethereum" ≠ "s1") by discriminate.
  destruct (membership_invariant Sample.sixty evs "s1" "ethereum" Hne) as (_ & Hiff & Hone).
  assert (Hin : "s1" ∈ Chat.members (Chat.run (Chat.initial Sample.sixty) evs) "ethereum").
  { apply Hiff. vm_compute. reflexivity. }
  split; [exact Hne|]. split; [exact Hin|].
  intros Hbtc. assert (Heq : "ethereum" = "bitcoin"); [|discriminate Heq].
  apply Hone; [discriminate|exact Hin|exact Hbtc].
Defined.

(* ===================================================================== *)
(** * Validation of a message body at the two entry points *)
(* ===================================================================== *)

Section validation.
Import Db.

(** The realtime entry point turns down a body that is empty once trimmed,
    and one of more than 500 characters: the sender alone is told, and the
    table is not touched. *)
Lemma send_message_rejects srv sid sk coinId message lookup ins :
  Chat.sockets srv !! sid = Some sk →
  Js.trim message = "" ∨ (500 < String.length message)%nat →
  ∃ msg, Chat.send_message srv sid coinId message lookup ins
         = (srv, [Chat.ToSocket sid (Chat.EvError msg)]).
Proof.
  intros Hsk Hbad. unfold Chat.send_message. rewrite Hsk.
  destruct (negb (Js.truthy coinId) || negb (Js.truthy (Js.trim message))) eqn:Hreq;
    [eauto|].
  apply orb_false_iff in Hreq as [_ Hbody]. apply negb_false_iff in Hbody.
  destruct Hbad as [Hempty|Hlong].
  - rewrite Hempty in Hbody. discriminate.
  - apply Nat.ltb_lt in Hlong. rewrite Hlong. eauto.
Qed.

(** The REST entry point turns down, with status 400, a body that is the
    empty string or has more than 1000 characters; no row is written. *)
Lemma post_messages_rejects d auth0Sub coinId body lookup coin ins :
  auth0Sub ≠ "" →
  body = "" ∨ (1000 < String.length body)%nat →
  ∃ e, Rest.post_messages d (Rest.mkRequest (Some auth0Sub) (Rest.mkBody coinId (Some body)))
         lookup coin ins
       = (Rest.mkResponse 400 (Rest.ErrorJoi e), d).
Proof.
  intros Hsub Hbad. unfold Rest.post_messages. simpl.
  rewrite (truthy_true _ Hsub). simpl. unfold Rest.messageSchema_validate. simpl.
  destruct (Rest.joi_string "coinId" None None coinId) as [e|c]; [eauto|].
  unfold Rest.joi_string. destruct Hbad as [->|Hlong]; [simpl; eauto|].
  destruct (String.eqb body "") eqn:Hempty; [eauto|].
  unfold Rest.below_min, Rest.above_max.
  destruct (String.length body <? 1)%nat eqn:Hshort; [eauto|].
  apply Nat.ltb_lt in Hlong. rewrite Hlong. eauto.
Qed.

(** A body of 1001 characters at the REST entry point: status 400, and the
    table is as before. *)
Example post_messages_1001 :
  Rest.post_messages Sample.sixty
    (Rest.mkRequest (Some "auth0|alice")
       (Rest.mkBody (Some "bitcoin") (Some (Js.repeat_char "a" 1001))))
    Answered Answered (Inserted "m-long" 200)
  = (Rest.mkResponse 400 (Rest.ErrorJoi (Rest.StringMax "content" 1000)), Sample.sixty).
Proof. vm_compute. reflexivity. Qed.

(** But [messageSchema] does not trim: a body of white space only, of 1 to
    1000 characters, passes it, and the handler then stores its trimmed,
    empty, form.  The answer is not the 400 of a validation error but the 500
    of the handler's [catch]: formatting the inserted row throws, as it does
    after every insert. *)
Lemma post_messages_accepts_blank d auth0Sub coinId body userId new_id now lookup :
  auth0Sub ≠ "" → coinId ≠ "" → coinId ∈ coins d →
  body ≠ "" → (String.length body ≤ 1000)%nat → Js.trim body = "" →
  getUserIdFromSub d lookup auth0Sub = Some userId →
  Rest.post_messages d
    (Rest.mkRequest (Some auth0Sub) (Rest.mkBody (Some coinId) (Some body)))
    lookup Answered (Inserted new_id now)
  = (Rest.mkResponse 500 (Rest.ErrorText "Internal server error"),
     insert_message d (new_row new_id coinId userId "" now)).
Proof.
  intros Hsub Hcoin Hknown Hbody Hlen Hblank Huser.
  pose proof (joined_users_known _ _ _ _ new_id coinId "" now Huser) as Hjoin.
  unfold Rest.post_messages. simpl. rewrite (truthy_true _ Hsub). simpl.
  unfold Rest.messageSchema_validate, Rest.joi_string. simpl.
  apply String.eqb_neq in Hcoin, Hbody. rewrite Hcoin, Hbody.
  assert ((String.length body <? 1)%nat = false) as ->.
  { apply Nat.ltb_ge. destruct body; [done|simpl; lia]. }
  assert ((1000 <? String.length body)%nat = false) as -> by by apply Nat.ltb_ge.
  rewrite Huser, bool_decide_eq_true_2 by done. rewrite Hblank.
  destruct (embed_joined _ _ Hjoin) as [u ->]. done.
Qed.

(** C9, the input on which the code departs from it: an authenticated
    [POST /messages] for an existing coin with the body ["   "] is not turned
    down by the validation: a row with empty content is written (the answer
    being the 500 that follows every insert, not a 400), where the realtime
    entry point turns the same body down. *)
Theorem post_messages_blank_body_creates_row :
  let req := Rest.mkRequest (Some "auth0|alice") (Rest.mkBody (Some "bitcoin") (Some "   ")) in
  let result := Rest.post_messages Sample.sixty req Answered Answered (Inserted "m-blank" 200) in
  Js.trim "   " = "" ∧
  fst result = Rest.mkResponse 500 (Rest.ErrorText "Internal server error") ∧
  chat_messages (snd result)
    = chat_messages Sample.sixty ++ [new_row "m-blank" "bitcoin" "u-alice" "" 200] ∧
  snd (Chat.send_message Sample.two_in_bitcoin "s1" "bitcoin" "   " Answered
         (Inserted "m-blank" 200))
    = [Chat.ToSocket "s1" (Chat.EvError "Coin ID and message are required")].
Proof. vm_compute. repeat split; reflexivity. Qed.

End validation.

(* ===================================================================== *)
(** * More on the response cache and the routes that use it *)
(* ===================================================================== *)

Section cache_more.
Context {V : Type} (null : V).
Implicit Types (cache : gmap string (Cache.CacheEntry V)) (k : string) (v : V).

Lemma getCachedData_other cache now k k' :
  k' ≠ k → snd (Cache.getCachedData null cache now k) !! k' = cache !! k'.
Proof.
  intros Hne. unfold Cache.getCachedData.
  destruct (cache !! k) as [e|]; [case_bool_decide|]; simpl;
    rewrite ?lookup_delete_ne by done; done.
Qed.

Lemma getCachedData_lookup cache now k k' :
  fst (Cache.getCachedData null cache now k') =
  match cache !! k' with
  | Some e => if bool_decide (now - Cache.timestamp e < Cache.ttl e) then Cache.data e else null
  | None => null
  end.
Proof.
  unfold Cache.getCachedData. destruct (cache !! k') as [e|]; [|done].
  by case_bool_decide.
Qed.

(** X1. Reading or writing one key of the cache leaves every other key as
    it was: a lookup of another key gives the same answer before and after,
    and a lookup never adds an entry or alters one. *)
Theorem cache_other_keys_untouched cache k k' v (ttlMinutes t t' : Z) :
  k' ≠ k →
  fst (Cache.getCachedData null (Cache.setCachedData cache t k v ttlMinutes) t' k')
    = fst (Cache.getCachedData null cache t' k') ∧
  fst (Cache.getCachedData null (snd (Cache.getCachedData null cache t k)) t' k')
    = fst (Cache.getCachedData null cache t' k') ∧
  (∀ key e, snd (Cache.getCachedData null cache t k) !! key = Some e → cache !! key = Some e).
Proof.
  intros Hne. split; [|split].
  - rewrite !(getCachedData_lookup _ _ k). unfold Cache.setCachedData.
    by rewrite lookup_insert_ne.
  - rewrite !(getCachedData_lookup _ _ k). by rewrite getCachedData_other.
  - intros key e. unfold Cache.getCachedData.
    destruct (cache !! k) as [e'|]; [case_bool_decide|]; simpl; try done;
      rewrite lookup_delete; by case_decide.
Qed.

(** X2. A miss is final: once a lookup of a key has returned [null], every
    later lookup of it returns [null] as well, whatever the clock says, until
    the key is set again. *)
Theorem cache_miss_is_final cache k (t t' : Z) :
  fst (Cache.getCachedData null cache t k) = null →
  fst (Cache.getCachedData null (snd (Cache.getCachedData null cache t k)) t' k) = null.
Proof.
  intros Hmiss. rewrite (getCachedData_lookup _ t' k).
  unfold Cache.getCachedData in *. destruct (cache !! k) as [e|] eqn:Hk.
  - destruct (bool_decide (t - Cache.timestamp e < Cache.ttl e)); simpl in *.
    + rewrite Hk. by case_bool_decide.
    + by rewrite lookup_delete_eq.
  - simpl. by rewrite lookup_delete_eq.
Qed.

(** X3. The last write wins: after two writes of a key, only the second
    one's value, time and ttl count, also when the first would still be
    valid. *)
Theorem cache_last_write_wins cache k v1 v2 (m1 m2 t1 t2 t : Z) :
  let stored := Cache.setCachedData (Cache.setCachedData cache t1 k v1 m1) t2 k v2 m2 in
  stored = Cache.setCachedData cache t2 k v2 m2 ∧
  (t - t2 < m2 * 60 * 1000 → fst (Cache.getCachedData null stored t k) = v2) ∧
  (m2 * 60 * 1000 <= t - t2 → fst (Cache.getCachedData null stored t k) = null).
Proof.
  intros stored.
  assert (Hk : stored !! k = Some (Cache.mkEntry v2 t2 (m2 * 60 * 1000)))
    by apply lookup_insert_eq.
  split; [apply insert_insert_eq|]. split; intros Ht.
  - by rewrite (getCachedData_fresh _ _ _ _ _ Hk).
  - by rewrite (getCachedData_stale _ _ _ _ _ Hk).
Qed.

End cache_more.

(** A lookup of [search_btc] does not disturb [trending_coins]. *)
Lemma cache_other_keys_untouched_witness :
  let cache := Cache.setCachedData (∅ : gmap string (Cache.CacheEntry (option string)))
                 0 "trending_coins" (Some "t") 5 in
  fst (Cache.getCachedData None (snd (Cache.getCachedData None cache 10 "search_btc"))
         20 "trending_coins") = Some "t".
Proof.
  intros cache.
  destruct (cache_other_keys_untouched None cache "search_btc" "trending_coins"
              None 1 10 20) as (_ & Hget & _); [discriminate|].
  rewrite Hget. reflexivity.
Defined.

(** An entry found expired at 400 000 ms is gone, also for a clock set back. *)
Lemma cache_miss_is_final_witness :
  let cache := Cache.setCachedData (∅ : gmap string (Cache.CacheEntry (option string)))
                 0 "trending_coins" (Some "t") 5 in
  fst (Cache.getCachedData None (snd (Cache.getCachedData None cache 400000 "trending_coins"))
         1000 "trending_coins") = None.
Proof.
  intros cache. apply (cache_miss_is_final None cache "trending_coins" 400000 1000).
  reflexivity.
Defined.

(** A ten-minute entry overwritten by a one-minute one lasts one minute. *)
Lemma cache_last_write_wins_witness :
  let stored := Cache.setCachedData
                  (Cache.setCachedData (∅ : gmap string (Cache.CacheEntry (option string)))
                     0 "k" (Some "old") 10) 1000 "k" (Some "new") 1 in
  fst (Cache.getCachedData None stored 60999 "k") = Some "new" ∧
  fst (Cache.getCachedData None stored 61000 "k") = None.
Proof.
  intros stored.
  destruct (cache_last_write_wins None ∅ "k" (Some "old") (Some "new") 10 1 0 1000 60999)
    as (_ & Hfresh & _).
  destruct (cache_last_write_wins None ∅ "k" (Some "old") (Some "new") 10 1 0 1000 61000)
    as (_ & _ & Hstale).
  split; [apply Hfresh; lia | apply Hstale; lia].
Defined.

Section market_properties.
Context {Raw Shaped Payload : Type}.
Context (market_fields search_fields : Raw → Shaped).
Context (result_json : list Shaped → Z → Z → Payload).
Implicit Types (cache : gmap string (Cache.CacheEntry (option Payload))).

Local Abbreviation get_market := (Market.get_market market_fields result_json).
Local Abbreviation get_search := (Market.get_search search_fields result_json).

Lemma string_append_assoc (a b c : string) : (a +:+ b) +:+ c = a +:+ b +:+ c.
Proof.
  induction a as [|x a IH]; [reflexivity|].
  change (String x ((a +:+ b) +:+ c) = String x (a +:+ b +:+ c)). by rewrite IH.
Qed.

Lemma string_length_append (a b : string) :
  String.length (a +:+ b) = (String.length a + String.length b)%nat.
Proof.
  induction a as [|x a IH]; [reflexivity|].
  change (S (String.length (a +:+ b)) = S (String.length a + String.length b)).
  by rewrite IH.
Qed.

(** A request that calls upstream found no usable entry under its key. *)
Lemma get_market_called cache q t0 t1 t2 reply p :
  Market.upstream_call (get_market cache q t0 t1 t2 reply) = Some p →
  fst (Cache.getCachedData None cache t0 (Market.market_key (Market.market_params q))) = None.
Proof.
  unfold Market.get_market.
  destruct (Cache.getCachedData None cache t0 _) as [[cached|] cache1]; [done|done].
Qed.

(** What a request that missed and got its data leaves in the cache. *)
Lemma get_market_stores cache q t0 t1 t2 data :
  fst (Cache.getCachedData None cache t0 (Market.market_key (Market.market_params q))) = None →
  let result := result_json (market_fields <$> data) t1 60 in
  Market.response (get_market cache q t0 t1 t2 (Market.Returned data)) = Market.Json result ∧
  Market.upstream_call (get_market cache q t0 t1 t2 (Market.Returned data))
    = Some (Market.market_params q) ∧
  Market.cache_after (get_market cache q t0 t1 t2 (Market.Returned data))
    !! Market.market_key (Market.market_params q)
    = Some (Cache.mkEntry (Some result) t2 60000).
Proof.
  unfold Market.get_market.
  destruct (Cache.getCachedData None cache t0 _) as [[cached|] cache1]; [done|].
  intros _. simpl. repeat split. apply lookup_insert_eq.
Qed.

(** A request that finds a fresh entry under its key answers with it. *)
Lemma get_market_hit cache q t t1 t2 reply e body :
  cache !! Market.market_key (Market.market_params q) = Some e →
  Cache.data e = Some body → t - Cache.timestamp e < Cache.ttl e →
  get_market cache q t t1 t2 reply
  = {| Market.response := Market.Json body; Market.cache_after := cache;
       Market.upstream_call := None |}.
Proof.
  intros Hk Hbody Hfresh. unfold Market.get_market.
  rewrite (getCachedData_fresh None _ _ _ _ Hk Hfresh), Hbody. done.
Qed.

(** A request that finds nothing fresh under its key calls upstream. *)
Lemma get_market_refetch cache q t t1 t2 reply :
  (∀ e, cache !! Market.market_key (Market.market_params q) = Some e →
        Cache.ttl e <= t - Cache.timestamp e) →
  Market.upstream_call (get_market cache q t t1 t2 reply) = Some (Market.market_params q).
Proof.
  intros Hstale. unfold Market.get_market, Cache.getCachedData.
  destruct (cache !! _) as [e|] eqn:Hk.
  - rewrite bool_decide_eq_false_2 by (specialize (Hstale e eq_refl); lia).
    by destruct reply.
  - by destruct reply.
Qed.

(** X4. [GET /market]: after a request that fetched its data upstream, a
    request with the same ids, currency, page and page size made less than
    60 s after the data was stored is answered with the very same body, calls
    nothing upstream and leaves the cache alone, whatever its [order],
    [sparkline] and [price_change_percentage]; from 60 s on, the next such
    request calls upstream again. *)
Theorem market_served_from_cache cache q q' (t0 t1 t2 t t1' t2' : Z) data reply p :
  Market.upstream_call (get_market cache q t0 t1 t2 (Market.Returned data)) = Some p →
  Market.ids q' = Market.ids q → Market.vs_currency q' = Market.vs_currency q →
  Market.page q' = Market.page q → Market.per_page q' = Market.per_page q →
  let first := get_market cache q t0 t1 t2 (Market.Returned data) in
  let second := get_market (Market.cache_after first) q' t t1' t2' reply in
  (t - t2 < 60000 →
     Market.response second = Market.response first ∧
     Market.upstream_call second = None ∧
     Market.cache_after second = Market.cache_after first) ∧
  (60000 <= t - t2 → Market.upstream_call second = Some (Market.market_params q')).
Proof.
  intros Hcalled Hids Hvs Hpage Hper first second.
  apply get_market_called in Hcalled.
  destruct (get_market_stores cache q t0 t1 t2 data Hcalled) as (Hresp & _ & Hentry).
  fold first in Hresp, Hentry.
  assert (Hkey : Market.market_key (Market.market_params q')
                 = Market.market_key (Market.market_params q)).
  { unfold Market.market_key, Market.market_params. simpl.
    by rewrite Hids, Hvs, Hpage, Hper. }
  rewrite <-Hkey in Hentry. split; intros Ht.
  - unfold second. rewrite (get_market_hit _ q' t t1' t2' reply _ _ Hentry eq_refl Ht).
    simpl. by rewrite Hresp.
  - apply get_market_refetch. intros e He. rewrite Hentry in He.
    injection He as <-. simpl. lia.
Qed.

(** X5. The key of [GET /market] joins its parts with ["_"] and so does not
    tell [ids = a_b, vs_currency = c] from [ids = a, vs_currency = b_c]: the
    two requests differ in what they ask upstream, share the key, and the
    second, made less than 60 s after the first was stored, is answered with
    the first one's body without any upstream call. *)
Theorem market_key_collision cache (a b c : string) pg pp (t0 t1 t2 t t1' t2' : Z) data reply p :
  let q := Market.mkMarketQuery (Some (a +:+ "_" +:+ b)) (Some c) None pp pg None None in
  let q' := Market.mkMarketQuery (Some a) (Some (b +:+ "_" +:+ c)) None pp pg None None in
  Market.upstream_call (get_market cache q t0 t1 t2 (Market.Returned data)) = Some p →
  t - t2 < 60000 →
  let first := get_market cache q t0 t1 t2 (Market.Returned data) in
  let second := get_market (Market.cache_after first) q' t t1' t2' reply in
  Market.market_params q' ≠ Market.market_params q ∧
  Market.market_key (Market.market_params q') = Market.market_key (Market.market_params q) ∧
  Market.response second = Market.response first ∧
  Market.upstream_call second = None.
Proof.
  intros q q' Hcalled Ht first second.
  apply get_market_called in Hcalled.
  destruct (get_market_stores cache q t0 t1 t2 data Hcalled) as (Hresp & _ & Hentry).
  fold first in Hresp, Hentry.
  assert (Hkey : Market.market_key (Market.market_params q')
                 = Market.market_key (Market.market_params q)).
  { unfold Market.market_key, Market.market_params. simpl.
    by rewrite !string_append_assoc. }
  rewrite <-Hkey in Hentry. split; [|split; [done|]].
  - unfold Market.market_params. simpl. intros [= Hids _].
    apply (f_equal String.length) in Hids. rewrite !string_length_append in Hids.
    simpl in Hids. lia.
  - unfold second. rewrite (get_market_hit _ q' t t1' t2' reply _ _ Hentry eq_refl Ht).
    simpl. by rewrite Hresp.
Qed.

(** A lookup that returned [null] leaves a cache in which the key still
    reads [null]. *)
Lemma getCachedData_null_again cache (t t' : Z) k :
  fst (Cache.getCachedData None cache t k) = None →
  fst (Cache.getCachedData None (snd (Cache.getCachedData None cache t k)) t' k) = None.
Proof.
  intros Hmiss. rewrite (getCachedData_lookup None _ t' k).
  unfold Cache.getCachedData in *. destruct (cache !! k) as [e|] eqn:Hk.
  - destruct (bool_decide (t - Cache.timestamp e < Cache.ttl e)); simpl in *.
    + rewrite Hk. by case_bool_decide.
    + by rewrite lookup_delete_eq.
  - simpl. by rewrite lookup_delete_eq.
Qed.

Lemma get_market_miss cache q t t1 t2 reply :
  fst (Cache.getCachedData None cache t (Market.market_key (Market.market_params q))) = None →
  Market.upstream_call (get_market cache q t t1 t2 reply) = Some (Market.market_params q) ∧
  (∀ message, reply = Market.Failed message →
     Market.response (get_market cache q t t1 t2 reply)
       = Market.ServerError "Failed to fetch market data" message ∧
     Market.cache_after (get_market cache q t t1 t2 reply)
       = snd (Cache.getCachedData None cache t (Market.market_key (Market.market_params q)))).
Proof.
  unfold Market.get_market.
  destruct (Cache.getCachedData None cache t _) as [[cached|] cache1]; [done|].
  intros _. destruct reply; simpl; split; try done. by intros ? [= <-].
Qed.

(** X6. A failed upstream call is not cached: the request is answered with
    the error, the cache gives no value for its key afterwards, and the next
    request for the same key calls upstream again, however soon it comes. *)
Theorem market_failure_not_cached cache q (t0 t1 t2 t t1' t2' : Z) message reply p :
  Market.upstream_call (get_market cache q t0 t1 t2 (Market.Failed message)) = Some p →
  let first := get_market cache q t0 t1 t2 (Market.Failed message) in
  let second := get_market (Market.cache_after first) q t t1' t2' reply in
  Market.response first = Market.ServerError "Failed to fetch market data" message ∧
  fst (Cache.getCachedData None (Market.cache_after first) t
         (Market.market_key (Market.market_params q))) = None ∧
  Market.upstream_call second = Some (Market.market_params q).
Proof.
  intros Hcalled first second. apply get_market_called in Hcalled.
  destruct (get_market_miss cache q t0 t1 t2 (Market.Failed message) Hcalled) as [_ Hfail].
  destruct (Hfail message eq_refl) as [Hresp Hcache]. fold first in Hresp, Hcache.
  pose proof (getCachedData_null_again cache t0 t _ Hcalled) as Hnull.
  rewrite <-Hcache in Hnull. split; [done|]. split; [done|].
  by apply get_market_miss.
Qed.

(** X7. [GET /search] caches under the lower-cased query: after a search
    that fetched upstream, a query that differs from it only in the case of
    its letters, made less than 600 s after the result was stored, is
    answered with the same body without calling upstream; and a body built
    from an upstream answer lists at most 10 coins. *)
Theorem search_served_from_cache cache (query query' : string) (t0 t1 t2 t t1' t2' : Z)
    data reply :
  Market.upstream_call (get_search cache (Some query) t0 t1 t2 (Market.Returned data))
    = Some query →
  query' ≠ "" → Market.toLowerCase query' = Market.toLowerCase query →
  t - t2 < 600000 →
  let first := get_search cache (Some query) t0 t1 t2 (Market.Returned data) in
  let second := get_search (Market.cache_after first) (Some query') t t1' t2' reply in
  (∃ shaped, Market.response first = Market.Json (result_json shaped t1 600) ∧
             (length shaped ≤ 10)%nat) ∧
  Market.response second = Market.response first ∧
  Market.upstream_call second = None ∧
  Market.cache_after second = Market.cache_after first.
Proof.
  intros Hcalled Hquery' Hlower Ht first second.
  unfold first, second, Market.get_search in *.
  rewrite (truthy_true _ Hquery'). simpl.
  destruct (Js.truthy query); simpl in *; [|done].
  destruct (Cache.getCachedData None cache t0 (Market.search_key query))
    as [[cached|] cache1]; [done|]. simpl.
  assert (Hk : Cache.setCachedData cache1 t2 (Market.search_key query)
                 (Some (result_json (search_fields <$> take 10 data) t1 600)) 10
               !! Market.search_key query'
             = Some (Cache.mkEntry
                       (Some (result_json (search_fields <$> take 10 data) t1 600)) t2 600000)).
  { unfold Market.search_key. rewrite Hlower. apply lookup_insert_eq. }
  rewrite (getCachedData_fresh None _ _ _ _ Hk) by (simpl; lia). simpl.
  split; [|done]. eexists. split; [done|].
  rewrite length_fmap, length_take. lia.
Qed.

End market_properties.

(** Two market requests 59.999 s apart that differ in their [order]: the
    second is served the stored body. *)
Lemma market_served_from_cache_witness :
  let q := Market.mkMarketQuery (Some "bitcoin,ethereum") None None None None None None in
  let q' := Market.mkMarketQuery (Some "bitcoin,ethereum") None (Some "volume_desc")
              None None None None in
  let first := Market.get_market (λ c : string, c) (λ coins t n, (coins, t, n))
                 ∅ q 0 900 1000 (Market.Returned ["btc"; "eth"]) in
  let second := Market.get_market (λ c : string, c) (λ coins t n, (coins, t, n))
                  (Market.cache_after first) q' 60999 61500 61600 (Market.Failed "down") in
  Market.response second = Market.Json (["btc"; "eth"], 900, 60) ∧
  Market.upstream_call second = None.
Proof.
  intros q q' first second.
  destruct (market_served_from_cache (λ c : string, c) (λ coins t n, (coins, t, n))
              ∅ q q' 0 900 1000 60999 61500 61600 ["btc"; "eth"] (Market.Failed "down")
              (Market.market_params q))
    as [Hhit _]; [vm_compute; reflexivity | reflexivity..|].
  destruct Hhit as (Hresp & Hcall & _); [lia|].
  split; [exact Hresp | exact Hcall].
Defined.

(** [ids=bitcoin_usd, vs_currency=eur] and [ids=bitcoin, vs_currency=usd_eur]
    under one key. *)
Lemma market_key_collision_witness :
  let q := Market.mkMarketQuery (Some "bitcoin_usd") (Some "eur") None None None None None in
  let q' := Market.mkMarketQuery (Some "bitcoin") (Some "usd_eur") None None None None None in
  let first := Market.get_market (λ c : string, c) (λ coins t n, (coins, t, n))
                 ∅ q 0 900 1000 (Market.Returned ["in euro"]) in
  let second := Market.get_market (λ c : string, c) (λ coins t n, (coins, t, n))
                  (Market.cache_after first) q' 2000 2100 2200 (Market.Returned ["other"]) in
  Market.response second = Market.Json (["in euro"], 900, 60) ∧
  Market.upstream_call second = None.
Proof.
  intros q q' first second.
  destruct (market_key_collision (λ c : string, c) (λ coins t n, (coins, t, n))
              ∅ "bitcoin" "usd" "eur" None None 0 900 1000 2000 2100 2200 ["in euro"]
              (Market.Returned ["other"]) (Market.market_params q))
    as (_ & _ & Hresp & Hcall); [vm_compute; reflexivity|lia|].
  split; [exact Hresp | exact Hcall].
Defined.

(** The upstream is down, then asked again one millisecond later. *)
Lemma market_failure_not_cached_witness :
  let q := Market.mkMarketQuery None None None None None None None in
  let first := Market.get_market (λ c : string, c) (λ coins t n, (coins, t, n))
                 ∅ q 0 900 1000 (Market.Failed "timeout of 10000ms exceeded") in
  let second := Market.get_market (λ c : string, c) (λ coins t n, (coins, t, n))
                  (Market.cache_after first) q 1001 1100 1200 (Market.Returned ["btc"]) in
  Market.upstream_call second = Some (Market.market_params q).
Proof.
  intros q first second.
  destruct (market_failure_not_cached (λ c : string, c) (λ coins t n, (coins, t, n))
              ∅ q 0 900 1000 1001 1100 1200 "timeout of 10000ms exceeded"
              (Market.Returned ["btc"]) (Market.market_params q))
    as (_ & _ & Hcall); [vm_compute; reflexivity|].
  exact Hcall.
Defined.

(** [BTC] after [btc]: one upstream search, twelve coins cut to ten. *)
Lemma search_served_from_cache_witness :
  let data := (λ k, "coin" +:+ pretty k) <$> seq 1 12 in
  let first := Market.get_search (λ c : string, c) (λ coins t n, (coins, t, n))
                 ∅ (Some "btc") 0 900 1000 (Market.Returned data) in
  let second := Market.get_search (λ c : string, c) (λ coins t n, (coins, t, n))
                  (Market.cache_after first) (Some "BTC") 500000 500100 500200
                  (Market.Failed "down") in
  Market.response second = Market.response first ∧
  Market.upstream_call second = None.
Proof.
  intros data first second.
  destruct (search_served_from_cache (λ c : string, c) (λ coins t n, (coins, t, n))
              ∅ "btc" "BTC" 0 900 1000 500000 500100 500200 data (Market.Failed "down")
              )
    as (_ & Hresp & Hcall & _); [vm_compute; reflexivity|discriminate|reflexivity|lia|].
  split; [exact Hresp | exact Hcall].
Defined.

(* ===================================================================== *)
(** * Properties of the chat routes *)
(* ===================================================================== *)

Section chat_routes.
Import Db ChatRoutes.
Implicit Types (d : Database) (m : ChatMessageRow) (q : MessagesQuery) (v : Validated).

Lemma joi_string_plain key o s :
  Rest.joi_string key None None o = inr s → o = Some s ∧ s ≠ "".
Proof.
  unfold Rest.joi_string. destruct o as [s'|]; [|done].
  destruct (String.eqb s' "") eqn:Hs; [done|]. simpl. intros [= <-].
  split; [done|]. by apply String.eqb_neq.
Qed.

Lemma joi_integer_range key (lo : Z) max (dflt : Z) o n :
  joi_integer key (Some lo) max dflt o = inr n →
  (o = None ∧ n = dflt ∨ o = Some n ∧ lo <= n <= max_safe_integer) ∧
  (∀ hi, max = Some hi → o = Some n → n <= hi).
Proof.
  unfold joi_integer, below, above. destruct o as [k|].
  - case_bool_decide as Hsafe; [done|]. case_bool_decide as Hlo; [done|].
    destruct max as [hi|].
    + case_bool_decide as Hhi; [done|]. intros [= <-]. split.
      * right. split; [done|]. lia.
      * intros ? [= <-] _. lia.
    + intros [= <-]. split; [|done]. right. split; [done|]. lia.
  - intros [= <-]. split; [by left|done].
Qed.

(** What a query that passes [messagesQuerySchema] looks like. *)
Lemma messages_query_valid q v :
  messagesQuerySchema_validate q = inr v →
  coinId q = Some (v_coinId v) ∧ v_coinId v ≠ "" ∧
  1 <= v_limit v <= 100 ∧ 0 <= v_offset v ∧ v_before v = before q.
Proof.
  unfold messagesQuerySchema_validate.
  destruct (Rest.joi_string "coinId" None None (coinId q)) as [e|c] eqn:Hc; [done|].
  destruct (joi_integer "limit" (Some 1) (Some 100) 50 (limit q)) as [e|l] eqn:Hl; [done|].
  destruct (joi_integer "offset" (Some 0) None 0 (offset q)) as [e|o] eqn:Ho; [done|].
  intros [= <-]. simpl.
  apply joi_string_plain in Hc as [Hc Hne].
  apply joi_integer_range in Hl as [Hl Hhi], Ho as [Ho _].
  split; [done|]. split; [done|]. split; [|split; [|done]].
  - destruct Hl as [[_ ->]|[Hq ?]]; [lia|]. specialize (Hhi 100 eq_refl Hq). lia.
  - destruct Ho as [[_ ->]|[_ ?]]; lia.
Qed.

Lemma elem_of_page_rows d v m :
  m ∈ page_rows d v → m ∈ chat_messages d ∧ listed d (v_coinId v) (v_before v) m.
Proof.
  unfold page_rows. intros Hm%(subseteq_take _)%(subseteq_drop _).
  rewrite elem_of_order_by, list_elem_of_filter in Hm. tauto.
Qed.

(** A number holds an integer of at most 53 bits, and [2 ^ 53], as it is. *)
Lemma to_double_exact (x : Z) : Z.abs x <= 2 ^ 53 → to_double x = x.
Proof.
  intros Hx. unfold to_double.
  destruct (decide (Z.abs x = 2 ^ 53)) as [Hmax|Hless].
  - assert (x = 2 ^ 53 ∨ x = - 2 ^ 53) as [-> | ->] by lia; reflexivity.
  - assert (Hbits : Z.log2 (Z.abs x) < 53).
    { destruct (decide (Z.abs x = 0)) as [->|Hpos]; [done|].
      apply Z.log2_lt_pow2; lia. }
    by rewrite (proj2 (Z.leb_le _ _)) by lia.
Qed.

(** Away from the largest offsets the range is the one the query asks for. *)
Lemma range_exact v :
  0 <= v_offset v → 1 <= v_limit v → v_offset v + v_limit v <= 2 ^ 53 →
  js_add (v_offset v) (v_limit v) = v_offset v + v_limit v ∧
  range_to v - v_offset v + 1 = v_limit v.
Proof.
  intros Ho Hl Hsum. unfold range_to, js_sub, js_add.
  rewrite (to_double_exact (v_offset v + v_limit v)) by lia.
  rewrite to_double_exact by lia. lia.
Qed.

(** The rows of a page all arrive, each with its user as an object. *)
Lemma page_selected d v :
  fst <$> omap (embed d) (page_rows d v) = page_rows d v ∧
  Forall (λ sel, Chat.format_message sel = None) (omap (embed d) (page_rows d v)).
Proof.
  apply omap_embed, Forall_forall. intros m Hm.
  by apply elem_of_page_rows in Hm as [_ [? _]].
Qed.

(** X8. [GET /messages], the fetch answering.  A query that the schema
    turns down is answered 400.  A valid one is answered 200 only when no row
    lies in the range it asks for, with an empty page, [hasMore] false and
    [nextOffset] the number [offset + limit]; as soon as the range holds a
    row the handler throws at [msg.users[0].id] and the answer is the 500
    [Internal server error].  While [offset + limit] is at most [2 ^ 53] the
    range is that of [limit] rows from [offset] on and [nextOffset] is the
    exact sum. *)
Theorem get_messages_page d q :
  match messagesQuerySchema_validate q with
  | inl e => get_messages d q Answered = BadQuery e
  | inr v =>
      get_messages d q Answered
      = (if decide (page_rows d v = [])
         then Page [] false (js_add (v_offset v) (v_limit v))
         else Failure "Internal server error") ∧
      (v_offset v + v_limit v <= 2 ^ 53 →
         js_add (v_offset v) (v_limit v) = v_offset v + v_limit v ∧
         page_rows d v
         = take (Z.to_nat (v_limit v))
             (drop (Z.to_nat (v_offset v))
                (order_by_created_at_desc
                   (filter (listed d (v_coinId v) (v_before v)) (chat_messages d)))))
  end.
Proof.
  destruct (messagesQuerySchema_validate q) as [e|v] eqn:Hv.
  - unfold get_messages. by rewrite Hv.
  - destruct (messages_query_valid q v Hv) as (_ & _ & Hlimit & Hoffset & _).
    destruct (page_selected d v) as [Hrows Hnone]. split.
    + unfold get_messages. rewrite Hv. cbv zeta.
      destruct (decide (page_rows d v = [])) as [Hnil|Hsome].
      * rewrite Hnil. simpl. rewrite bool_decide_eq_false_2; [done|]. lia.
      * rewrite mapM_format_None; [done|done|].
        intros Hnil. apply Hsome. by rewrite <-Hrows, Hnil.
    + intros Hsum. destruct (range_exact v) as [Hnext Hrange]; [lia..|].
      split; [done|]. unfold page_rows. by rewrite Hrange.
Qed.

End chat_routes.

(** At the largest offset that Joi lets through, [nextOffset] is not the
    sum. *)
Example next_offset_rounded :
  ChatRoutes.js_add 9007199254740991 50 = 9007199254741040.
Proof. reflexivity. Qed.

(** The first page of [bitcoin] in the sample table: 500; a page of a coin
    without messages: 200 and empty. *)
Example get_messages_sample :
  ChatRoutes.get_messages Sample.sixty
    (ChatRoutes.mkMessagesQuery (Some "bitcoin") None None None) Db.Answered
    = ChatRoutes.Failure "Internal server error" ∧
  ChatRoutes.get_messages Sample.sixty
    (ChatRoutes.mkMessagesQuery (Some "cardano") (Some 20) None None) Db.Answered
    = ChatRoutes.Page [] false 20.
Proof. vm_compute. split; reflexivity. Qed.

Section chat_routes_writes.
Import Db ChatRoutes.
Implicit Types (d : Database) (m : ChatMessageRow).

(** With [id] a primary key, a row is the only one under its id. *)
Lemma filter_by_id (rows : list ChatMessageRow) m :
  NoDup (msg_id <$> rows) → m ∈ rows →
  filter (λ x, msg_id x = msg_id m) rows = [m].
Proof.
  induction rows as [|a rows IH]; intros Hpk Hm; [by apply elem_of_nil in Hm|].
  rewrite fmap_cons in Hpk. apply NoDup_cons in Hpk as [Hfresh Hpk].
  assert (Hnone : ∀ x, x ∈ rows → msg_id x ≠ msg_id a).
  { intros x Hx Heq. apply Hfresh. rewrite <-Heq. apply list_elem_of_fmap. by exists x. }
  rewrite filter_cons. apply elem_of_cons in Hm as [->|Hm].
  - rewrite decide_True by done. f_equal.
    assert (Hempty : ∀ x, x ∉ filter (λ x, msg_id x = msg_id a) rows).
    { intros x Hx. apply list_elem_of_filter in Hx as [Heq Hx]. by apply (Hnone x). }
    destruct (filter _ rows) as [|x ?]; [done|]. exfalso. apply (Hempty x), list_elem_of_here.
  - rewrite decide_False; [by apply IH|]. intros Heq. by apply (Hnone m).
Qed.

(** X12. [DELETE /messages/:messageId] answers 200 only to the author: the
    id then names one row, the caller is the user it belongs to, and just the
    rows of that id are removed, so that no row of that id is left to be
    served; with any other answer the table is unchanged. *)
Theorem delete_message_effect d user_sub messageId lookup fetch del :
  let result := delete_message d user_sub messageId lookup fetch del in
  (status (fst result) = 200%nat →
     ∃ m auth0Sub,
       user_sub = Some auth0Sub ∧
       filter (λ x, msg_id x = messageId) (chat_messages d) = [m] ∧
       getUserIdFromSub d lookup auth0Sub = Some (user_id m) ∧
       chat_messages (snd result)
         = filter (λ x, msg_id x ≠ messageId) (chat_messages d) ∧
       users (snd result) = users d ∧
       (∀ x, x ∈ chat_messages (snd result) ↔ x ∈ chat_messages d ∧ msg_id x ≠ messageId)) ∧
  (status (fst result) ≠ 200%nat → snd result = d).
Proof.
  intros result. unfold result, delete_message.
  destruct user_sub as [auth0Sub|]; [|by split].
  destruct (Js.truthy auth0Sub); simpl; [|by split].
  destruct (getUserIdFromSub d lookup auth0Sub) as [userId|] eqn:Huser; [|by split].
  destruct fetch; try (by split).
  destruct (filter _ (chat_messages d)) as [|m [|]] eqn:Hrow; try (by split).
  case_bool_decide as Hauthor; [by split|].
  destruct del; try (by split). simpl. split; [|done]. intros _.
  exists m, auth0Sub.
  split; [done|]. split; [done|]. split; [by rewrite Hauthor|]. split; [done|].
  split; [done|]. intros x. rewrite list_elem_of_filter. tauto.
Qed.

(** X13. A user who asks to delete a message of somebody else is answered
    403, and the table is left as it was. *)
Theorem delete_message_forbidden d auth0Sub userId m lookup del :
  NoDup (msg_id <$> chat_messages d) → m ∈ chat_messages d →
  auth0Sub ≠ "" → getUserIdFromSub d lookup auth0Sub = Some userId →
  user_id m ≠ userId →
  delete_message d (Some auth0Sub) (msg_id m) lookup Answered del
  = ({| status := 403; text := "You can only delete your own messages" |}, d).
Proof.
  intros Hpk Hm Hsub Huser Hother. unfold delete_message.
  rewrite (truthy_true _ Hsub), Huser. simpl.
  rewrite (filter_by_id _ _ Hpk Hm). by rewrite bool_decide_eq_true_2.
Qed.

(** What [messageSchema] lets through. *)
Lemma messageSchema_valid (b : Rest.MessageBody) (coinId content : string) :
  Rest.messageSchema_validate b = inr (coinId, content) ↔
  Rest.coinId b = Some coinId ∧ coinId ≠ "" ∧
  Rest.content b = Some content ∧ (1 ≤ String.length content ≤ 1000)%nat.
Proof.
  unfold Rest.messageSchema_validate, Rest.joi_string, Rest.below_min, Rest.above_max.
  split.
  - destruct (Rest.coinId b) as [c|]; [|done].
    destruct (String.eqb c "") eqn:Hc; [done|]. apply String.eqb_neq in Hc.
    destruct (Rest.content b) as [t|]; [|done].
    destruct (String.eqb t ""); [done|].
    destruct (String.length t <? 1)%nat eqn:Hmin; [done|].
    destruct (1000 <? String.length t)%nat eqn:Hmax; [done|].
    intros [= <- <-]. apply Nat.ltb_ge in Hmin, Hmax. done.
  - intros (-> & Hc & -> & Hmin & Hmax).
    apply String.eqb_neq in Hc. rewrite Hc.
    assert (String.eqb content "" = false) as ->.
    { apply String.eqb_neq. intros ->. simpl in Hmin. lia. }
    rewrite (proj2 (Nat.ltb_ge _ _)) by done.
    by rewrite (proj2 (Nat.ltb_ge _ _)) by done.
Qed.

(** X14. [POST /messages] never answers 201.  It writes exactly when the
    request has a user, a coin id and a content of 1 to 1000 characters, the
    caller is a known user, the coin is in [coins] and the insert succeeds:
    one row is then appended, with the trimmed content, and the answer is the
    500 [Internal server error] of the handler's [catch], reached at
    [newMessage.users[0].id].  In every other case the database is
    unchanged. *)
Theorem post_messages_effect d req lookup coin ins :
  let result := Rest.post_messages d req lookup coin ins in
  let accepted (auth0Sub coinId content userId : string) :=
    Rest.user_sub req = Some auth0Sub ∧ auth0Sub ≠ "" ∧
    Rest.coinId (Rest.body req) = Some coinId ∧ coinId ≠ "" ∧
    Rest.content (Rest.body req) = Some content ∧
    (1 ≤ String.length content ≤ 1000)%nat ∧
    getUserIdFromSub d lookup auth0Sub = Some userId ∧
    coin = Answered ∧ coinId ∈ coins d in
  Rest.status (fst result) ≠ 201%nat ∧
  (∀ auth0Sub coinId content userId new_id now,
     accepted auth0Sub coinId content userId → ins = Inserted new_id now →
     result = (Rest.mkResponse 500 (Rest.ErrorText "Internal server error"),
               insert_message d (new_row new_id coinId userId (Js.trim content) now))) ∧
  (snd result ≠ d →
     ∃ auth0Sub coinId content userId new_id now,
       accepted auth0Sub coinId content userId ∧ ins = Inserted new_id now).
Proof.
  intros result accepted. split; [|split].
  - unfold result, Rest.post_messages.
    repeat case_match; simpl; try done.
    match goal with
    | He : embed _ _ = Some ?sel, Hf : Chat.format_message ?sel = Some _ |- _ =>
        rewrite (embed_format _ _ _ He) in Hf; discriminate
    end.
  - intros auth0Sub coinId content userId new_id now
      (Hsub & Hne & Hc & Hcne & Ht & Hlen & Huser & -> & Hcoin) ->.
    pose proof (joined_users_known _ _ _ _ new_id coinId (Js.trim content) now Huser) as Hjoin.
    unfold result, Rest.post_messages.
    rewrite Hsub, (truthy_true _ Hne). simpl.
    rewrite (proj2 (messageSchema_valid (Rest.body req) coinId content)) by done.
    rewrite Huser, bool_decide_eq_true_2 by done. cbv zeta.
    destruct (embed_joined _ _ Hjoin) as [u ->]. done.
  - unfold result, Rest.post_messages.
    destruct (Rest.user_sub req) as [auth0Sub|] eqn:Hsub; [|done].
    destruct (Js.truthy auth0Sub) eqn:Hne; simpl; [|done].
    destruct (Rest.messageSchema_validate (Rest.body req)) as [e|[coinId content]] eqn:Hv;
      [done|].
    destruct (getUserIdFromSub d lookup auth0Sub) as [userId|] eqn:Huser; [|done].
    destruct coin; try done.
    case_bool_decide as Hcoin; [|done].
    destruct ins as [new_id now| |]; try done. intros _.
    apply messageSchema_valid in Hv as (Hc & Hcne & Ht & Hlen).
    exists auth0Sub, coinId, content, userId, new_id, now.
    split; [|done]. split; [done|]. split; [by intros ->|]. done.
Qed.

End chat_routes_writes.

(** Alice asks to delete Bob's message [bob-1]: 403. *)
Lemma delete_message_forbidden_witness :
  ChatRoutes.delete_message Fixtures.tidy (Some "auth0|alice") "bob-1"
    Db.Answered Db.Answered Db.Answered
  = ({| ChatRoutes.status := 403; ChatRoutes.text := "You can only delete your own messages" |},
     Fixtures.tidy).
Proof.
  apply (delete_message_forbidden Fixtures.tidy "auth0|alice" "u-alice"
           (Db.mkMsg "bob-1" "bitcoin" "u-bob" "hi" 4 false)).
  - apply (bool_decide_unpack _). vm_compute. exact I.
  - apply list_elem_of_In. vm_compute. tauto.
  - discriminate.
  - reflexivity.
  - discriminate.
Defined.

(** Bob deletes his own message: 200, and the table holds Alice's three. *)
Lemma delete_message_effect_witness :
  Db.msg_id <$> Db.chat_messages
    (snd (ChatRoutes.delete_message Fixtures.tidy (Some "auth0|bob") "bob-1"
            Db.Answered Db.Answered Db.Answered))
  = ["bitcoin-1"; "bitcoin-2"; "bitcoin-3"].
Proof.
  destruct (delete_message_effect Fixtures.tidy (Some "auth0|bob") "bob-1"
              Db.Answered Db.Answered Db.Answered) as [Hok _].
  destruct Hok as (m & sub & _ & _ & _ & Hrows & _); [reflexivity|].
  rewrite Hrows. vm_compute. reflexivity.
Defined.

(** Alice posts [" gm "] to [bitcoin]: the row is written and the answer is
    500. *)
Lemma post_messages_effect_witness :
  Rest.post_messages Fixtures.tidy
    (Rest.mkRequest (Some "auth0|alice") (Rest.mkBody (Some "bitcoin") (Some " gm ")))
    Db.Answered Db.Answered (Db.Inserted "m1" 9)
  = (Rest.mkResponse 500 (Rest.ErrorText "Internal server error"),
     Db.insert_message Fixtures.tidy (Db.new_row "m1" "bitcoin" "u-alice" "gm" 9)).
Proof.
  destruct (post_messages_effect Fixtures.tidy
              (Rest.mkRequest (Some "auth0|alice") (Rest.mkBody (Some "bitcoin") (Some " gm ")))
              Db.Answered Db.Answered (Db.Inserted "m1" 9)) as (_ & Hwrites & _).
  apply (Hwrites "auth0|alice" "bitcoin" " gm " "u-alice" "m1" 9); [|reflexivity].
  split; [reflexivity|]. split; [discriminate|]. split; [reflexivity|].
  split; [discriminate|]. split; [reflexivity|]. split; [vm_compute; lia|].
  split; [reflexivity|]. split; [reflexivity|].
  apply (bool_decide_unpack _). vm_compute. exact I.
Defined.

(* ===================================================================== *)
(** * More on the chat handlers *)
(* ===================================================================== *)

Section trimming.

Lemma trimStart_head (s : string) :
  Js.trimStart s = "" ∨
  ∃ a rest, Js.trimStart s = String a rest ∧ Js.is_white_space a = false.
Proof.
  induction s as [|a s IH]; [by left|]. simpl.
  destruct (Js.is_white_space a) eqn:Ha; [done|]. right. by exists a, s.
Qed.

Lemma trimEnd_keeps_head (a : ascii) (rest : string) :
  Js.is_white_space a = false → Js.trimEnd (String a rest) = String a (Js.trimEnd rest).
Proof. intros Ha. simpl. rewrite Ha. by destruct (Js.trimEnd rest). Qed.

Lemma trimEnd_idempotent (s : string) : Js.trimEnd (Js.trimEnd s) = Js.trimEnd s.
Proof.
  induction s as [|a s IH]; [done|]. simpl.
  destruct (Js.trimEnd s) as [|b kept] eqn:Hkept.
  - destruct (Js.is_white_space a) eqn:Ha; [done|]. simpl. by rewrite Ha.
  - change (Js.trimEnd (String a (String b kept)) = String a (String b kept)).
    simpl. simpl in IH. by rewrite IH.
Qed.

(** Trimming a trimmed string changes nothing. *)
Lemma trim_idempotent (s : string) : Js.trim (Js.trim s) = Js.trim s.
Proof.
  unfold Js.trim. destruct (trimStart_head s) as [->|(a & rest & -> & Ha)]; [done|].
  rewrite (trimEnd_keeps_head _ _ Ha). simpl Js.trimStart. rewrite Ha.
  rewrite <-(trimEnd_keeps_head _ _ Ha). apply trimEnd_idempotent.
Qed.

Lemma length_trimStart (s : string) : (String.length (Js.trimStart s) ≤ String.length s)%nat.
Proof. induction s as [|a s IH]; simpl; [done|]. destruct (Js.is_white_space a); simpl; lia. Qed.

Lemma length_trimEnd (s : string) : (String.length (Js.trimEnd s) ≤ String.length s)%nat.
Proof.
  induction s as [|a s IH]; simpl; [done|].
  destruct (Js.trimEnd s); [destruct (Js.is_white_space a)|]; simpl in *; lia.
Qed.

(** Trimming never lengthens. *)
Lemma length_trim (s : string) : (String.length (Js.trim s) ≤ String.length s)%nat.
Proof. unfold Js.trim. etrans; [apply length_trimEnd|apply length_trimStart]. Qed.

Lemma truthy_inv (s : string) : Js.truthy s = true → s ≠ "".
Proof. unfold Js.truthy. intros Hs. by apply negb_true_iff, String.eqb_neq in Hs. Qed.

End trimming.

Section handlers_more.
Import Db Chat.
Implicit Types (srv : Server) (sid coinId message : string) (sk : Socket).

(** X15. The name shown for a user is never empty: it is the user's name,
    else what precedes the first [@] of the email, else [Anonymous]. *)
Theorem username_never_empty (u : SocketUser) :
  username u ≠ "" ∧
  (∀ n, name u = Some n → n ≠ "" → username u = n) ∧
  (name u = None ∨ name u = Some "" →
   email u = None ∨ (∃ e, email u = Some e ∧ Js.before_at e = "") →
   username u = "Anonymous").
Proof.
  unfold username, or_else. split; [|split].
  - destruct (name u) as [n|]; [destruct (Js.truthy n) eqn:Hn; [by apply truthy_inv|]|];
      (destruct (email u) as [e|]; simpl;
       [destruct (Js.truthy (Js.before_at e)) eqn:He; [by apply truthy_inv|done]|done]).
  - intros n -> Hn. by rewrite (truthy_true _ Hn).
  - intros Hname Hemail.
    assert (Hn : match name u with Some s => if Js.truthy s then s else "x" | None => "x" end = "x").
    { destruct Hname as [->| ->]; done. }
    destruct Hemail as [->|(e & -> & He)]; simpl; rewrite ?He;
      destruct Hname as [->| ->]; done.
Qed.

(** What one event does to the database: nothing, or the row of a user at
    a connection, or the row of a message. *)
Lemma step_database srv ev :
  db (fst (step srv ev)) = db srv ∨
  (∃ sid u new_id,
     ev = Connect sid u new_id ∧
     db (fst (step srv ev))
       = with_users (db srv) (users (db srv) ++ [new_user u new_id])) ∨
  (∃ new_id coinId userId message now,
     db (fst (step srv ev))
       = insert_message (db srv) (new_row new_id coinId userId (Js.trim message) now) ∧
     Js.trim message ≠ "" ∧ (String.length message ≤ 500)%nat).
Proof.
  destruct ev as [sid u new_id|sid c fetch|sid c msg lookup ins|sid c|sid]; simpl.
  - unfold connect, ensureUserExists.
    destruct (filter _ (users (db srv))) as [|r [|]]; simpl; [|by left|];
      right; left; by exists sid, u, new_id.
  - left. rewrite join_room_server. by repeat case_match.
  - unfold send_message.
    destruct (sockets srv !! sid) as [sk|]; [|by left].
    destruct (negb (Js.truthy c) || negb (Js.truthy (Js.trim msg))) eqn:Hreq; [by left|].
    destruct (500 <? String.length msg)%nat eqn:Hlen; [by left|].
    destruct (getUserIdFromSub _ _ _) as [userId|]; [|by left].
    destruct ins as [new_id now| |]; [|by left..].
    right. right. exists new_id, c, userId, msg, now.
    apply orb_false_iff in Hreq as [_ Hbody]. apply negb_false_iff, truthy_inv in Hbody.
    apply Nat.ltb_ge in Hlen. split; [|done]. cbv zeta.
    destruct (embed _ _); [|done]. by destruct (format_message _).
  - left. rewrite leave_room_server. by repeat case_match.
  - by left.
Qed.

(** X17. Whatever the sockets do, the events of the [/chat] namespace only
    ever append to the tables: after any sequence of events [chat_messages]
    is the old table followed by the rows written since, each of them live,
    with a content of 1 to 500 characters that is already trimmed; [users] is
    the old table followed by the rows that [ensureUserExists] inserted at
    connections of the sequence; there is at most one new row per event, and
    [coins] is untouched. *)
Theorem socket_events_only_append srv evs :
  ∃ added joined,
    chat_messages (db (run srv evs)) = chat_messages (db srv) ++ added ∧
    Forall (λ m, is_deleted m = false ∧ content m ≠ "" ∧
                 (String.length (content m) ≤ 500)%nat ∧
                 Js.trim (content m) = content m) added ∧
    users (db (run srv evs)) = users (db srv) ++ joined ∧
    Forall (λ r, ∃ sid u new_id, Connect sid u new_id ∈ evs ∧ r = new_user u new_id) joined ∧
    (length added + length joined ≤ length evs)%nat ∧
    coins (db (run srv evs)) = coins (db srv).
Proof.
  revert srv. induction evs as [|ev evs IH]; intros srv.
  - exists [], []. by rewrite !app_nil_r.
  - simpl.
    destruct (IH (fst (step srv ev)))
      as (added & joined & Hrows & Hall & Husers & Hjoined & Hlen & Hcoins).
    change (foldl (λ s e, (step s e).1) (step srv ev).1 evs)
      with (run (fst (step srv ev)) evs).
    assert (Hlater : Forall (λ r, ∃ sid u new_id,
                          Connect sid u new_id ∈ ev :: evs ∧ r = new_user u new_id) joined).
    { eapply Forall_impl; [exact Hjoined|]. intros r (sid & u & new_id & Hin & ->).
      exists sid, u, new_id. split; [by apply list_elem_of_further|done]. }
    destruct (step_database srv ev)
      as [Hsame|[(sid & u & new_id & -> & Hconn)
                |(new_id & c & userId & msg & now & Hins & Hbody & Hmsg)]].
    + exists added, joined. rewrite Hrows, Husers, Hcoins, Hsame.
      split; [done|]. split; [done|]. split; [done|]. split; [done|]. split; [lia|done].
    + exists added, (new_user u new_id :: joined).
      rewrite Hrows, Husers, Hcoins, Hconn. simpl. rewrite <-app_assoc. simpl.
      split; [done|]. split; [done|]. split; [done|]. split; [|split; [lia|done]].
      constructor; [|done]. exists sid, u, new_id. split; [apply list_elem_of_here|done].
    + exists (new_row new_id c userId (Js.trim msg) now :: added), joined.
      rewrite Hrows, Husers, Hcoins, Hins. simpl. rewrite <-app_assoc. simpl.
      split; [done|]. split; [|split; [done|split; [done|split; [lia|done]]]].
      constructor; [|done]. simpl. split; [done|]. split; [done|]. split.
      * etrans; [apply length_trim|done].
      * apply trim_idempotent.
Qed.

End handlers_more.

(** A first connection of Carol to the sample server adds her row. *)
Example connect_adds_user :
  Db.users (Chat.db (Chat.run Sample.two_in_bitcoin
                       [Chat.Connect "s4"
                          (Chat.mkSocketUser "auth0|carol" (Some "carol@example.org") None)
                          "u-carol";
                        Chat.Connect "s5" Sample.alice_socket "u-other"]))
  = [Sample.alice; Sample.bob;
     Db.mkUser "u-carol" "auth0|carol" "carol" "carol@example.org"].
Proof. vm_compute. reflexivity. Qed.

(* ===================================================================== *)
(** * The clients against the server's listeners *)
(* ===================================================================== *)

Section wire.
Import Db Chat Wire.
Implicit Types (srv : Server) (sid : string) (sk : Socket) (data : Data).

Lemma on_event_join_room srv sid data fetch lookup ins :
  on_event srv sid "join_room" data fetch lookup ins
  = join_room srv sid (default "" (field data "coinId")) fetch.
Proof. unfold on_event. by rewrite decide_True. Qed.

Lemma on_event_send_message srv sid data fetch lookup ins :
  on_event srv sid "send_message" data fetch lookup ins
  = send_message srv sid (default "" (field data "coinId"))
      (default "" (field data "message")) lookup ins.
Proof. unfold on_event. rewrite decide_False by discriminate. by rewrite decide_True. Qed.

Lemma on_event_leave_room srv sid data fetch lookup ins :
  on_event srv sid "leave_room" data fetch lookup ins
  = leave_room srv sid (default "" (field data "coinId")).
Proof. unfold on_event. rewrite !decide_False by discriminate. by rewrite decide_True. Qed.

Lemma on_event_unheard srv sid event data fetch lookup ins :
  event ≠ "join_room" → event ≠ "send_message" → event ≠ "leave_room" →
  on_event srv sid event data fetch lookup ins = (srv, []).
Proof. intros. unfold on_event. by rewrite !decide_False. Qed.

Lemma field_coin_payload (c : string) : field (coin_payload c) "coinId" = Some c.
Proof. unfold field, coin_payload. by rewrite lookup_singleton_eq. Qed.

Lemma inbox_app (l k : list (string * ServerEvent)) sid :
  inbox (l ++ k) sid = inbox l sid ++ inbox k sid.
Proof. unfold inbox. by rewrite filter_app, fmap_app. Qed.

Lemma inbox_deliveries srv es sid : inbox (deliveries srv es) sid = received srv es sid.
Proof. reflexivity. Qed.

(** X18. The room switch of the chat page, [leave_room] of the old room and
    then [join_room] of the new one: the socket ends up in the new room and
    not in the old one, nobody else moves, and every other member of the old
    room receives one [user_left], followed by [user_joined] only if it is
    in the new room as well and the history query answered without a row
    (with a row the handler throws before it announces the socket). *)
Theorem chat_page_switches_rooms srv sid sk (a b : string) fetch lookup ins :
  sockets srv !! sid = Some sk → a ≠ "" → b ≠ "" → a ≠ b →
  let out := play srv sid (Chat_joinRoom (Some a) b) fetch lookup ins in
  (sid ∉ members (fst out) a) ∧ (sid ∈ members (fst out) b) ∧
  (∀ other room, other ≠ sid →
     other ∈ members (fst out) room ↔ other ∈ members srv room) ∧
  (∀ other, other ≠ sid → other ∈ members srv a →
     inbox (snd out) other
     = EvUserLeft (username (user sk))
       :: match fetch with
          | Answered => if decide (recent_rows (db srv) b = [] ∧ other ∈ members srv b)
                        then [EvUserJoined (username (user sk))] else []
          | _ => []
          end).
Proof.
  intros Hsk Ha Hb Hab out.
  set (sk1 := with_rooms sk (rooms sk ∖ {[a]})).
  set (srv1 := with_sockets srv (<[sid := sk1]> (sockets srv))).
  set (sk2 := with_rooms sk1 ({[b]} ∪ (rooms sk1 ∩ {[sid]}))).
  set (srv2 := with_sockets srv1 (<[sid := sk2]> (sockets srv1))).
  assert (Hsk1 : sockets srv1 !! sid = Some sk1) by apply lookup_insert_eq.
  assert (Hout : out = (srv2, deliveries srv1 [ToRoomExcept a sid (EvUserLeft (username (user sk)))]
                         ++ deliveries srv2 (snd (join_room srv1 sid b fetch)) ++ [])).
  { unfold out, Chat_joinRoom. rewrite decide_False by congruence.
    rewrite (truthy_true _ Ha). simpl.
    rewrite on_event_leave_room, field_coin_payload. simpl.
    rewrite (leave_room_connected _ _ _ _ Hsk Ha). simpl. fold sk1. fold srv1.
    rewrite on_event_join_room, field_coin_payload. simpl.
    assert (Hfst : fst (join_room srv1 sid b fetch) = srv2).
    { by rewrite join_room_server, Hsk1, (truthy_true _ Hb). }
    by rewrite Hfst. }
  assert (Hothers1 : ∀ other room, other ≠ sid →
            other ∈ members srv1 room ↔ other ∈ members srv room).
  { intros other room Hne. unfold srv1. rewrite members_after_insert.
    split; [intros [[? _]|[_ ?]]; done | intros ?; by right]. }
  assert (Hothers2 : ∀ other room, other ≠ sid →
            other ∈ members srv2 room ↔ other ∈ members srv room).
  { intros other room Hne. unfold srv2. rewrite members_after_insert, <-Hothers1 by done.
    split; [intros [[? _]|[_ ?]]; done | intros ?; by right]. }
  rewrite Hout. cbn [fst snd]. split; [|split; [|split; [done|]]].
  - unfold srv2. rewrite members_after_insert. simpl. intros [[_ Hin]|[? _]]; [|done].
    rewrite elem_of_union, elem_of_intersection, elem_of_difference, !elem_of_singleton in Hin.
    destruct Hin as [?|[[_ ?] ?]]; congruence.
  - unfold srv2. rewrite members_after_insert. simpl. left. split; [done|].
    apply elem_of_union_l. by apply elem_of_singleton.
  - intros other Hne Hin.
    rewrite inbox_app, app_nil_r, !inbox_deliveries, received_to_room_except.
    rewrite decide_True by (split; [by apply Hothers1|done]). simpl. f_equal.
    destruct fetch.
    + rewrite (join_room_answered srv1 sid sk1 b Hsk1 Hb).
      change (db srv1) with (db srv).
      destruct (decide (recent_rows (db srv) b = [])) as [Hnil|Hrows].
      * rewrite received_join_room, decide_False by done.
        destruct (decide (other ∈ members srv b)) as [Hinb|Hinb].
        -- rewrite !decide_True; [done|done|]. by apply Hothers2.
        -- rewrite !decide_False; [done|tauto|]. intros ?. by apply Hinb, Hothers2.
      * rewrite received_to_socket, !decide_False; [done|tauto|done].
    + unfold join_room. rewrite Hsk1, (truthy_true _ Hb). simpl.
      by rewrite received_to_socket, decide_False.
    + unfold join_room. rewrite Hsk1, (truthy_true _ Hb). simpl.
      by rewrite received_to_socket, decide_False.
Qed.

Lemma play_app srv sid (l k : list (string * Data)) fetch lookup ins :
  play srv sid (l ++ k) fetch lookup ins
  = let first := play srv sid l fetch lookup ins in
    let second := play (fst first) sid k fetch lookup ins in
    (fst second, snd first ++ snd second).
Proof.
  revert srv. induction l as [|[event data] l IH]; intros srv; simpl.
  - by destruct (play srv sid k fetch lookup ins).
  - rewrite IH. simpl. by rewrite app_assoc.
Qed.

Lemma play_unheard srv sid event data fetch lookup ins :
  event ≠ "join_room" → event ≠ "send_message" → event ≠ "leave_room" →
  play srv sid [(event, data)] fetch lookup ins = (srv, []).
Proof. intros. unfold play. by rewrite on_event_unheard. Qed.

(** X19. The chat of the coin page never reaches the server: what
    [CoinDetails.tsx] emits, [joinRoom] with a bare coin id and [sendMessage],
    are names the [/chat] namespace has no listener for, so the socket joins
    no room, nothing is stored and nothing is sent, whatever the coin and the
    text. *)
Theorem coin_page_events_unheard srv sid (c : option string) (text : string)
    fetch lookup ins :
  play srv sid (CoinDetails_joinChatRoom c) fetch lookup ins = (srv, []) ∧
  play srv sid (CoinDetails_sendMessage c text) fetch lookup ins = (srv, []) ∧
  play srv sid (CoinDetails_joinChatRoom c ++ CoinDetails_sendMessage c text)
    fetch lookup ins = (srv, []).
Proof.
  assert (Hjoin : play srv sid (CoinDetails_joinChatRoom c) fetch lookup ins = (srv, [])).
  { unfold CoinDetails_joinChatRoom. destruct c as [c|]; [|done].
    destruct (Js.truthy c); [|done]. by apply play_unheard. }
  assert (Hsend : play srv sid (CoinDetails_sendMessage c text) fetch lookup ins = (srv, [])).
  { unfold CoinDetails_sendMessage. destruct c as [c|]; [|done].
    destruct (negb _ || negb _); [done|]. by apply play_unheard. }
  split; [done|]. split; [done|].
  rewrite play_app, Hjoin. cbn [fst snd]. by rewrite Hsend.
Qed.

(** X20. [SocketManager] and the server.  Its [joinCoinChat],
    [leaveCoinChat] and [setTyping] emit names without a listener: the server
    is unchanged and nothing is sent.  Its [sendMessage] does reach
    [send_message], with the text under [content] where the handler reads
    [message]: whatever the text, the socket is told that coin id and message
    are required, and nothing is stored or broadcast. *)
Theorem socket_manager_events srv sid sk (coinId text : string)
    (typing : bool) fetch lookup ins :
  sockets srv !! sid = Some sk →
  play srv sid (joinCoinChat coinId) fetch lookup ins = (srv, []) ∧
  play srv sid (leaveCoinChat coinId) fetch lookup ins = (srv, []) ∧
  play srv sid (setTyping coinId typing) fetch lookup ins = (srv, []) ∧
  play srv sid (sendMessage coinId text) fetch lookup ins
    = (srv, [(sid, EvError "Coin ID and message are required")]).
Proof.
  intros Hsk. split; [|split; [|split]].
  - by apply play_unheard.
  - by apply play_unheard.
  - by apply play_unheard.
  - unfold sendMessage, play. rewrite on_event_send_message.
    assert (Hmessage : field (Object {[ "coinId" := AString coinId; "content" := AString text ]})
                         "message" = None).
    { unfold field. rewrite lookup_insert_ne by done. by rewrite lookup_singleton_ne. }
    rewrite Hmessage. simpl. unfold send_message. rewrite Hsk.
    by rewrite orb_true_r.
Qed.

(** X21. What the chat page sends is stored, and nobody receives it: for
    a selected room and a text that is not blank and, trimmed, has at most
    500 characters, [sendMessage] leads to one new row whose content is the
    trimmed text; the handler then fails to format the row, so that the
    sender receives [Failed to send message] and the other sockets nothing;
    the typing notice that follows has no listener. *)
Theorem chat_page_message_is_stored srv sid sk (room text : string) fetch lookup
    new_id now userId :
  sockets srv !! sid = Some sk → room ≠ "" →
  Js.trim text ≠ "" → (String.length (Js.trim text) ≤ 500)%nat →
  getUserIdFromSub (db srv) lookup (sub (user sk)) = Some userId →
  let out := play srv sid (Chat_sendMessage (Some room) text) fetch lookup
               (Inserted new_id now) in
  chat_messages (db (fst out))
    = chat_messages (db srv) ++ [new_row new_id room userId (Js.trim text) now] ∧
  sockets (fst out) = sockets srv ∧
  inbox (snd out) sid = [EvError "Failed to send message"] ∧
  (∀ other, other ≠ sid → inbox (snd out) other = []).
Proof.
  intros Hsk Hroom Htext Hlen Huser out.
  assert (Hfields : field (Object {[ "coinId" := AString room;
                                     "message" := AString (Js.trim text) ]}) "coinId" = Some room ∧
                    field (Object {[ "coinId" := AString room;
                                     "message" := AString (Js.trim text) ]}) "message"
                      = Some (Js.trim text)).
  { unfold field. rewrite lookup_insert_eq, lookup_insert_ne by done.
    by rewrite lookup_singleton_eq. }
  destruct Hfields as [Hc Hm].
  assert (Htrim : Js.trim (Js.trim text) ≠ "") by by rewrite trim_idempotent.
  pose proof (send_message_validated srv sid sk room (Js.trim text) lookup
                (Inserted new_id now) userId Hsk Hroom Htrim Hlen Huser) as Hsend.
  rewrite trim_idempotent in Hsend.
  unfold out, Chat_sendMessage. rewrite (truthy_true _ Htext), (truthy_true _ Hroom).
  cbn [negb orb]. unfold play. rewrite on_event_send_message, Hc, Hm.
  change (default "" (Some room)) with room.
  change (default "" (Some (Js.trim text))) with (Js.trim text).
  rewrite Hsend. cbn [fst snd].
  rewrite on_event_unheard by done. cbn [fst snd].
  split; [done|]. split; [done|].
  rewrite !app_nil_r, !inbox_deliveries. split.
  - by rewrite received_to_socket, decide_True.
  - intros other Hother. setoid_rewrite inbox_deliveries.
    by rewrite received_to_socket, decide_False.
Qed.

End wire.

(** A user without a usable name, whose email has nothing before the [@]. *)
Lemma username_never_empty_witness :
  Chat.username (Chat.mkSocketUser "auth0|x" (Some "@example.org") (Some "")) = "Anonymous".
Proof.
  destruct (username_never_empty
              (Chat.mkSocketUser "auth0|x" (Some "@example.org") (Some "")))
    as (_ & _ & Hanonymous).
  apply Hanonymous.
  - right. reflexivity.
  - right. exists "@example.org". split; [reflexivity|]. vm_compute. reflexivity.
Defined.

(** Alice moves from [bitcoin] to [ethereum] on the chat page: Bob, who
    stays in [bitcoin], receives her [user_left] and nothing else. *)
Lemma chat_page_switches_rooms_witness :
  Wire.inbox (snd (Wire.play Sample.two_in_bitcoin "s1"
                     (Wire.Chat_joinRoom (Some "bitcoin") "ethereum")
                     Db.Answered Db.Answered Db.InsertErrored)) "s2"
  = [Chat.EvUserLeft "Alice"].
Proof.
  destruct (chat_page_switches_rooms Sample.two_in_bitcoin "s1"
              (Chat.mkSocket Sample.alice_socket {["bitcoin"; "s1"]}) "bitcoin" "ethereum"
              Db.Answered Db.Answered Db.InsertErrored)
    as (_ & _ & _ & Hinbox).
  - vm_compute. reflexivity.
  - discriminate.
  - discriminate.
  - discriminate.
  - rewrite Hinbox.
    + vm_compute. reflexivity.
    + discriminate.
    + apply (bool_decide_unpack _). vm_compute. exact I.
Defined.

(** [SocketManager.sendMessage("bitcoin", "hello")] from Alice's socket. *)
Lemma socket_manager_events_witness :
  Wire.play Sample.two_in_bitcoin "s1" (Wire.sendMessage "bitcoin" "hello")
    Db.Answered Db.Answered (Db.Inserted "m-new" 500)
  = (Sample.two_in_bitcoin, [("s1", Chat.EvError "Coin ID and message are required")]).
Proof.
  destruct (socket_manager_events Sample.two_in_bitcoin "s1"
              (Chat.mkSocket Sample.alice_socket {["bitcoin"; "s1"]}) "bitcoin" "hello"
              false Db.Answered Db.Answered (Db.Inserted "m-new" 500))
    as (_ & _ & _ & Hsend).
  - vm_compute. reflexivity.
  - exact Hsend.
Defined.

(** Alice types ["  gm  "] on the chat page of [bitcoin]: the row ["gm"] is
    stored, Bob receives nothing and she receives the error. *)
Lemma chat_page_message_is_stored_witness :
  let out := Wire.play Sample.two_in_bitcoin "s1"
               (Wire.Chat_sendMessage (Some "bitcoin") "  gm  ")
               Db.Answered Db.Answered (Db.Inserted "m-new" 500) in
  Db.chat_messages (Chat.db (fst out))
    = Db.chat_messages (Chat.db Sample.two_in_bitcoin)
      ++ [Db.new_row "m-new" "bitcoin" "u-alice" "gm" 500] ∧
  Wire.inbox (snd out) "s1" = [Chat.EvError "Failed to send message"] ∧
  Wire.inbox (snd out) "s2" = [].
Proof.
  intros out.
  destruct (chat_page_message_is_stored Sample.two_in_bitcoin "s1"
              (Chat.mkSocket Sample.alice_socket {["bitcoin"; "s1"]}) "bitcoin" "  gm  "
              Db.Answered Db.Answered "m-new" 500 "u-alice")
    as (Hrows & _ & Hself & Hothers).
  - vm_compute. reflexivity.
  - discriminate.
  - vm_compute. discriminate.
  - vm_compute. lia.
  - vm_compute. reflexivity.
  - split; [exact Hrows|]. split; [exact Hself|]. apply Hothers. discriminate.
Defined.

(* ===================================================================== *)
(** * More on the hourly sweep *)
(* ===================================================================== *)

Section sweep_more.
Import Db Chat.
Implicit Types (rows : list ChatMessageRow) (m : ChatMessageRow) (d : Database).

Lemma length_room_not_deleted rows (c : string) :
  (length (filter (λ m, coin_id m = c) (not_deleted rows))
   ≤ length (filter (λ m, coin_id m = c) rows))%nat.
Proof.
  unfold not_deleted. rewrite list_filter_filter.
  rewrite <-(list_filter_filter_l (λ m, coin_id m = c ∧ is_deleted m = false)
               (λ m, coin_id m = c)) by (by intros ? [? _]).
  apply length_filter.
Qed.

(** A live row whose window has at most 50 rows is among the first 50. *)
Lemma top_50_of_small rows m :
  m ∈ rows → is_deleted m = false →
  (length (filter (λ m', coin_id m' = coin_id m) (not_deleted rows)) ≤ 50)%nat →
  in_top_50 rows m.
Proof.
  intros Hm Hlive Hlen. unfold in_top_50. rewrite take_ge.
  - apply elem_of_partition_of. split; [by apply elem_of_not_deleted|done].
  - unfold partition_of. by rewrite order_by_perm.
Qed.

Lemma filter_all {A} (P : A → Prop) `{!∀ x, Decision (P x)} (l : list A) :
  (∀ x, x ∈ l → P x) → filter P l = l.
Proof.
  induction l as [|a l IH]; intros Hall; [done|].
  rewrite filter_cons_True by apply Hall, list_elem_of_here.
  f_equal. apply IH. intros x Hx. by apply Hall, list_elem_of_further.
Qed.

Lemma cleanup_keeps_all rows :
  (∀ m, m ∈ rows → in_top_50 rows m) → cleanup_old_messages rows = rows.
Proof.
  intros Htop. unfold cleanup_old_messages. apply filter_all.
  intros m Hm. apply elem_of_kept_ids. exists m. by split; [apply Htop|].
Qed.

(** X22. The sweep leaves a table alone that has no soft-deleted row and at
    most 50 messages in every room. *)
Theorem cleanup_within_bounds rows :
  (∀ m, m ∈ rows → is_deleted m = false) →
  (∀ c, (length (filter (λ m, coin_id m = c) rows) ≤ 50)%nat) →
  cleanup_old_messages rows = rows.
Proof.
  intros Hlive Hsmall. apply cleanup_keeps_all. intros m Hm.
  apply top_50_of_small; [done|by apply Hlive|].
  etrans; [apply length_room_not_deleted|apply Hsmall].
Qed.

(** X23. With [id] the primary key, the sweep is idempotent: a second run
    right after the first removes nothing. *)
Theorem cleanup_idempotent rows :
  NoDup (msg_id <$> rows) →
  cleanup_old_messages (cleanup_old_messages rows) = cleanup_old_messages rows.
Proof.
  intros Hpk. apply cleanup_keeps_all. intros m Hm.
  pose proof (cleanup_live _ _ Hpk Hm) as Hlive.
  apply top_50_of_small; [done|done|].
  etrans; [apply length_room_not_deleted|].
  rewrite (cleanup_room_perm _ (coin_id m) Hpk), length_take. lia.
Qed.

(** What the history query returns is not changed by the sweep, up to the
    order of rows created at the same time. *)
Lemma recent_rows_cleanup d c :
  NoDup (msg_id <$> chat_messages d) →
  (∀ m, m ∈ chat_messages d → coin_id m = c → is_deleted m = false →
        joined_users d m ≠ []) →
  recent_rows (run_cleanup d) c ≡ₚ recent_rows d c.
Proof.
  intros Hpk Hfk.
  assert (Hbefore : filter (eligible d c) (chat_messages d)
                    = filter (λ m, coin_id m = c) (not_deleted (chat_messages d))).
  { rewrite filter_room_not_deleted. apply filter_ext_elem. intros m Hm.
    unfold eligible. split; [tauto|]. intros [? ?]. split; [by apply Hfk|done]. }
  assert (Hafter : filter (eligible (run_cleanup d) c) (chat_messages (run_cleanup d))
                   = filter (λ m, coin_id m = c) (cleanup_old_messages (chat_messages d))).
  { simpl. apply filter_ext_elem. intros m Hm.
    pose proof (cleanup_live _ _ Hpk Hm) as Hlive.
    apply (elem_of_cleanup _ _ Hpk) in Hm as [Hm _].
    unfold eligible. split; [tauto|]. intros Hc. split; [by apply (Hfk m)|done]. }
  unfold recent_rows. rewrite Hbefore, Hafter.
  fold (partition_of c (not_deleted (chat_messages d))).
  rewrite take_ge.
  - rewrite order_by_perm. by apply cleanup_room_perm.
  - rewrite order_by_perm, (cleanup_room_perm _ c Hpk), length_take. lia.
Qed.

(** X24. The sweep is invisible to a client that joins: where [id] is the
    primary key, every live message of the room has its author and no two of
    them were created at the same time, [join_room] sends after a sweep what
    it would have sent before it. *)
Theorem sweep_keeps_history (srv : Server) (sid c : string) fetch :
  NoDup (msg_id <$> chat_messages (db srv)) →
  (∀ m, m ∈ chat_messages (db srv) → coin_id m = c → is_deleted m = false →
        joined_users (db srv) m ≠ []) →
  (∀ m m', m ∈ chat_messages (db srv) → m' ∈ chat_messages (db srv) →
           coin_id m = c → coin_id m' = c → is_deleted m = false → is_deleted m' = false →
           created_at m = created_at m' → m = m') →
  snd (join_room (with_db srv (run_cleanup (db srv))) sid c fetch)
  = snd (join_room srv sid c fetch).
Proof.
  intros Hpk Hfk Htimes.
  assert (Hrows : recent_rows (run_cleanup (db srv)) c = recent_rows (db srv) c).
  { apply (StronglySorted_unique_strong created_desc).
    - intros m m' Hm Hm' Hle Hge.
      rewrite (recent_rows_cleanup _ _ Hpk Hfk) in Hm.
      apply elem_of_recent_rows in Hm as (Hm & _ & Hc & Hlive).
      apply elem_of_recent_rows in Hm' as (Hm' & _ & Hc' & Hlive').
      apply Htimes; try done. unfold created_desc in Hle, Hge. lia.
    - apply sorted_take, order_by_sorted.
    - apply sorted_take, order_by_sorted.
    - by apply recent_rows_cleanup. }
  unfold join_room. cbn [sockets db with_db].
  destruct (sockets srv !! sid) as [sk|]; [|done].
  destruct (negb (Js.truthy c)); [done|].
  destruct fetch; [|done..].
  assert (Hselect : select_recent_messages (run_cleanup (db srv)) c
                    = select_recent_messages (db srv) c).
  { unfold select_recent_messages. by rewrite Hrows. }
  rewrite Hselect. by destruct (mapM _ _).
Qed.

End sweep_more.

(** The [tidy] table, four live messages in one room, is left as it is. *)
Lemma cleanup_within_bounds_witness :
  Db.cleanup_old_messages (Db.chat_messages Fixtures.tidy) = Db.chat_messages Fixtures.tidy.
Proof.
  apply cleanup_within_bounds.
  - assert (Hall : Forall (λ m, Db.is_deleted m = false) (Db.chat_messages Fixtures.tidy))
      by (apply (bool_decide_unpack _); vm_compute; exact I).
    rewrite Forall_forall in Hall. exact Hall.
  - intros c. etrans; [apply length_filter|]. vm_compute. lia.
Defined.

(** A second sweep of the sample table. *)
Lemma cleanup_idempotent_witness :
  Db.cleanup_old_messages (Db.cleanup_old_messages (Db.chat_messages Sample.sixty))
  = Db.cleanup_old_messages (Db.chat_messages Sample.sixty).
Proof.
  apply cleanup_idempotent.
  apply (bool_decide_unpack _). vm_compute. exact I.
Defined.

(** Bob joins [bitcoin] after a sweep of the sample table. *)
Lemma sweep_keeps_history_witness :
  snd (Chat.join_room
         (Chat.with_db Sample.two_in_bitcoin (Db.run_cleanup (Chat.db Sample.two_in_bitcoin)))
         "s2" "bitcoin" Db.Answered)
  = snd (Chat.join_room Sample.two_in_bitcoin "s2" "bitcoin" Db.Answered).
Proof.
  apply sweep_keeps_history.
  - apply (bool_decide_unpack _). vm_compute. exact I.
  - assert (Hall : Forall (λ m, Db.joined_users (Chat.db Sample.two_in_bitcoin) m ≠ [])
                     (Db.chat_messages (Chat.db Sample.two_in_bitcoin)))
      by (apply (bool_decide_unpack _); vm_compute; exact I).
    rewrite Forall_forall in Hall. intros m Hm _ _. by apply Hall.
  - assert (Hall : Forall (λ m, Forall (λ m', Db.coin_id m = Db.coin_id m' →
                                              Db.created_at m = Db.created_at m' → m = m')
                                  (Db.chat_messages (Chat.db Sample.two_in_bitcoin)))
                     (Db.chat_messages (Chat.db Sample.two_in_bitcoin)))
      by (apply (bool_decide_unpack _); vm_compute; exact I).
    rewrite Forall_forall in Hall. intros m m' Hm Hm' Hc Hc' _ _ Ht.
    specialize (Hall m Hm). rewrite Forall_forall in Hall.
    apply (Hall m' Hm'); congruence.
Defined.

(* ===================================================================== *)
(** * Price rooms *)
(* ===================================================================== *)

Section prices.
Import Prices.
Implicit Types (ns : namespace) (sid : string) (rs : gset string).

Lemma price_room_inj (a b : string) : price_room a = price_room b → a = b.
Proof. unfold price_room. intros H. cbv [String.append] in H. by simplify_eq. Qed.

Lemma elem_of_price_rooms (c : string) (l : list string) :
  price_room c ∈ (list_to_set (price_room <$> l) : gset string) ↔ c ∈ l.
Proof.
  rewrite elem_of_list_to_set, list_elem_of_fmap. split.
  - by intros (c' & ->%price_room_inj & ?).
  - intros ?. by exists c.
Qed.

Lemma subscribed_rooms rs (l : list string) :
  foldl (λ acc coinId, {[price_room coinId]} ∪ acc) rs l
  = rs ∪ list_to_set (price_room <$> l).
Proof.
  revert rs. induction l as [|c l IH]; intros rs; simpl.
  - by rewrite (right_id_L ∅ (∪)).
  - by rewrite IH, (comm_L (∪) {[price_room c]} rs), (assoc_L (∪)).
Qed.

Lemma unsubscribed_rooms rs (l : list string) :
  foldl (λ acc coinId, acc ∖ {[price_room coinId]}) rs l
  = rs ∖ list_to_set (price_room <$> l).
Proof.
  revert rs. induction l as [|c l IH]; intros rs; simpl.
  - by rewrite difference_empty_L.
  - rewrite IH. apply set_eq. intros x.
    rewrite !elem_of_difference, elem_of_union. tauto.
Qed.

Lemma elem_of_broadcastPriceUpdate ns (c : string) sid :
  sid ∈ broadcastPriceUpdate ns c ↔ ∃ rs, ns !! sid = Some rs ∧ price_room c ∈ rs.
Proof.
  unfold broadcastPriceUpdate. rewrite elem_of_dom. unfold is_Some.
  setoid_rewrite map_lookup_filter_Some. naive_solver.
Qed.

(** X25. Price rooms are sets, not counters.  After a socket has subscribed
    to the coins of [l] and then unsubscribed from those of [l'], a price
    update of [c] reaches it exactly when [c] is not in [l'] and either [c]
    is in [l] or the socket followed [c] before; so one unsubscription
    undoes any number of subscriptions.  No other socket is affected. *)
Theorem price_updates_follow_subscriptions ns sid rs (l l' : list string) (c : string) :
  ns !! sid = Some rs →
  let after := unsubscribe_price_updates (subscribe_price_updates ns sid (Some l))
                 sid (Some l') in
  (sid ∈ broadcastPriceUpdate after c
     ↔ (c ∉ l') ∧ (c ∈ l ∨ sid ∈ broadcastPriceUpdate ns c)) ∧
  (∀ other, other ≠ sid →
     other ∈ broadcastPriceUpdate after c ↔ other ∈ broadcastPriceUpdate ns c).
Proof.
  intros Hsid after.
  assert (Hafter : after = <[sid := (rs ∪ list_to_set (price_room <$> l))
                                     ∖ list_to_set (price_room <$> l')]> ns).
  { unfold after, subscribe_price_updates, unsubscribe_price_updates.
    rewrite Hsid, lookup_insert_eq, insert_insert_eq.
    by rewrite subscribed_rooms, unsubscribed_rooms. }
  rewrite Hafter. split.
  - rewrite !elem_of_broadcastPriceUpdate. setoid_rewrite lookup_insert_eq.
    rewrite Hsid. split.
    + intros (rs' & [= <-] & Hin).
      rewrite elem_of_difference, elem_of_union, !elem_of_price_rooms in Hin.
      destruct Hin as [[Hin|Hin] Hout]; (split; [done|]); [right|by left].
      by exists rs.
    + intros [Hout Hin]. eexists. split; [done|].
      rewrite elem_of_difference, elem_of_union, !elem_of_price_rooms. split; [|done].
      destruct Hin as [?|(rs' & [= <-] & ?)]; [by right|by left].
  - intros other Hother. rewrite !elem_of_broadcastPriceUpdate.
    by setoid_rewrite lookup_insert_ne.
Qed.

End prices.

(** [n2] subscribes to [bitcoin] twice and to [ethereum], then unsubscribes
    from [bitcoin] once: it gets the updates of [ethereum] only. *)
Lemma price_updates_follow_subscriptions_witness :
  ("n2" ∈ Prices.broadcastPriceUpdate
            (Prices.unsubscribe_price_updates
               (Prices.subscribe_price_updates Fixtures.main_namespace "n2"
                  (Some ["bitcoin"; "ethereum"; "bitcoin"]))
               "n2" (Some ["bitcoin"])) "ethereum") ∧
  ("n2" ∉ Prices.broadcastPriceUpdate
            (Prices.unsubscribe_price_updates
               (Prices.subscribe_price_updates Fixtures.main_namespace "n2"
                  (Some ["bitcoin"; "ethereum"; "bitcoin"]))
               "n2" (Some ["bitcoin"])) "bitcoin").
Proof.
  destruct (price_updates_follow_subscriptions Fixtures.main_namespace "n2" {["n2"]}
              ["bitcoin"; "ethereum"; "bitcoin"] ["bitcoin"] "ethereum") as [Hethereum _].
  { vm_compute. reflexivity. }
  destruct (price_updates_follow_subscriptions Fixtures.main_namespace "n2" {["n2"]}
              ["bitcoin"; "ethereum"; "bitcoin"] ["bitcoin"] "bitcoin") as [Hbitcoin _].
  { vm_compute. reflexivity. }
  split.
  - apply (proj2 Hethereum).
    split; [|left]; apply (bool_decide_unpack _); vm_compute; exact I.
  - intros Hin. apply (proj1 Hbitcoin) in Hin as [Hout _]. apply Hout.
    apply (bool_decide_unpack _). vm_compute. exact I.
Defined.

(* ===================================================================== *)
(** * Writing and reading back *)
(* ===================================================================== *)

Section round_trips.
Import Db Chat.
Implicit Types (srv : Server) (sid : string) (sk : Socket) (d : Database).

(** X26. Once a message is stored in a room, the room is joined without
    its history: after a [send_message] that stored a row, a [join_room] of
    that room by a connected socket whose history query answers finds at
    least that row, throws at [msg.users[0].id] and is answered
    [Failed to join room]; the socket is in the room all the same, and nobody
    else is told anything. *)
Theorem sent_message_fails_next_join srv sid sk sid' sk' (c message : string) lookup
    new_id now userId :
  sockets srv !! sid = Some sk → sockets srv !! sid' = Some sk' →
  c ≠ "" → Js.trim message ≠ "" → (String.length message ≤ 500)%nat →
  getUserIdFromSub (db srv) lookup (sub (user sk)) = Some userId →
  let srv' := fst (send_message srv sid c message lookup (Inserted new_id now)) in
  let result := join_room srv' sid' c Answered in
  recent_rows (db srv') c ≠ [] ∧
  snd result = [ToSocket sid' (EvError "Failed to join room")] ∧
  (sid' ∈ members (fst result) c) ∧
  received (fst result) (snd result) sid' = [EvError "Failed to join room"] ∧
  (∀ other, other ≠ sid' → received (fst result) (snd result) other = []).
Proof.
  intros Hsk Hsk' Hc Hbody Hlen Huser srv' result.
  set (r := new_row new_id c userId (Js.trim message) now).
  assert (Hsrv' : srv' = with_db srv (insert_message (db srv) r)).
  { unfold srv'.
    by rewrite (send_message_validated _ _ _ _ _ _ _ _ Hsk Hc Hbody Hlen Huser). }
  assert (Hsk'' : sockets srv' !! sid' = Some sk') by by rewrite Hsrv'.
  assert (Hrows : recent_rows (db srv') c ≠ []).
  { assert (Hin : r ∈ filter (eligible (db srv') c) (chat_messages (db srv'))).
    { rewrite list_elem_of_filter, Hsrv'. split.
      - split; [|done]. by apply (joined_users_known _ lookup (sub (user sk))).
      - simpl. apply elem_of_app. right. apply list_elem_of_here. }
    intros Hnil. apply (f_equal length) in Hnil. unfold recent_rows in Hnil.
    rewrite length_take, order_by_perm in Hnil.
    destruct (filter _ _); [by apply elem_of_nil in Hin|]. simpl in Hnil. lia. }
  assert (Hres : snd result = [ToSocket sid' (EvError "Failed to join room")]).
  { unfold result. rewrite (join_room_answered srv' sid' sk' c Hsk'' Hc).
    by rewrite decide_False. }
  split; [done|]. split; [done|]. rewrite Hres. split; [|split].
  - unfold result. rewrite join_room_server, Hsk'', (truthy_true _ Hc).
    apply members_after_insert. left. split; [done|]. simpl.
    apply elem_of_union_l. by apply elem_of_singleton.
  - by rewrite received_to_socket, decide_True.
  - intros other Hother. by rewrite received_to_socket, decide_False.
Qed.

(** With a key that is unique, a row is the only one under its key. *)
Lemma filter_unique_key {A} (key : A → string) (l : list A) (a : A) :
  NoDup (key <$> l) → a ∈ l → filter (λ x, key x = key a) l = [a].
Proof.
  induction l as [|b l IH]; intros Hnd Ha; [by apply elem_of_nil in Ha|].
  rewrite fmap_cons in Hnd. apply NoDup_cons in Hnd as [Hfresh Hnd].
  assert (Hnone : ∀ x, x ∈ l → key x ≠ key b).
  { intros x Hx Heq. apply Hfresh. rewrite <-Heq. apply list_elem_of_fmap. by exists x. }
  rewrite filter_cons. apply elem_of_cons in Ha as [->|Ha].
  - rewrite decide_True by done. f_equal.
    assert (Hempty : ∀ x, x ∉ filter (λ x, key x = key b) l).
    { intros x Hx. apply list_elem_of_filter in Hx as [Heq Hx]. by apply (Hnone x). }
    destruct (filter _ l) as [|x ?]; [done|]. exfalso. apply (Hempty x), list_elem_of_here.
  - rewrite decide_False; [by apply IH|]. intros Heq. by apply (Hnone a).
Qed.

(** X27. [getUserIdFromSub] with [auth0_sub] unique, as the schema has it:
    when the query answers, the result is the id of the user's row if there
    is one and [null] if there is none; when the query fails, it is [null]
    whatever the table holds. *)
Theorem getUserIdFromSub_found d (auth0Sub : string) :
  NoDup (auth0_sub <$> users d) →
  (∀ u, u ∈ users d → auth0_sub u = auth0Sub →
        getUserIdFromSub d Answered auth0Sub = Some (usr_id u)) ∧
  ((∀ u, u ∈ users d → auth0_sub u ≠ auth0Sub) →
   getUserIdFromSub d Answered auth0Sub = None) ∧
  getUserIdFromSub d Errored auth0Sub = None ∧
  getUserIdFromSub d Threw auth0Sub = None.
Proof.
  intros Hunique. split; [|split; [|done]].
  - intros u Hu <-. unfold getUserIdFromSub.
    by rewrite (filter_unique_key auth0_sub _ _ Hunique Hu).
  - intros Hnone. unfold getUserIdFromSub.
    destruct (filter _ (users d)) as [|u ?] eqn:Hf; [done|]. exfalso.
    assert (Hu : u ∈ filter (λ u, auth0_sub u = auth0Sub) (users d))
      by (rewrite Hf; apply list_elem_of_here).
    apply list_elem_of_filter in Hu as [Hsub Hu]. by apply (Hnone u).
Qed.

End round_trips.

(** Alice sends [hi] into [cardano], a room without messages, and Bob joins
    it next: he receives [Failed to join room]. *)
Lemma sent_message_fails_next_join_witness :
  snd (Chat.join_room Sample.two_in_bitcoin "s2" "cardano" Db.Answered)
    = [Chat.ToSocket "s2" (Chat.EvRoomJoined "cardano" []);
       Chat.ToRoomExcept "cardano" "s2" (Chat.EvUserJoined "bob")] ∧
  snd (Chat.join_room
         (fst (Chat.send_message Sample.two_in_bitcoin "s1" "cardano" "hi"
                 Db.Answered (Db.Inserted "m-first" 500)))
         "s2" "cardano" Db.Answered)
    = [Chat.ToSocket "s2" (Chat.EvError "Failed to join room")].
Proof.
  destruct (sent_message_fails_next_join Sample.two_in_bitcoin "s1"
              (Chat.mkSocket Sample.alice_socket {["bitcoin"; "s1"]}) "s2"
              (Chat.mkSocket Sample.bob_socket {["bitcoin"; "s2"]}) "cardano" "hi"
              Db.Answered "m-first" 500 "u-alice")
    as (_ & Hjoin & _).
  - vm_compute. reflexivity.
  - vm_compute. reflexivity.
  - discriminate.
  - vm_compute. discriminate.
  - vm_compute. lia.
  - vm_compute. reflexivity.
  - split; [vm_compute; reflexivity|exact Hjoin].
Defined.

(** Bob's row is found under his sub in the sample table. *)
Lemma getUserIdFromSub_found_witness :
  Db.getUserIdFromSub Sample.sixty Db.Answered "auth0|bob" = Some "u-bob".
Proof.
  destruct (getUserIdFromSub_found Sample.sixty "auth0|bob") as [Hfound _].
  - apply (bool_decide_unpack _). vm_compute. exact I.
  - apply (Hfound Sample.bob); [|reflexivity].
    apply list_elem_of_In. vm_compute. tauto.
Defined.
